(** * jcp: the MCP tool-connection manager and the ADK model factory

    A shallow embedding of [internal/adk/mcp/manager.go] (package [mcp]) and
    of the model factory (package [adk]) that follows it in the same source
    file.

    Go strings are byte strings ([string]), Go maps are [gmap]s, Go [int]s
    are [Z].  A method of the manager is a computation on the pair of the
    receiver and the outside world; a function of the factory is a
    computation on the outside world.  Calls that leave the program (the MCP
    SDK, the HTTP client, the credential libraries, the model SDK) are
    answered by a [Runtime] of oracles, which may answer differently as the
    history grows, and leave an [Event] in the [World]'s trace.  The order in
    which Go visits a map is an oracle too.  Log calls and the passing of
    time are not part of the model. *)

From Stdlib Require Import ZArith String Ascii DecimalString DecimalZ DecimalPos.
From stdpp Require Import gmap strings list fin_maps.

Local Open Scope string_scope.
Local Open Scope list_scope.
Local Open Scope nat_scope.

(* ===================================================================== *)
(** * Part I: definitions                                                 *)
(* ===================================================================== *)

(** ** The pieces of Go's [strings] and [fmt] packages used by the code *)

Module GoStrings.

(** [strings.ContainsRune] for a one-byte rune. *)
Fixpoint contains_byte (cutset : string) (c : ascii) : bool :=
  match cutset with
  | EmptyString => false
  | String d rest => if Ascii.eqb c d then true else contains_byte rest c
  end.

(** [strings.TrimRight(s, cutset)] for an ASCII cutset: the trailing bytes
    of [s] that occur in [cutset] are removed. *)
Fixpoint TrimRight (s cutset : string) : string :=
  match s with
  | EmptyString => EmptyString
  | String c rest =>
      match TrimRight rest cutset with
      | EmptyString => if contains_byte cutset c then EmptyString else String c EmptyString
      | kept => String c kept
      end
  end.

(** [len(s) >= len(suffix) && s[len(s)-len(suffix):] == suffix] *)
Definition HasSuffix (s suffix : string) : bool :=
  (String.length suffix <=? String.length s)%nat
  && String.eqb (substring (String.length s - String.length suffix)
                           (String.length suffix) s) suffix.

(** [strings.TrimSuffix]: [s[:len(s)-len(suffix)]] when [s] ends with
    [suffix], else [s]. *)
Definition TrimSuffix (s suffix : string) : string :=
  if HasSuffix s suffix
  then substring 0 (String.length s - String.length suffix) s
  else s.

(** [strings.Contains], used to state what a message contains. *)
Fixpoint Contains (s substr : string) : bool :=
  if String.prefix substr s then true
  else match s with
       | EmptyString => false
       | String _ rest => Contains rest substr
       end.

(** [n] copies of the byte [c]. *)
Fixpoint repeat_byte (c : ascii) (n : nat) : string :=
  match n with
  | O => EmptyString
  | S n => String c (repeat_byte c n)
  end.

(** The last byte of [s] is [c]. *)
Definition ends_with_byte (s : string) (c : ascii) : Prop :=
  ∃ p, s = p +:+ String c "".

End GoStrings.

Module fmt.

(** The verb [%d] applied to an [int]. *)
Definition itoa (n : Z) : string := NilZero.string_of_int (Z.to_int n).

End fmt.

(** ** Go values shared by both packages *)

Module go.

(** A Go [error] value: a plain message, or a message wrapping another error
    ([fmt.Errorf] with the verb [%w]). *)
Inductive error :=
| errorString (msg : string)
| wrapError (msg : string) (inner : error).

(** [err.Error()] *)
Definition Error (e : error) : string :=
  match e with
  | errorString msg => msg
  | wrapError msg _ => msg
  end.

(** [fmt.Errorf(prefix + "%s", arg)] *)
Definition Errorf_s (prefix arg : string) : error := errorString (prefix +:+ arg).

(** [fmt.Errorf(prefix + "%w", err)] *)
Definition Errorf_w (prefix : string) (err : error) : error :=
  wrapError (prefix +:+ Error err) err.

(** A pair [(value, err)] of which exactly one side is meaningful. *)
Definition Result (A : Type) : Type := A + error.

(** [context.Context]: the background context, a caller's scope, or a
    context derived from a parent with a timeout in seconds. *)
Inductive Context :=
| Background
| Scope (id : nat)
| WithTimeout (parent : Context) (seconds : Z).

(** A state monad: [M S A] is a computation on a state [S] returning [A]. *)
Definition M (S A : Type) : Type := S → A * S.

#[global] Instance M_ret {S} : MRet (M S) := λ A (a : A) s, (a, s).

#[global] Instance M_bind {S} : MBind (M S) :=
  λ A B (k : A → M S B) (c : M S A) s, let '(a, s') := c s in k a s'.

Definition get {S} : M S S := λ s, (s, s).

Definition modify {S} (f : S → S) : M S unit := λ s, (tt, f s).

(** [for _, a := range l { acc = body acc a }] *)
Fixpoint for_range {S A B} (l : list A) (acc : B) (body : B → A → M S B) : M S B :=
  match l with
  | [] => mret acc
  | a :: rest => acc' ← body acc a; for_range rest acc' body
  end.

End go.

(** ** Package [models]: the configuration records *)

Module models.

Definition MCPTransportType := string.
Definition AIProvider := string.

(** Modelled from the spec: [models.MCPServerConfig] is declared outside the
    files at hand; these are the parts of the specification's tool-server
    config (id, name, transport kind, endpoint or command with arguments,
    enabled flag) under the field names the manager reads them by. *)
Record MCPServerConfig := {
  ID : string;
  Name : string;
  TransportType : MCPTransportType;
  Endpoint : string;
  Command : string;
  Args : list string;
  Enabled : bool
}.

(** Modelled from the spec: [models.AIConfig] is declared outside the files
    at hand; these are the parts of the specification's provider config
    (provider kind, responses-style flag, credentials, network parameters,
    model name) under the field names the factory reads them by. *)
Record AIConfig := {
  Provider : AIProvider;
  UseResponses : bool;
  APIKey : string;
  BaseURL : string;
  ModelName : string;
  CredentialsJSON : string;
  Project : string;
  Location : string
}.

(** The named constants of the package that the two source files switch on.
    Their declarations live outside the modelled files, so their values are
    parameters. *)
Class Constants := {
  MCPTransportSSE : MCPTransportType;
  MCPTransportCommand : MCPTransportType;
  AIProviderGemini : AIProvider;
  AIProviderVertexAI : AIProvider;
  AIProviderOpenAI : AIProvider
}.

End models.

(** ** The libraries the code calls, as values and oracles *)

Module ext.

Import go.

(** [mcp.Transport]: the three implementations the manager constructs. *)
Inductive Transport :=
| SSEClientTransport (Endpoint : string)
| CommandTransport (Command : string) (Args : list string)
| StreamableClientTransport (Endpoint : string) (MaxRetries : Z).

(** [mcp.Implementation] *)
Record Implementation := { ImplName : string; ImplVersion : string }.

(** [tool.Toolset] as built by [mcptoolset.New]: a heap object, identified
    by the position in the trace of the call that allocated it. *)
Record Toolset := { ts_ptr : nat; ts_transport : Transport }.

(** A tool descriptor of [ListToolsResult.Tools]. *)
Record Tool := { ToolName : string; ToolDescription : string }.

(** [http.RoundTripper]: the proxy transport, possibly wrapped by the layer
    that adds the authentication header. *)
Inductive RoundTripper :=
| ProxyTransport
| AuthTransport (creds : nat) (base : RoundTripper).

(** [credentials.DetectOptions] *)
Record DetectOptions := {
  Scopes : list string;
  OptCredentialsJSON : option string;
  OptClient : RoundTripper
}.

Inductive Backend := BackendGeminiAPI | BackendVertexAI.

(** [genai.ClientConfig] *)
Record ClientConfig := {
  CfgAPIKey : string;
  CfgBackend : Backend;
  CfgProject : string;
  CfgLocation : string;
  CfgCredentials : option nat;
  CfgHTTPClient : RoundTripper
}.

(** [go_openai.ClientConfig] *)
Record OpenAIConfig := {
  authToken : string;
  OpenAIBaseURL : string;
  OpenAIHTTPClient : option RoundTripper
}.

(** [go_openai.DefaultConfig] *)
Definition DefaultConfig (authToken : string) : OpenAIConfig :=
  {| authToken := authToken;
     OpenAIBaseURL := "https://api.openai.com/v1";
     OpenAIHTTPClient := None |}.

(** [model.LLM]: the three implementations the factory returns. *)
Inductive LLM :=
| GeminiModel (modelName : string) (cfg : ClientConfig)
| OpenAIModel (modelName : string) (cfg : OpenAIConfig)
| ResponsesModel (modelName apiKey baseURL : string) (client : RoundTripper).

(** [model.LLMRequest] as the probe builds it. *)
Record LLMRequest := {
  ReqRole : string;
  ReqText : string;
  MaxOutputTokens : Z
}.

(** The values [json.Marshal] is applied to. *)
#[warnings="-register-all"]
Inductive JSON :=
| JString (s : string)
| JInt (n : Z)
| JArray (items : list JSON)
| JObject (fields : list (string * JSON)).

(** [http.Request] *)
Record Request := {
  Method : string;
  URL : string;
  ReqBody : string;
  Header : list (string * string)
}.

(** [http.Response]; [Body] is what reading the body to its end delivers. *)
Record Response := { StatusCode : Z; Body : string }.

(** What leaves the program. *)
Inductive Event :=
| EvToolsetNew (t : Transport)
| EvConnect (ctx : Context) (impl : Implementation) (t : Transport)
| EvListTools (ctx : Context) (session : nat)
| EvSessionClose (session : nat)
| EvDetectDefault (opts : DetectOptions)
| EvAuthNewClient (creds : nat) (base : RoundTripper)
| EvGeminiNewModel (ctx : Context) (modelName : string) (cfg : ClientConfig)
| EvGenerateContent (ctx : Context) (llm : LLM) (req : LLMRequest)
| EvHTTPDo (ctx : Context) (client : RoundTripper) (req : Request).

(** The outside world: the calls made so far (oldest first) and the number
    of map iterations started so far. *)
Record World := { trace : list Event; ranges : nat }.

(** The answers of the outside world.  Every answer may depend on the whole
    history.  [range_configs n m] is the order in which the [n]-th map
    iteration of the run visits the entries of [m]: Go leaves the order
    unspecified, but every entry is visited exactly once. *)
Class Runtime := {
  mcptoolset_New_err : list Event → Transport → option error;
  client_Connect : list Event → Context → Implementation → Transport → Result nat;
  session_ListTools : list Event → Context → nat → Result (list Tool);
  range_configs : nat → gmap string models.MCPServerConfig →
                  list (string * models.MCPServerConfig);
  range_configs_perm : ∀ n m, range_configs n m ≡ₚ map_to_list m;
  json_Marshal : JSON → Result string;
  http_NewRequest_err : string → string → option error;
  client_Do : list Event → Context → RoundTripper → Request → Result Response;
  credentials_DetectDefault : list Event → DetectOptions → Result nat;
  httptransport_NewClient_err : list Event → nat → RoundTripper → option error;
  gemini_NewModel_err : list Event → Context → string → ClientConfig → option error;
  llm_GenerateContent : list Event → Context → LLM → LLMRequest →
                        list (string * option error)
}.

(** One call to the outside: look the answer up, then record the call. *)
Definition call {A} (e : Event) (answer : list Event → A) : M World A :=
  λ w, (answer (trace w), {| trace := trace w ++ [e]; ranges := ranges w |}).

End ext.

(** ** Package [mcp]: the tool-connection manager *)

Module mcp.

Import go ext.

(** [ServerStatus] *)
Record ServerStatus := { ID : string; Connected : bool; Error : string }.

(** [ToolInfo] *)
Record ToolInfo := {
  Name : string;
  Description : string;
  ServerID : string;
  ServerName : string
}.

(** [Manager].  A [nil] context is [None].  The lock [mu] has no counterpart:
    every method below is one critical section.  The Go map [configs] holds
    pointers into the slice given to [LoadConfigs]; the model holds the
    values found there at the time of the call, so a caller that writes to
    the slice afterwards is outside the model. *)
Record Manager := {
  ctx : option Context;
  configs : gmap string models.MCPServerConfig;
  toolsets : gmap string Toolset
}.

Definition NewManager : Manager :=
  {| ctx := None; configs := ∅; toolsets := ∅ |}.

(** The state a method runs in: the receiver and the outside world. *)
Definition State : Type := Manager * World.

Definition getM : M State Manager := λ σ, (σ.1, σ).

Definition set_ctx (c : option Context) : M State unit :=
  modify (λ σ : State, ({| ctx := c; configs := configs σ.1; toolsets := toolsets σ.1 |}, σ.2)).

Definition set_configs (cs : gmap string models.MCPServerConfig) : M State unit :=
  modify (λ σ : State, ({| ctx := ctx σ.1; configs := cs; toolsets := toolsets σ.1 |}, σ.2)).

Definition set_toolsets (ts : gmap string Toolset) : M State unit :=
  modify (λ σ : State, ({| ctx := ctx σ.1; configs := configs σ.1; toolsets := ts |}, σ.2)).

(** [m.toolsets[id] = ts] *)
Definition store_toolset (id : string) (ts : Toolset) : M State unit :=
  m ← getM; set_toolsets (<[id := ts]> (toolsets m)).

(** Run a computation on the world inside a method. *)
Definition liftW {A} (c : M World A) : M State A :=
  λ σ, let '(a, w) := c σ.2 in (a, (σ.1, w)).

Section with_runtime.

Context {consts : models.Constants} {rt : Runtime}.

(** [for id, cfg := range m.configs] starts here: the order of the visit. *)
Definition range_map (m : gmap string models.MCPServerConfig) :
    M State (list (string * models.MCPServerConfig)) :=
  λ σ, (range_configs (ranges σ.2) m,
        (σ.1, {| trace := trace σ.2; ranges := S (ranges σ.2) |})).

Definition createTransport (cfg : models.MCPServerConfig) : Transport :=
  if decide (models.TransportType cfg = models.MCPTransportSSE) then
    SSEClientTransport (models.Endpoint cfg)
  else if decide (models.TransportType cfg = models.MCPTransportCommand) then
    CommandTransport (models.Command cfg) (models.Args cfg)
  else
    StreamableClientTransport (models.Endpoint cfg) 3.

(** [mcptoolset.New(mcptoolset.Config{Transport: t})] *)
Definition mcptoolset_New (t : Transport) : M World (Result Toolset) :=
  call (EvToolsetNew t) (λ h,
    match mcptoolset_New_err h t with
    | Some err => inr err
    | None => inl {| ts_ptr := length h; ts_transport := t |}
    end).

Definition createToolsetLocked (cfg : models.MCPServerConfig) : M State (Result Toolset) :=
  r ← liftW (mcptoolset_New (createTransport cfg));
  match r with
  | inr err => mret (inr err)
  | inl ts => mret (inl ts)
  end.

Definition CreateToolset (cfg : models.MCPServerConfig) : M State (Result Toolset) :=
  createToolsetLocked cfg.

(** The body of the loop of [Initialize]. *)
Definition Initialize_body (_ : unit) (entry : string * models.MCPServerConfig) :
    M State unit :=
  let '(id, cfg) := entry in
  m ← getM;
  match toolsets m !! id with
  | Some _ => mret tt
  | None =>
      r ← createToolsetLocked cfg;
      match r with
      | inr _ => mret tt
      | inl ts => store_toolset id ts
      end
  end.

Definition Initialize (c : option Context) : M State (option error) :=
  set_ctx c;;
  m ← getM;
  entries ← range_map (configs m);
  for_range entries tt Initialize_body;;
  mret None.

(** The first loop of [LoadConfigs]: [m.configs[cfg.ID] = cfg] for every
    enabled element, in slice order. *)
Definition load_enabled (cfgs : list models.MCPServerConfig) :
    gmap string models.MCPServerConfig :=
  foldl (λ acc cfg, if models.Enabled cfg then <[models.ID cfg := cfg]> acc else acc)
        ∅ cfgs.

(** The body of the second loop of [LoadConfigs]. *)
Definition LoadConfigs_body (_ : unit) (entry : string * models.MCPServerConfig) :
    M State unit :=
  let '(id, cfg) := entry in
  r ← createToolsetLocked cfg;
  match r with
  | inr _ => mret tt
  | inl ts => store_toolset id ts
  end.

Definition LoadConfigs (cfgs : list models.MCPServerConfig) : M State (option error) :=
  set_configs ∅;;
  set_toolsets ∅;;
  set_configs (load_enabled cfgs);;
  m ← getM;
  match ctx m with
  | Some _ =>
      entries ← range_map (configs m);
      for_range entries tt LoadConfigs_body
  | None => mret tt
  end;;
  mret None.

(** The body of the loop of [GetToolsetsByIDs]. *)
Definition GetToolsetsByIDs_body (result : list Toolset) (id : string) :
    M State (list Toolset) :=
  m ← getM;
  match toolsets m !! id with
  | Some ts => mret (result ++ [ts])
  | None =>
      match configs m !! id with
      | None => mret result
      | Some cfg =>
          r ← createToolsetLocked cfg;
          match r with
          | inr _ => mret result
          | inl ts => store_toolset id ts;; mret (result ++ [ts])
          end
      end
  end.

Definition GetToolsetsByIDs (ids : list string) : M State (list Toolset) :=
  for_range ids [] GetToolsetsByIDs_body.

(** The body of the loop of [GetAllToolsets]. *)
Definition GetAllToolsets_body (result : list Toolset)
    (entry : string * models.MCPServerConfig) : M State (list Toolset) :=
  let '(id, cfg) := entry in
  m ← getM;
  match toolsets m !! id with
  | Some ts => mret (result ++ [ts])
  | None =>
      r ← createToolsetLocked cfg;
      match r with
      | inr _ => mret result
      | inl ts => store_toolset id ts;; mret (result ++ [ts])
      end
  end.

Definition GetAllToolsets : M State (list Toolset) :=
  m ← getM;
  entries ← range_map (configs m);
  for_range entries [] GetAllToolsets_body.

(** The body of the loop of [GetAllStatus]. *)
Definition GetAllStatus_body (result : list ServerStatus)
    (entry : string * models.MCPServerConfig) : M State (list ServerStatus) :=
  mret (result ++ [{| ID := entry.1; Connected := false; Error := "" |}]).

Definition GetAllStatus : M State (list ServerStatus) :=
  m ← getM;
  entries ← range_map (configs m);
  for_range entries [] GetAllStatus_body.

(** [client.Connect(ctx, transport, nil)] on a fresh client for [impl]. *)
Definition Connect (c : Context) (impl : Implementation) (t : Transport) :
    M World (Result nat) :=
  call (EvConnect c impl t) (λ h, client_Connect h c impl t).

Definition TestConnection (serverID : string) : M State ServerStatus :=
  m ← getM;
  match configs m !! serverID with
  | None =>
      mret {| ID := serverID; Connected := false; Error := "服务器未配置" |}
  | Some cfg =>
      let c := WithTimeout Background 5 in
      let impl := {| ImplName := models.Name cfg; ImplVersion := "1.0.0" |} in
      r ← liftW (Connect c impl (createTransport cfg));
      match r with
      | inr err =>
          mret {| ID := serverID; Connected := false; Error := go.Error err |}
      | inl _ =>
          mret {| ID := serverID; Connected := true; Error := "" |}
      end
  end.

Definition GetServerTools (serverID : string) : M State (Result (list ToolInfo)) :=
  m ← getM;
  match configs m !! serverID with
  | None => mret (inl [])
  | Some cfg =>
      let c := WithTimeout Background 10 in
      let impl := {| ImplName := models.Name cfg; ImplVersion := "1.0.0" |} in
      r ← liftW (Connect c impl (createTransport cfg));
      match r with
      | inr err => mret (inr err)
      | inl session =>
          toolsResp ← liftW (call (EvListTools c session)
                                  (λ h, session_ListTools h c session));
          liftW (call (EvSessionClose session) (λ _, tt));;
          match toolsResp with
          | inr err => mret (inr err)
          | inl tools =>
              mret (inl ((λ t, {| Name := ToolName t;
                                  Description := ToolDescription t;
                                  ServerID := serverID;
                                  ServerName := models.Name cfg |}) <$> tools))
          end
      end
  end.

Definition GetToolInfosByServerIDs (serverIDs : list string) : M State (list ToolInfo) :=
  for_range serverIDs [] (λ allTools id,
    r ← GetServerTools id;
    match r with
    | inr _ => mret allTools
    | inl tools => mret (allTools ++ tools)
    end).

(** The exported methods, as requests a caller can make. *)
Inductive Op :=
| OpInitialize (c : option Context)
| OpLoadConfigs (cfgs : list models.MCPServerConfig)
| OpCreateToolset (cfg : models.MCPServerConfig)
| OpGetToolsetsByIDs (ids : list string)
| OpGetAllToolsets
| OpGetAllStatus
| OpTestConnection (serverID : string)
| OpGetServerTools (serverID : string)
| OpGetToolInfosByServerIDs (serverIDs : list string).

(** The state after a request (its result is dropped). *)
Definition exec (o : Op) (σ : State) : State :=
  match o with
  | OpInitialize c => (Initialize c σ).2
  | OpLoadConfigs cfgs => (LoadConfigs cfgs σ).2
  | OpCreateToolset cfg => (CreateToolset cfg σ).2
  | OpGetToolsetsByIDs ids => (GetToolsetsByIDs ids σ).2
  | OpGetAllToolsets => (GetAllToolsets σ).2
  | OpGetAllStatus => (GetAllStatus σ).2
  | OpTestConnection serverID => (TestConnection serverID σ).2
  | OpGetServerTools serverID => (GetServerTools serverID σ).2
  | OpGetToolInfosByServerIDs serverIDs => (GetToolInfosByServerIDs serverIDs σ).2
  end.

(** The state after a sequence of requests on a manager made by
    [NewManager]. *)
Definition run (ops : list Op) (w : World) : State :=
  foldl (λ σ o, exec o σ) (NewManager, w) ops.

(** The invariant of the cache: every cached id is an enabled config id. *)
Definition cache_coherent (m : Manager) : Prop :=
  dom (toolsets m) ⊆ dom (configs m).

(** Every cached connection was built from the config now loaded under its
    id. *)
Definition built_from_config (m : Manager) : Prop :=
  ∀ id ts, toolsets m !! id = Some ts →
    ∃ cfg, configs m !! id = Some cfg ∧ ts_transport ts = createTransport cfg.

(** Every cached connection was allocated by a call already in the trace. *)
Definition heap_fresh (σ : State) : Prop :=
  ∀ id ts, toolsets σ.1 !! id = Some ts → ts_ptr ts < length (trace σ.2).

(** The two facts about the cache that hold of every reachable state. *)
Definition good (σ : State) : Prop := built_from_config σ.1 ∧ heap_fresh σ.

(** [σ'] comes after [σ] without reconfiguration: same scope and configs,
    a longer trace, every cached connection still cached, and the cache
    facts kept. *)
Definition grows (σ σ' : State) : Prop :=
  ctx σ'.1 = ctx σ.1
  ∧ configs σ'.1 = configs σ.1
  ∧ trace σ.2 `prefix_of` trace σ'.2
  ∧ (∀ id ts, toolsets σ.1 !! id = Some ts → toolsets σ'.1 !! id = Some ts)
  ∧ (good σ → good σ')
  ∧ (cache_coherent σ.1 → cache_coherent σ'.1).

(** The state [σ] with the scope replaced by [c]. *)
Definition rebind (c : option Context) (σ : State) : State :=
  ({| ctx := c; configs := configs σ.1; toolsets := toolsets σ.1 |}, σ.2).

(** What [mcptoolset.New] answers for [cfg] after the history [h]. *)
Definition build_answer (h : list Event) (cfg : models.MCPServerConfig) : Result Toolset :=
  match mcptoolset_New_err h (createTransport cfg) with
  | Some err => inr err
  | None => inl {| ts_ptr := length h; ts_transport := createTransport cfg |}
  end.

End with_runtime.

End mcp.

(** ** Package [adk]: the model factory *)

Module adk.

Import go ext.

Definition normalizeOpenAIBaseURL (baseURL : string) : string :=
  if String.eqb baseURL "" then "https://api.openai.com/v1"
  else
    let baseURL := GoStrings.TrimRight baseURL "/" in
    if negb (GoStrings.HasSuffix baseURL "/v1") then baseURL +:+ "/v1"
    else baseURL.

(** [proxy.GetManager().GetTransport()] *)
Definition GetTransport : RoundTripper := ProxyTransport.

Definition cloud_platform_scope : string :=
  "https://www.googleapis.com/auth/cloud-platform".

(** The body of the probe request, with the keys in the order in which
    [json.Marshal] writes a map. *)
Definition probe_body (modelName : string) : JSON :=
  JObject [("max_tokens", JInt 1);
           ("messages", JArray [JObject [("content", JString "hi");
                                         ("role", JString "user")]]);
           ("model", JString modelName)].

Section with_runtime.

Context {consts : models.Constants} {rt : Runtime}.

(** [gemini.NewModel(ctx, modelName, clientConfig)] *)
Definition gemini_NewModel (c : Context) (modelName : string) (cfg : ClientConfig) :
    M World (Result LLM) :=
  call (EvGeminiNewModel c modelName cfg) (λ h,
    match gemini_NewModel_err h c modelName cfg with
    | Some err => inr err
    | None => inl (GeminiModel modelName cfg)
    end).

Definition createGeminiModel (c : Context) (config : models.AIConfig) :
    M World (Result LLM) :=
  let clientConfig :=
    {| CfgAPIKey := models.APIKey config;
       CfgBackend := BackendGeminiAPI;
       CfgProject := "";
       CfgLocation := "";
       CfgCredentials := None;
       CfgHTTPClient := GetTransport |} in
  gemini_NewModel c (models.ModelName config) clientConfig.

Definition createVertexAIModel (c : Context) (config : models.AIConfig) :
    M World (Result LLM) :=
  let proxyTransport := GetTransport in
  r ← (if negb (String.eqb (models.CredentialsJSON config) "") then
         let opts := {| Scopes := [cloud_platform_scope];
                        OptCredentialsJSON := Some (models.CredentialsJSON config);
                        OptClient := proxyTransport |} in
         r ← call (EvDetectDefault opts) (λ h, credentials_DetectDefault h opts);
         match r with
         | inr err => mret (inr (Errorf_w "failed to create credentials: " err))
         | inl creds => mret (inl creds)
         end
       else
         let opts := {| Scopes := [cloud_platform_scope];
                        OptCredentialsJSON := None;
                        OptClient := proxyTransport |} in
         r ← call (EvDetectDefault opts) (λ h, credentials_DetectDefault h opts);
         match r with
         | inr err => mret (inr (Errorf_w "failed to detect default credentials: " err))
         | inl creds => mret (inl creds)
         end);
  match r with
  | inr err => mret (inr err)
  | inl creds =>
      e ← call (EvAuthNewClient creds proxyTransport)
               (λ h, httptransport_NewClient_err h creds proxyTransport);
      match e with
      | Some err =>
          mret (inr (Errorf_w "failed to create authenticated HTTP client: " err))
      | None =>
          let clientConfig :=
            {| CfgAPIKey := "";
               CfgBackend := BackendVertexAI;
               CfgProject := models.Project config;
               CfgLocation := models.Location config;
               CfgCredentials := Some creds;
               CfgHTTPClient := AuthTransport creds proxyTransport |} in
          gemini_NewModel c (models.ModelName config) clientConfig
      end
  end.

Definition createOpenAIModel (config : models.AIConfig) : M World (Result LLM) :=
  let openaiCfg := DefaultConfig (models.APIKey config) in
  let openaiCfg :=
    {| authToken := authToken openaiCfg;
       OpenAIBaseURL := normalizeOpenAIBaseURL (models.BaseURL config);
       OpenAIHTTPClient := Some GetTransport |} in
  mret (inl (OpenAIModel (models.ModelName config) openaiCfg)).

Definition createOpenAIResponsesModel (config : models.AIConfig) : M World (Result LLM) :=
  let baseURL := normalizeOpenAIBaseURL (models.BaseURL config) in
  mret (inl (ResponsesModel (models.ModelName config) (models.APIKey config)
                            baseURL GetTransport)).

Definition CreateModel (c : Context) (config : models.AIConfig) : M World (Result LLM) :=
  if decide (models.Provider config = models.AIProviderGemini) then
    createGeminiModel c config
  else if decide (models.Provider config = models.AIProviderVertexAI) then
    createVertexAIModel c config
  else if decide (models.Provider config = models.AIProviderOpenAI) then
    if models.UseResponses config then createOpenAIResponsesModel config
    else createOpenAIModel config
  else
    mret (inr (Errorf_s "unsupported provider: " (models.Provider config))).

(** [io.ReadAll(io.LimitReader(resp.Body, 512))] *)
Definition read_limited (resp : Response) : string := substring 0 512 (Body resp).

(** The URL and the request of the probe. *)
Definition probe_url (config : models.AIConfig) : string :=
  let baseURL := normalizeOpenAIBaseURL (models.BaseURL config) in
  GoStrings.TrimSuffix baseURL "/" +:+ "/chat/completions".

Definition probe_request (config : models.AIConfig) (jsonBody : string) : Request :=
  {| Method := "POST"; URL := probe_url config; ReqBody := jsonBody;
     Header := [("Content-Type", "application/json");
                ("Authorization", "Bearer " +:+ models.APIKey config)] |}.

Definition testOpenAIConnection (c : Context) (config : models.AIConfig) :
    M World (option error) :=
  let transport := GetTransport in
  let body := probe_body (models.ModelName config) in
  match json_Marshal body with
  | inr err => mret (Some (Errorf_w "请求构造失败: " err))
  | inl jsonBody =>
      let url := probe_url config in
      match http_NewRequest_err "POST" url with
      | Some err => mret (Some (Errorf_w "请求创建失败: " err))
      | None =>
          let req := probe_request config jsonBody in
          r ← call (EvHTTPDo c transport req) (λ h, client_Do h c transport req);
          match r with
          | inr err => mret (Some (Errorf_w "连接失败: " err))
          | inl resp =>
              if (StatusCode resp =? 200)%Z then mret None
              else
                let respBody := read_limited resp in
                mret (Some (errorString ("HTTP " +:+ fmt.itoa (StatusCode resp)
                                         +:+ ": " +:+ respBody)))
          end
      end
  end.

Definition testViaGenerate (c : Context) (llm : LLM) : M World (option error) :=
  let req := {| ReqRole := "user"; ReqText := "hi"; MaxOutputTokens := 1 |} in
  items ← call (EvGenerateContent c llm req) (λ h, llm_GenerateContent h c llm req);
  match items with
  | (_, Some err) :: _ => mret (Some (Errorf_w "调用失败: " err))
  | (_, None) :: _ => mret None
  | [] => mret None
  end.

Definition testGeminiConnection (c : Context) (config : models.AIConfig) :
    M World (option error) :=
  r ← createGeminiModel c config;
  match r with
  | inr err => mret (Some (Errorf_w "客户端创建失败: " err))
  | inl llm => testViaGenerate c llm
  end.

Definition testVertexAIConnection (c : Context) (config : models.AIConfig) :
    M World (option error) :=
  r ← createVertexAIModel c config;
  match r with
  | inr err => mret (Some (Errorf_w "客户端创建失败: " err))
  | inl llm => testViaGenerate c llm
  end.

Definition TestConnection (c : Context) (config : models.AIConfig) : M World (option error) :=
  let c := WithTimeout c 15 in
  if decide (models.Provider config = models.AIProviderOpenAI) then
    testOpenAIConnection c config
  else if decide (models.Provider config = models.AIProviderGemini) then
    testGeminiConnection c config
  else if decide (models.Provider config = models.AIProviderVertexAI) then
    testVertexAIConnection c config
  else
    mret (Some (Errorf_s "不支持的 provider: " (models.Provider config))).

(** Every library behind the factory answers without an error, the HTTP
    endpoint answers 200, and the first item a model generates carries no
    error. *)
Definition collaborators_succeed : Prop :=
  (∀ h opts, ∃ creds, credentials_DetectDefault h opts = inl creds)
  ∧ (∀ h creds base, httptransport_NewClient_err h creds base = None)
  ∧ (∀ h c n cfg, gemini_NewModel_err h c n cfg = None)
  ∧ (∀ v, ∃ s, json_Marshal v = inl s)
  ∧ (∀ m u, http_NewRequest_err m u = None)
  ∧ (∀ h c t req, ∃ resp, client_Do h c t req = inl resp ∧ StatusCode resp = 200%Z)
  ∧ (∀ h c llm req, ∀ item, head (llm_GenerateContent h c llm req) = Some item →
                            item.2 = None).

(** [err] is an error some library behind [CreateModel] answers with. *)
Definition collaborator_error (err : error) : Prop :=
  (∃ h opts, credentials_DetectDefault h opts = inr err)
  ∨ (∃ h creds base, httptransport_NewClient_err h creds base = Some err)
  ∨ (∃ h c n cfg, gemini_NewModel_err h c n cfg = Some err).

(** The provider kinds the factory has a construction strategy for. *)
Definition supported (p : models.AIProvider) : Prop :=
  p = models.AIProviderGemini ∨ p = models.AIProviderVertexAI
  ∨ p = models.AIProviderOpenAI.

End with_runtime.

End adk.

(** ** The words of the specification for [GetToolsetsByIDs] *)

Module spec.

Import go ext mcp.

Section with_runtime.

Context {consts : models.Constants} {rt : Runtime}.

(** For one id: the cached connection if one is cached, else a newly built
    and cached connection from that id's enabled config; nothing for an id
    without an enabled config or whose build fails. *)
Definition connection_for (id : string) : M State (option Toolset) :=
  λ σ,
    match toolsets σ.1 !! id with
    | Some ts => (Some ts, σ)
    | None =>
        match configs σ.1 !! id with
        | None => (None, σ)
        | Some cfg =>
            let '(r, σ') := createToolsetLocked cfg σ in
            match r with
            | inr _ => (None, σ')
            | inl ts =>
                (Some ts, ({| ctx := ctx σ'.1; configs := configs σ'.1;
                              toolsets := <[id := ts]> (toolsets σ'.1) |}, σ'.2))
            end
        end
    end.

(** One answer per id, in input order. *)
Fixpoint answers (ids : list string) : M State (list (string * option Toolset)) :=
  match ids with
  | [] => mret []
  | id :: rest =>
      a ← connection_for id;
      others ← answers rest;
      mret ((id, a) :: others)
  end.

(** The ids that were answered with a connection, and the connections. *)
Definition kept_ids (l : list (string * option Toolset)) : list string :=
  omap (λ '(id, a), match a with Some _ => Some id | None => None end) l.

Definition kept_connections (l : list (string * option Toolset)) : list Toolset :=
  omap snd l.

End with_runtime.

End spec.

(** ** Observations on runs of the manager and of the factory *)

Module obs.

Import go ext mcp.

(** The methods that only read the manager. *)
Definition read_only (o : Op) : bool :=
  match o with
  | OpCreateToolset _ | OpGetAllStatus | OpTestConnection _
  | OpGetServerTools _ | OpGetToolInfosByServerIDs _ => true
  | OpInitialize _ | OpLoadConfigs _ | OpGetToolsetsByIDs _ | OpGetAllToolsets => false
  end.

(** Connections cached under different ids are different objects. *)
Definition distinct_objects (m : Manager) : Prop :=
  ∀ id1 id2 ts1 ts2,
    toolsets m !! id1 = Some ts1 → toolsets m !! id2 = Some ts2 →
    ts_ptr ts1 = ts_ptr ts2 → id1 = id2.

(** Every cached connection is the product of the call to [mcptoolset.New]
    that the trace holds at the connection's address. *)
Definition recorded (σ : State) : Prop :=
  ∀ id ts, toolsets σ.1 !! id = Some ts →
    trace σ.2 !! ts_ptr ts = Some (EvToolsetNew (ts_transport ts)).

(** How often an event of kind [p] occurs. *)
Fixpoint count (p : Event → bool) (evs : list Event) : nat :=
  match evs with
  | [] => 0
  | e :: rest => (if p e then 1 else 0) + count p rest
  end.

Definition is_connect (e : Event) : bool :=
  match e with EvConnect _ _ _ => true | _ => false end.

Definition is_list (e : Event) : bool :=
  match e with EvListTools _ _ => true | _ => false end.

Definition is_close (e : Event) : bool :=
  match e with EvSessionClose _ => true | _ => false end.

(** The context an outside call is made under, if it takes one. *)
Definition event_ctx (e : Event) : option Context :=
  match e with
  | EvConnect c _ _ | EvListTools c _ | EvGeminiNewModel c _ _
  | EvGenerateContent c _ _ | EvHTTPDo c _ _ => Some c
  | EvToolsetNew _ | EvSessionClose _ | EvDetectDefault _ | EvAuthNewClient _ _ => None
  end.

(** [c] only appends to the trace, and only events that satisfy [P]. *)
Definition adds {A} (P : Event → Prop) (c : M World A) : Prop :=
  ∀ w, ∃ evs, (c w).2 = {| trace := trace w ++ evs; ranges := ranges w |}
              ∧ Forall P evs.

Section with_runtime.

Context {consts : models.Constants} {rt : Runtime}.

(** The call to [mcptoolset.New] for [cfg]. *)
Definition build_event (cfg : models.MCPServerConfig) : Event :=
  EvToolsetNew (createTransport cfg).

(** The build that a pass over the enabled configs owes the id [id]: none
    when a connection is cached or no config is loaded under [id]. *)
Definition pending (m : Manager) (id : string) : option Event :=
  match toolsets m !! id with
  | Some _ => None
  | None => build_event <$> configs m !! id
  end.

(** A tool descriptor as [GetServerTools] reports it. *)
Definition stamp (serverID : string) (cfg : models.MCPServerConfig) (t : Tool) : ToolInfo :=
  {| Name := ToolName t; Description := ToolDescription t;
     ServerID := serverID; ServerName := models.Name cfg |}.

End with_runtime.

End obs.

(** ** A sample runtime *)

Module fixture.

Import go ext.

Definition constants : models.Constants :=
  {| models.MCPTransportSSE := "sse";
     models.MCPTransportCommand := "command";
     models.AIProviderGemini := "gemini";
     models.AIProviderVertexAI := "vertexai";
     models.AIProviderOpenAI := "openai" |}.

(** A runtime in which model construction answers [model_err] and the
    HTTP endpoint answers [status] with [body]; every other library call
    succeeds, and maps are visited in the order of [map_to_list]. *)
Definition runtime_with (model_err : option error) (status : Z) (body : string) :
    Runtime :=
  {| mcptoolset_New_err := λ _ _, None;
     client_Connect := λ _ _ _ _, inl 0;
     session_ListTools := λ _ _ _, inl [];
     range_configs := λ _ m, map_to_list m;
     range_configs_perm := λ _ m, reflexivity (map_to_list m);
     json_Marshal := λ _, inl "{}";
     http_NewRequest_err := λ _ _, None;
     client_Do := λ _ _ _ _, inl {| StatusCode := status; Body := body |};
     credentials_DetectDefault := λ _ _, inl 0;
     httptransport_NewClient_err := λ _ _ _, None;
     gemini_NewModel_err := λ _ _ _ _, model_err;
     llm_GenerateContent := λ _ _ _ _, [("", None)] |}.

(** The endpoint answers [500 server error]. *)
Definition runtime : Runtime := runtime_with None 500 "server error".

(** The endpoint answers 200. *)
Definition runtime_ok : Runtime := runtime_with None 200 "{}".

(** Model construction fails. *)
Definition runtime_down : Runtime :=
  runtime_with (Some (errorString "no route to host")) 500 "".

Definition w0 : World := {| trace := []; ranges := 0 |}.

Definition cfg_fs : models.MCPServerConfig :=
  {| models.ID := "fs"; models.Name := "fs"; models.TransportType := "command";
     models.Endpoint := ""; models.Command := "fs-server"; models.Args := ["--stdio"];
     models.Enabled := true |}.

Definition cfg_web : models.MCPServerConfig :=
  {| models.ID := "web"; models.Name := "web"; models.TransportType := "";
     models.Endpoint := "http://localhost:9000/mcp"; models.Command := "";
     models.Args := []; models.Enabled := true |}.

Definition cfg_off : models.MCPServerConfig :=
  {| models.ID := "off"; models.Name := "off"; models.TransportType := "sse";
     models.Endpoint := "http://localhost:9001/sse"; models.Command := "";
     models.Args := []; models.Enabled := false |}.

(** The connection built first for [cfg_fs]. *)
Definition ts_fs : Toolset :=
  {| ts_ptr := 0; ts_transport := CommandTransport "fs-server" ["--stdio"] |}.

Definition ai_openai : models.AIConfig :=
  {| models.Provider := "openai"; models.UseResponses := false;
     models.APIKey := "k"; models.BaseURL := "http://host/v1/";
     models.ModelName := "m"; models.CredentialsJSON := "";
     models.Project := ""; models.Location := "" |}.

Definition ai_gemini : models.AIConfig :=
  {| models.Provider := "gemini"; models.UseResponses := false;
     models.APIKey := "k"; models.BaseURL := "";
     models.ModelName := "m"; models.CredentialsJSON := "";
     models.Project := ""; models.Location := "" |}.

Definition ai_other : models.AIConfig :=
  {| models.Provider := "anthropic"; models.UseResponses := false;
     models.APIKey := "k"; models.BaseURL := "";
     models.ModelName := "m"; models.CredentialsJSON := "";
     models.Project := ""; models.Location := "" |}.

End fixture.

(** ** More sample values *)

Module samples.

Import go ext.

(** A runtime in which the HTTP client cannot reach the endpoint; every
    other library call succeeds. *)
Definition runtime_offline : Runtime :=
  {| mcptoolset_New_err := λ _ _, None;
     client_Connect := λ _ _ _ _, inl 0;
     session_ListTools := λ _ _ _, inl [];
     range_configs := λ _ m, map_to_list m;
     range_configs_perm := λ _ m, reflexivity (map_to_list m);
     json_Marshal := λ _, inl "{}";
     http_NewRequest_err := λ _ _, None;
     client_Do := λ _ _ _ _, inr (errorString "dial tcp: connection refused");
     credentials_DetectDefault := λ _ _, inl 0;
     httptransport_NewClient_err := λ _ _ _, None;
     gemini_NewModel_err := λ _ _ _ _, None;
     llm_GenerateContent := λ _ _ _ _, [] |}.

(** The server of [fixture.cfg_fs] offers one tool. *)
Definition runtime_one_tool : Runtime :=
  {| mcptoolset_New_err := λ _ _, None;
     client_Connect := λ _ _ _ _, inl 7;
     session_ListTools := λ _ _ _,
       inl [{| ToolName := "read_file"; ToolDescription := "reads a file" |}];
     range_configs := λ _ m, map_to_list m;
     range_configs_perm := λ _ m, reflexivity (map_to_list m);
     json_Marshal := λ _, inl "{}";
     http_NewRequest_err := λ _ _, None;
     client_Do := λ _ _ _ _, inl {| StatusCode := 200; Body := "{}" |};
     credentials_DetectDefault := λ _ _, inl 0;
     httptransport_NewClient_err := λ _ _ _, None;
     gemini_NewModel_err := λ _ _ _ _, None;
     llm_GenerateContent := λ _ _ _ _, [("", None)] |}.

End samples.

(* ===================================================================== *)
(** * Part II: theorems                                                   *)
(* ===================================================================== *)

Example itoa_500 : fmt.itoa 500 = "500".
Proof. reflexivity. Qed.

Example itoa_0 : fmt.itoa 0 = "0".
Proof. reflexivity. Qed.

Example itoa_neg : fmt.itoa (-404) = "-404".
Proof. reflexivity. Qed.

Example normalize_ex1 : adk.normalizeOpenAIBaseURL "http://host/v1/" = "http://host/v1".
Proof. reflexivity. Qed.

Example normalize_ex2 : adk.normalizeOpenAIBaseURL "http://host///" = "http://host/v1".
Proof. reflexivity. Qed.

Example normalize_ex3 : adk.normalizeOpenAIBaseURL "/" = "/v1".
Proof. reflexivity. Qed.

Example contains_ex : GoStrings.Contains "HTTP 500: server error" "server" = true.
Proof. reflexivity. Qed.

(** ** Byte strings *)

Section string_facts.

Lemma append_cons (c : ascii) (s t : string) :
  String c s +:+ t = String c (s +:+ t).
Proof. reflexivity. Qed.

Lemma append_nil_l (s : string) : "" +:+ s = s.
Proof. reflexivity. Qed.

Lemma length_append (s t : string) :
  String.length (s +:+ t) = String.length s + String.length t.
Proof.
  induction s as [|c s IH]; [done|].
  rewrite append_cons; simpl; by rewrite IH.
Qed.

Lemma append_nil_r (s : string) : s +:+ "" = s.
Proof. induction s as [|c s IH]; [done | by rewrite append_cons, IH]. Qed.

Lemma append_assoc (s t u : string) : (s +:+ t) +:+ u = s +:+ t +:+ u.
Proof. induction s as [|c s IH]; [done | by rewrite !append_cons, IH]. Qed.

Lemma substring_all (s : string) : substring 0 (String.length s) s = s.
Proof. induction s as [|c s IH]; simpl; [done | by rewrite IH]. Qed.

Lemma substring_skip (p s : string) (n : nat) :
  substring (String.length p) n (p +:+ s) = substring 0 n s.
Proof. induction p as [|c p IH]; [done | rewrite append_cons; apply IH]. Qed.

(** A string is its first [n] bytes followed by the rest. *)
Lemma substring_split (s : string) (n : nat) :
  (n ≤ String.length s)%nat →
  s = substring 0 n s +:+ substring n (String.length s - n) s.
Proof.
  revert n; induction s as [|c s IH]; intros [|n] Hn; simpl in *;
    try done; try lia.
  - by rewrite substring_all.
  - rewrite append_cons. f_equal. apply IH. lia.
Qed.

Lemma substring_prefix_length (s : string) (n : nat) :
  String.length (substring 0 n s) = n `min` String.length s.
Proof.
  revert n; induction s as [|c s IH]; intros [|n]; simpl; try done.
  by rewrite IH.
Qed.

(** *** [HasSuffix] decides "ends with" *)

Lemma HasSuffix_append (p suffix : string) :
  GoStrings.HasSuffix (p +:+ suffix) suffix = true.
Proof.
  unfold GoStrings.HasSuffix. rewrite length_append.
  apply andb_true_iff; split.
  - apply Nat.leb_le. lia.
  - replace (String.length p + String.length suffix - String.length suffix)
      with (String.length p) by lia.
    rewrite substring_skip, substring_all. apply String.eqb_refl.
Qed.

Lemma HasSuffix_inv (s suffix : string) :
  GoStrings.HasSuffix s suffix = true → ∃ p, s = p +:+ suffix.
Proof.
  unfold GoStrings.HasSuffix. intros [Hlen Heq]%andb_true_iff.
  apply Nat.leb_le in Hlen. apply String.eqb_eq in Heq.
  exists (substring 0 (String.length s - String.length suffix) s).
  pose proof (substring_split s (String.length s - String.length suffix)) as Hs.
  replace (String.length s - (String.length s - String.length suffix))
    with (String.length suffix) in Hs by lia.
  rewrite Heq in Hs. apply Hs. lia.
Qed.

Lemma HasSuffix_iff (s suffix : string) :
  GoStrings.HasSuffix s suffix = true ↔ ∃ p, s = p +:+ suffix.
Proof.
  split; [apply HasSuffix_inv|]. intros [p ->]. apply HasSuffix_append.
Qed.

(** *** [TrimRight] removes exactly the trailing run of cutset bytes *)

Lemma TrimRight_slash_cons (c : ascii) (rest : string) :
  GoStrings.TrimRight (String c rest) "/" =
  match GoStrings.TrimRight rest "/" with
  | EmptyString => if Ascii.eqb c "/" then "" else String c ""
  | kept => String c kept
  end.
Proof. simpl. destruct (GoStrings.TrimRight rest "/"); [|done]. by destruct (Ascii.eqb c "/"). Qed.

Lemma TrimRight_slash_decompose (s : string) :
  ∃ n, s = GoStrings.TrimRight s "/" +:+ GoStrings.repeat_byte "/" n.
Proof.
  induction s as [|c s [n IH]]; [by exists 0|].
  rewrite TrimRight_slash_cons.
  destruct (GoStrings.TrimRight s "/") as [|d kept] eqn:Ht.
  - destruct (Ascii.eqb_spec c "/") as [->|Hc].
    + exists (S n). rewrite append_nil_l in *. simpl. congruence.
    + exists n. rewrite append_cons. by rewrite <- IH.
  - exists n. rewrite append_cons. by rewrite <- IH.
Qed.

Lemma append_snoc_nonempty (p : string) (c : ascii) : p +:+ String c "" ≠ "".
Proof. destruct p; intros H; discriminate H. Qed.

Lemma append_snoc_single (p : string) (c d : ascii) :
  p +:+ String c "" = String d "" → p = "" ∧ c = d.
Proof.
  destruct p as [|e p]; intros H.
  - by injection H as ->.
  - injection H as -> H. by apply append_snoc_nonempty in H.
Qed.

Lemma TrimRight_slash_no_trailing (s : string) :
  ¬ GoStrings.ends_with_byte (GoStrings.TrimRight s "/") "/".
Proof.
  induction s as [|c s IH]; intros [p Hp].
  - symmetry in Hp. by apply append_snoc_nonempty in Hp.
  - rewrite TrimRight_slash_cons in Hp.
    destruct (GoStrings.TrimRight s "/") as [|d kept] eqn:Ht.
    + destruct (Ascii.eqb_spec c "/") as [->|Hc].
      * symmetry in Hp. by apply append_snoc_nonempty in Hp.
      * symmetry in Hp. apply append_snoc_single in Hp as [_ Hp]. congruence.
    + destruct p as [|e p]; [discriminate Hp|].
      rewrite append_cons in Hp. injection Hp as -> Hp.
      apply IH. by exists p.
Qed.

(** A string ending in a byte other than the slash is left alone. *)
Lemma TrimRight_slash_fixed (p : string) (c : ascii) :
  c ≠ "/"%char →
  GoStrings.TrimRight (p +:+ String c "") "/" = p +:+ String c "".
Proof.
  intros Hc. induction p as [|d p IH].
  - rewrite append_nil_l, TrimRight_slash_cons. simpl.
    by destruct (Ascii.eqb_spec c "/").
  - rewrite append_cons, TrimRight_slash_cons, IH.
    destruct (p +:+ String c "") eqn:E; [|done].
    by apply append_snoc_nonempty in E.
Qed.

End string_facts.

(** ** C7: base-URL normalisation *)

Section normalize_facts.

Import adk.

Lemma normalize_nonempty (s : string) :
  s ≠ "" →
  normalizeOpenAIBaseURL s =
    let t := GoStrings.TrimRight s "/" in
    if GoStrings.HasSuffix t "/v1" then t else t +:+ "/v1".
Proof.
  intros Hs. unfold normalizeOpenAIBaseURL.
  destruct (String.eqb_spec s "") as [->|_]; [done|].
  simpl. by destruct (GoStrings.HasSuffix _ "/v1").
Qed.

(** A URL that already carries the version suffix is a fixed point. *)
Lemma normalize_versioned (p : string) :
  normalizeOpenAIBaseURL (p +:+ "/v1") = p +:+ "/v1".
Proof.
  assert (Hne : p +:+ "/v1" ≠ "").
  { change "/v1" with ("/v" +:+ "1"). rewrite <- append_assoc.
    apply append_snoc_nonempty. }
  rewrite normalize_nonempty by done. simpl.
  assert (Ht : GoStrings.TrimRight (p +:+ "/v1") "/" = p +:+ "/v1").
  { change "/v1" with ("/v" +:+ "1"). rewrite <- append_assoc.
    by apply TrimRight_slash_fixed. }
  by rewrite Ht, HasSuffix_append.
Qed.

Lemma normalize_is_versioned (s : string) :
  ∃ p, normalizeOpenAIBaseURL s = p +:+ "/v1".
Proof.
  destruct (String.eqb_spec s "") as [->|Hs].
  - by exists "https://api.openai.com".
  - rewrite normalize_nonempty by done. simpl.
    destruct (GoStrings.HasSuffix _ "/v1") eqn:Hsuf.
    + by apply HasSuffix_inv.
    + by eexists.
Qed.

End normalize_facts.

(** C7. [normalizeOpenAIBaseURL] sends the empty string to the default
    [https://api.openai.com/v1]; a non-empty URL loses its trailing slashes
    (all of them, and nothing else) and gets [/v1] appended unless it already
    ends with it; the result always ends with [/v1]; the function is
    idempotent; [http://host/v1/] becomes [http://host/v1], which does not end
    with a doubled suffix. *)
Theorem normalizeOpenAIBaseURL_idempotent :
  adk.normalizeOpenAIBaseURL "" = "https://api.openai.com/v1"
  ∧ adk.normalizeOpenAIBaseURL "http://host/v1/" = "http://host/v1"
  ∧ GoStrings.HasSuffix (adk.normalizeOpenAIBaseURL "http://host/v1/") "/v1/v1" = false
  ∧ (∀ s, s ≠ "" →
       let t := GoStrings.TrimRight s "/" in
       (∃ n, s = t +:+ GoStrings.repeat_byte "/" n)
       ∧ ¬ GoStrings.ends_with_byte t "/"
       ∧ adk.normalizeOpenAIBaseURL s =
           if GoStrings.HasSuffix t "/v1" then t else t +:+ "/v1")
  ∧ (∀ s, GoStrings.HasSuffix (adk.normalizeOpenAIBaseURL s) "/v1" = true)
  ∧ (∀ s, adk.normalizeOpenAIBaseURL (adk.normalizeOpenAIBaseURL s)
          = adk.normalizeOpenAIBaseURL s).
Proof.
  split; [reflexivity|]. split; [reflexivity|]. split; [reflexivity|].
  split; [|split].
  - intros s Hs t. split; [apply TrimRight_slash_decompose|].
    split; [apply TrimRight_slash_no_trailing|].
    by apply normalize_nonempty.
  - intros s. destruct (normalize_is_versioned s) as [p ->].
    apply HasSuffix_append.
  - intros s. destruct (normalize_is_versioned s) as [p ->].
    apply normalize_versioned.
Qed.

(** ** The state monad *)

Section monad_facts.

Import go.

Context {S A B : Type}.

Lemma for_range_nil (body : B → A → M S B) acc s :
  for_range [] acc body s = (acc, s).
Proof. reflexivity. Qed.

Lemma for_range_cons (body : B → A → M S B) a l acc s :
  for_range (a :: l) acc body s =
    for_range l (body acc a s).1 body (body acc a s).2.
Proof. simpl. unfold mbind, M_bind. by destruct (body acc a s). Qed.

(** A property of the state that every iteration keeps is kept by the loop. *)
Lemma for_range_inv (I : S → Prop) (body : B → A → M S B) (l : list A) :
  (∀ acc a s, a ∈ l → I s → I (body acc a s).2) →
  ∀ acc s, I s → I (for_range l acc body s).2.
Proof.
  induction l as [|a l IH]; intros Hbody acc s Hs; [done|].
  simpl. unfold mbind, M_bind.
  pose proof (Hbody acc a s (list_elem_of_here _ _) Hs) as Ha.
  destruct (body acc a s) as [acc' s']. apply IH; [|done].
  intros acc0 a0 s0 Hin. apply Hbody. by apply list_elem_of_further.
Qed.

End monad_facts.

Ltac munfold :=
  unfold mbind, go.M_bind, mret, go.M_ret, mcp.getM, mcp.set_ctx,
    mcp.set_configs, mcp.set_toolsets, mcp.store_toolset, go.modify,
    mcp.liftW, ext.call, mcp.range_map in *.

(** ** The manager *)

Section manager_facts.

Import go ext mcp.

Context {consts : models.Constants} {rt : Runtime}.

Implicit Types (σ : State) (m : Manager) (w : World) (cfg : models.MCPServerConfig).

Lemma createToolsetLocked_eq cfg σ :
  createToolsetLocked cfg σ =
    (build_answer (trace σ.2) cfg,
     (σ.1, {| trace := trace σ.2 ++ [EvToolsetNew (createTransport cfg)];
              ranges := ranges σ.2 |})).
Proof.
  unfold createToolsetLocked, mcptoolset_New, build_answer. munfold. simpl.
  by destruct (mcptoolset_New_err _ _).
Qed.

(** The entries a map iteration visits are the entries of the map. *)
Lemma range_configs_lookup n (cs : gmap string models.MCPServerConfig) id cfg :
  (id, cfg) ∈ range_configs n cs ↔ cs !! id = Some cfg.
Proof. by rewrite range_configs_perm, elem_of_map_to_list. Qed.

Lemma range_configs_NoDup n (cs : gmap string models.MCPServerConfig) :
  NoDup (range_configs n cs).*1.
Proof. rewrite range_configs_perm. apply NoDup_fst_map_to_list. Qed.

Lemma built_from_config_coherent m : built_from_config m → cache_coherent m.
Proof.
  intros Hb id [ts Hts]%elem_of_dom. apply elem_of_dom.
  destruct (Hb id ts Hts) as (cfg & Hcfg & _). by exists cfg.
Qed.

Lemma grows_refl σ : grows σ σ.
Proof. unfold grows. by split_and!. Qed.

Lemma grows_trans σ1 σ2 σ3 : grows σ1 σ2 → grows σ2 σ3 → grows σ1 σ3.
Proof.
  intros (Hc1 & Hk1 & Ht1 & Hs1 & Hg1 & Hh1) (Hc2 & Hk2 & Ht2 & Hs2 & Hg2 & Hh2).
  unfold grows. split_and!; try congruence; [by etrans|auto..].
Qed.

(** A call that only adds events to the trace. *)
Lemma grows_world m w w' :
  trace w `prefix_of` trace w' → grows (m, w) (m, w').
Proof.
  intros Hp. unfold grows. split_and!; simpl; try done.
  intros [Hb Hf]. split; [done|].
  intros id ts Hts. specialize (Hf id ts Hts). simpl in *.
  apply prefix_length in Hp. lia.
Qed.

(** Building a connection for a loaded config and caching it under a free
    id. *)
Lemma grows_build_store σ id cfg ts :
  configs σ.1 !! id = Some cfg →
  toolsets σ.1 !! id = None →
  build_answer (trace σ.2) cfg = inl ts →
  grows σ ({| ctx := ctx σ.1; configs := configs σ.1;
              toolsets := <[id := ts]> (toolsets σ.1) |},
           {| trace := trace σ.2 ++ [EvToolsetNew (createTransport cfg)];
              ranges := ranges σ.2 |}).
Proof.
  intros Hcfg Hfree Hts. unfold build_answer in Hts.
  destruct (mcptoolset_New_err _ _); simplify_eq.
  unfold grows. split_and!; simpl; try done.
  - by apply prefix_app_r.
  - intros id' ts' Hts'. rewrite lookup_insert_ne; [done|]. congruence.
  - intros [Hb Hf]. split.
    + intros id' ts' Hts'. simpl in *.
      apply lookup_insert_Some in Hts' as [[<- <-]|[Hne Hts']].
      * by exists cfg.
      * by apply Hb.
    + intros id' ts' Hts'. simpl in *. rewrite length_app. simpl.
      apply lookup_insert_Some in Hts' as [[<- <-]|[Hne Hts']]; simpl; [lia|].
      specialize (Hf id' ts' Hts'). simpl in Hf. lia.
  - unfold cache_coherent. simpl. rewrite dom_insert_L.
    apply elem_of_dom_2 in Hcfg. intros Hsub x [->%elem_of_singleton|Hx]%elem_of_union.
    + done.
    + by apply Hsub.
Qed.

(** *** One id at a time *)

Lemma connection_for_grows id σ : grows σ (spec.connection_for id σ).2.
Proof.
  unfold spec.connection_for.
  destruct (toolsets σ.1 !! id) as [ts|] eqn:Hts; [apply grows_refl|].
  destruct (configs σ.1 !! id) as [cfg|] eqn:Hcfg; [|apply grows_refl].
  rewrite createToolsetLocked_eq.
  destruct (build_answer (trace σ.2) cfg) as [ts|err] eqn:Hb; simpl.
  - by apply grows_build_store.
  - destruct σ as [m w]. apply grows_world. by apply prefix_app_r.
Qed.

(** What [connection_for] answers is cached afterwards, and is the entry
    cached before if there was one. *)
Lemma connection_for_cached id σ ts :
  (spec.connection_for id σ).1 = Some ts →
  toolsets (spec.connection_for id σ).2.1 !! id = Some ts.
Proof.
  unfold spec.connection_for.
  destruct (toolsets σ.1 !! id) as [ts0|] eqn:Hts; [by intros [= <-]|].
  destruct (configs σ.1 !! id) as [cfg|] eqn:Hcfg; [|done].
  rewrite createToolsetLocked_eq.
  destruct (build_answer (trace σ.2) cfg) as [ts1|err] eqn:Hb; simpl; [|done].
  intros [= <-]. apply lookup_insert_eq.
Qed.

Lemma connection_for_hit id σ ts :
  toolsets σ.1 !! id = Some ts → spec.connection_for id σ = (Some ts, σ).
Proof. intros Hts. unfold spec.connection_for. by rewrite Hts. Qed.

Lemma connection_for_unknown id σ :
  toolsets σ.1 !! id = None → configs σ.1 !! id = None →
  spec.connection_for id σ = (None, σ).
Proof. intros Hts Hcfg. unfold spec.connection_for. by rewrite Hts, Hcfg. Qed.

Lemma connection_for_build id σ cfg :
  toolsets σ.1 !! id = None → configs σ.1 !! id = Some cfg →
  spec.connection_for id σ =
    match build_answer (trace σ.2) cfg with
    | inr _ =>
        (None, (σ.1, {| trace := trace σ.2 ++ [EvToolsetNew (createTransport cfg)];
                        ranges := ranges σ.2 |}))
    | inl ts =>
        (Some ts, ({| ctx := ctx σ.1; configs := configs σ.1;
                      toolsets := <[id := ts]> (toolsets σ.1) |},
                   {| trace := trace σ.2 ++ [EvToolsetNew (createTransport cfg)];
                      ranges := ranges σ.2 |}))
    end.
Proof.
  intros Hts Hcfg. unfold spec.connection_for.
  rewrite Hts, Hcfg, createToolsetLocked_eq.
  by destruct (build_answer (trace σ.2) cfg).
Qed.

(** *** Many ids *)

Lemma answers_grows ids σ : grows σ (spec.answers ids σ).2.
Proof.
  revert σ. induction ids as [|id ids IH]; intros σ; [apply grows_refl|].
  simpl. munfold.
  pose proof (connection_for_grows id σ) as Hg.
  destruct (spec.connection_for id σ) as [a σ1]. simpl in *.
  specialize (IH σ1). destruct (spec.answers ids σ1) as [l σ2]. simpl in *.
  by eapply grows_trans.
Qed.

Lemma answers_ids ids σ : (spec.answers ids σ).1.*1 = ids.
Proof.
  revert σ. induction ids as [|id ids IH]; intros σ; [done|].
  simpl. munfold.
  destruct (spec.connection_for id σ) as [a σ1].
  specialize (IH σ1). destruct (spec.answers ids σ1) as [l σ2].
  simpl in *. f_equal. exact IH.
Qed.

(** Every connection among the answers is the one cached under its id when
    the call returns. *)
Lemma answers_cached ids σ id ts :
  (id, Some ts) ∈ (spec.answers ids σ).1 →
  toolsets (spec.answers ids σ).2.1 !! id = Some ts.
Proof.
  revert σ. induction ids as [|id0 ids IH]; intros σ; simpl.
  { by intros ?%elem_of_nil. }
  munfold.
  pose proof (connection_for_cached id0 σ) as Hc.
  destruct (spec.connection_for id0 σ) as [a σ1]. simpl in *.
  specialize (IH σ1). pose proof (answers_grows ids σ1) as Hg.
  destruct (spec.answers ids σ1) as [l σ2]. simpl in *.
  intros [Heq|Hin]%elem_of_cons; [|by apply IH].
  injection Heq as -> <-.
  destruct Hg as (_ & _ & _ & Hkeep & _ & _). by apply Hkeep, Hc.
Qed.

Lemma GetToolsetsByIDs_body_eq result id σ :
  GetToolsetsByIDs_body result id σ =
    (result ++ option_list (spec.connection_for id σ).1,
     (spec.connection_for id σ).2).
Proof.
  unfold GetToolsetsByIDs_body, spec.connection_for. munfold. simpl.
  destruct (toolsets σ.1 !! id) as [ts|]; [done|].
  destruct (configs σ.1 !! id) as [cfg|]; simpl; [|by rewrite app_nil_r].
  rewrite createToolsetLocked_eq.
  destruct (build_answer _ _); simpl; [done|by rewrite app_nil_r].
Qed.

Lemma GetToolsetsByIDs_loop ids result σ :
  for_range ids result GetToolsetsByIDs_body σ =
    (result ++ spec.kept_connections (spec.answers ids σ).1,
     (spec.answers ids σ).2).
Proof.
  revert result σ. induction ids as [|id ids IH]; intros result σ; simpl.
  { munfold. simpl. by rewrite app_nil_r. }
  munfold. rewrite GetToolsetsByIDs_body_eq.
  destruct (spec.connection_for id σ) as [a σ1]. simpl. rewrite IH.
  destruct (spec.answers ids σ1) as [l σ2]. simpl.
  unfold spec.kept_connections. simpl.
  destruct a; simpl; by rewrite <- ?app_assoc, ?app_nil_r.
Qed.

(** *** Loops over the entries of the config map *)

Lemma Initialize_body_eq id cfg σ :
  configs σ.1 !! id = Some cfg →
  Initialize_body tt (id, cfg) σ = (tt, (spec.connection_for id σ).2).
Proof.
  intros Hcfg. unfold Initialize_body, spec.connection_for. munfold. simpl.
  destruct (toolsets σ.1 !! id) as [ts|]; [done|].
  rewrite Hcfg, createToolsetLocked_eq.
  by destruct (build_answer _ _).
Qed.

Lemma GetAllToolsets_body_eq result id cfg σ :
  configs σ.1 !! id = Some cfg →
  GetAllToolsets_body result (id, cfg) σ =
    (result ++ option_list (spec.connection_for id σ).1,
     (spec.connection_for id σ).2).
Proof.
  intros Hcfg. unfold GetAllToolsets_body, spec.connection_for. munfold. simpl.
  destruct (toolsets σ.1 !! id) as [ts|]; [done|].
  rewrite Hcfg, createToolsetLocked_eq.
  destruct (build_answer _ _); simpl; [done|by rewrite app_nil_r].
Qed.

Lemma Initialize_loop (entries : list (string * models.MCPServerConfig)) σ :
  (∀ id cfg, (id, cfg) ∈ entries → configs σ.1 !! id = Some cfg) →
  for_range entries tt Initialize_body σ = (tt, (spec.answers entries.*1 σ).2).
Proof.
  revert σ. induction entries as [|[id cfg] entries IH]; intros σ Hin; [done|].
  rewrite for_range_cons, Initialize_body_eq by (apply Hin; left).
  rewrite fmap_cons. simpl. munfold.
  pose proof (connection_for_grows id σ) as (_ & Hk & _).
  destruct (spec.connection_for id σ) as [a σ1]. simpl in *.
  rewrite IH.
  - by destruct (spec.answers entries.*1 σ1).
  - intros id' cfg' Hin'. rewrite Hk. apply Hin. by right.
Qed.

Lemma GetAllToolsets_loop (entries : list (string * models.MCPServerConfig)) result σ :
  (∀ id cfg, (id, cfg) ∈ entries → configs σ.1 !! id = Some cfg) →
  for_range entries result GetAllToolsets_body σ =
    (result ++ spec.kept_connections (spec.answers entries.*1 σ).1,
     (spec.answers entries.*1 σ).2).
Proof.
  revert result σ.
  induction entries as [|[id cfg] entries IH]; intros result σ Hin.
  { simpl. munfold. simpl. by rewrite app_nil_r. }
  rewrite for_range_cons, GetAllToolsets_body_eq by (apply Hin; left).
  rewrite fmap_cons. simpl. munfold.
  pose proof (connection_for_grows id σ) as (_ & Hk & _).
  destruct (spec.connection_for id σ) as [a σ1]. simpl in *.
  rewrite IH.
  - destruct (spec.answers entries.*1 σ1) as [l σ2]. simpl.
    unfold spec.kept_connections. simpl.
    destruct a; simpl; by rewrite <- ?app_assoc, ?app_nil_r.
  - intros id' cfg' Hin'. rewrite Hk. apply Hin. by right.
Qed.

Lemma connection_for_other id id' σ :
  id' ≠ id →
  toolsets (spec.connection_for id σ).2.1 !! id' = toolsets σ.1 !! id'.
Proof.
  intros Hne. unfold spec.connection_for.
  destruct (toolsets σ.1 !! id) as [ts|]; [done|].
  destruct (configs σ.1 !! id) as [cfg|]; [|done].
  rewrite createToolsetLocked_eq.
  destruct (build_answer _ _); simpl; [|done].
  by rewrite lookup_insert_ne.
Qed.

Lemma LoadConfigs_body_eq id cfg σ :
  configs σ.1 !! id = Some cfg → toolsets σ.1 !! id = None →
  LoadConfigs_body tt (id, cfg) σ = (tt, (spec.connection_for id σ).2).
Proof.
  intros Hcfg Hts. unfold LoadConfigs_body, spec.connection_for. munfold. simpl.
  rewrite Hts, Hcfg, createToolsetLocked_eq.
  by destruct (build_answer _ _).
Qed.

Lemma LoadConfigs_loop (entries : list (string * models.MCPServerConfig)) σ :
  NoDup entries.*1 →
  (∀ id cfg, (id, cfg) ∈ entries →
     configs σ.1 !! id = Some cfg ∧ toolsets σ.1 !! id = None) →
  for_range entries tt LoadConfigs_body σ = (tt, (spec.answers entries.*1 σ).2).
Proof.
  revert σ. induction entries as [|[id cfg] entries IH]; intros σ Hnd Hin; [done|].
  rewrite fmap_cons in Hnd. apply NoDup_cons in Hnd as [Hid Hnd].
  destruct (Hin id cfg) as [Hcfg Hts]; [left|].
  rewrite for_range_cons, LoadConfigs_body_eq by done.
  rewrite fmap_cons. simpl. munfold.
  pose proof (connection_for_grows id σ) as (_ & Hk & _).
  pose proof (λ id', connection_for_other id id' σ) as Ho.
  destruct (spec.connection_for id σ) as [a σ1]. simpl in *.
  rewrite IH; [by destruct (spec.answers entries.*1 σ1)|done|].
  intros id' cfg' Hin'. rewrite Hk.
  destruct (Hin id' cfg') as [Hcfg' Hts']; [by right|]. split; [done|].
  rewrite Ho; [done|]. intros ->. apply Hid.
  apply list_elem_of_fmap. by exists (id, cfg').
Qed.

(** *** The methods as equations *)

Lemma Initialize_eq c σ :
  Initialize c σ =
    (None,
     (spec.answers (range_configs (ranges σ.2) (configs σ.1)).*1
        ({| ctx := c; configs := configs σ.1; toolsets := toolsets σ.1 |},
         {| trace := trace σ.2; ranges := S (ranges σ.2) |})).2).
Proof.
  unfold Initialize. munfold. simpl.
  rewrite Initialize_loop; [done|].
  intros id cfg Hin. simpl. by apply range_configs_lookup in Hin.
Qed.

Lemma GetAllToolsets_eq σ :
  GetAllToolsets σ =
    let r := spec.answers (range_configs (ranges σ.2) (configs σ.1)).*1
               (σ.1, {| trace := trace σ.2; ranges := S (ranges σ.2) |}) in
    (spec.kept_connections r.1, r.2).
Proof.
  unfold GetAllToolsets. munfold. simpl.
  rewrite GetAllToolsets_loop; [done|].
  intros id cfg Hin. simpl. by apply range_configs_lookup in Hin.
Qed.

Lemma GetToolsetsByIDs_eq ids σ :
  GetToolsetsByIDs ids σ =
    (spec.kept_connections (spec.answers ids σ).1, (spec.answers ids σ).2).
Proof. unfold GetToolsetsByIDs. by rewrite GetToolsetsByIDs_loop. Qed.

Lemma GetAllStatus_loop (entries : list (string * models.MCPServerConfig)) acc σ :
  for_range entries acc GetAllStatus_body σ =
    (acc ++ ((λ e, {| ID := e.1; Connected := false; Error := "" |}) <$> entries), σ).
Proof.
  revert acc. induction entries as [|e l IH]; intros acc.
  - simpl. munfold. by rewrite app_nil_r.
  - rewrite for_range_cons, fmap_cons.
    unfold GetAllStatus_body at 2 3. munfold. simpl.
    rewrite IH. by rewrite <- app_assoc.
Qed.

Lemma GetAllStatus_eq σ :
  GetAllStatus σ =
    ((λ e, {| ID := e.1; Connected := false; Error := "" |})
       <$> range_configs (ranges σ.2) (configs σ.1),
     (σ.1, {| trace := trace σ.2; ranges := S (ranges σ.2) |})).
Proof. unfold GetAllStatus. munfold. simpl. by rewrite GetAllStatus_loop. Qed.

Lemma LoadConfigs_unbound cfgs σ :
  ctx σ.1 = None →
  LoadConfigs cfgs σ =
    (None, ({| ctx := None; configs := load_enabled cfgs; toolsets := ∅ |}, σ.2)).
Proof. intros Hc. unfold LoadConfigs. munfold. simpl. by rewrite Hc. Qed.

Lemma LoadConfigs_bound cfgs σ c :
  ctx σ.1 = Some c →
  LoadConfigs cfgs σ =
    (None,
     (spec.answers (range_configs (ranges σ.2) (load_enabled cfgs)).*1
        ({| ctx := Some c; configs := load_enabled cfgs; toolsets := ∅ |},
         {| trace := trace σ.2; ranges := S (ranges σ.2) |})).2).
Proof.
  intros Hc. unfold LoadConfigs. munfold. simpl. rewrite Hc.
  rewrite LoadConfigs_loop; [done|apply range_configs_NoDup|].
  intros id cfg Hin. simpl. by apply range_configs_lookup in Hin.
Qed.

(** *** The probes leave the manager alone *)

Lemma TestConnection_known serverID cfg σ :
  configs σ.1 !! serverID = Some cfg →
  (TestConnection serverID σ).2 =
    (σ.1, {| trace := trace σ.2 ++
               [EvConnect (WithTimeout Background 5)
                  {| ImplName := models.Name cfg; ImplVersion := "1.0.0" |}
                  (createTransport cfg)];
             ranges := ranges σ.2 |}).
Proof.
  intros Hcfg. unfold TestConnection, Connect. munfold. simpl. rewrite Hcfg.
  simpl. by destruct (client_Connect _ _ _ _).
Qed.

Lemma TestConnection_grows serverID σ : grows σ (TestConnection serverID σ).2.
Proof.
  destruct (configs σ.1 !! serverID) as [cfg|] eqn:Hcfg.
  - rewrite (TestConnection_known _ cfg) by done. destruct σ as [m w].
    apply grows_world. by apply prefix_app_r.
  - unfold TestConnection. munfold. simpl. rewrite Hcfg. apply grows_refl.
Qed.

Lemma GetServerTools_grows serverID σ : grows σ (GetServerTools serverID σ).2.
Proof.
  unfold GetServerTools, Connect. munfold. simpl.
  destruct (configs σ.1 !! serverID) as [cfg|]; [|apply grows_refl].
  simpl. destruct σ as [m w]. simpl.
  destruct (client_Connect _ _ _ _) as [session|err]; simpl.
  - destruct (session_ListTools _ _ _); simpl; apply grows_world; simpl;
      rewrite <- !app_assoc; by apply prefix_app_r.
  - apply grows_world. by apply prefix_app_r.
Qed.

Lemma GetToolInfosByServerIDs_grows serverIDs σ :
  grows σ (GetToolInfosByServerIDs serverIDs σ).2.
Proof.
  unfold GetToolInfosByServerIDs.
  apply (for_range_inv (grows σ)); [|apply grows_refl].
  intros acc id s _ Hs. munfold.
  pose proof (GetServerTools_grows id s) as Hg.
  destruct (GetServerTools id s) as [[tools|err] s']; simpl in *;
    by eapply grows_trans.
Qed.

(** *** Every method keeps the cache facts *)

Lemma good_reframe m w c n :
  good (m, w) →
  good ({| ctx := c; configs := configs m; toolsets := toolsets m |},
        {| trace := trace w; ranges := n |}).
Proof. by intros [Hb Hf]. Qed.

Lemma coherent_of_good σ : good σ → cache_coherent σ.1.
Proof. intros [Hb _]. by apply built_from_config_coherent. Qed.

Lemma good_empty_cache c cs w :
  good ({| ctx := c; configs := cs; toolsets := ∅ |}, w).
Proof. split; intros id ts Hts; simpl in *; by rewrite lookup_empty in Hts. Qed.

Lemma LoadConfigs_good cfgs σ : good (LoadConfigs cfgs σ).2.
Proof.
  destruct (ctx σ.1) as [c|] eqn:Hc.
  - rewrite (LoadConfigs_bound _ _ c) by done. simpl.
    eapply answers_grows, good_empty_cache.
  - rewrite LoadConfigs_unbound by done. apply good_empty_cache.
Qed.

Lemma Initialize_good c σ : good σ → good (Initialize c σ).2.
Proof.
  intros Hg. rewrite Initialize_eq. simpl.
  eapply answers_grows. destruct σ. by apply good_reframe.
Qed.

Lemma Initialize_coherent c σ :
  cache_coherent σ.1 → cache_coherent (Initialize c σ).2.1.
Proof. intros Hg. rewrite Initialize_eq. simpl. by eapply answers_grows. Qed.

(** The methods that neither rebind the scope nor reconfigure. *)
Lemma exec_grows o σ :
  (∀ c, o ≠ OpInitialize c) → (∀ cfgs, o ≠ OpLoadConfigs cfgs) →
  grows σ (exec o σ).
Proof.
  intros Hi Hl.
  destruct o as [c|cfgs| | | | | | |]; unfold exec;
    [by destruct (Hi c)|by destruct (Hl cfgs)|..].
  - unfold CreateToolset. rewrite createToolsetLocked_eq. simpl.
    destruct σ. apply grows_world. by apply prefix_app_r.
  - rewrite GetToolsetsByIDs_eq. apply answers_grows.
  - rewrite GetAllToolsets_eq. simpl.
    eapply grows_trans; [|apply answers_grows].
    destruct σ. by apply grows_world.
  - rewrite GetAllStatus_eq. simpl. destruct σ. by apply grows_world.
  - apply TestConnection_grows.
  - apply GetServerTools_grows.
  - apply GetToolInfosByServerIDs_grows.
Qed.

Lemma exec_good o σ : good σ → good (exec o σ).
Proof.
  intros Hg. destruct o as [c|cfgs| | | | | | |];
    try (by eapply exec_grows).
  - by apply Initialize_good.
  - apply LoadConfigs_good.
Qed.

Lemma exec_coherent o σ : cache_coherent σ.1 → cache_coherent (exec o σ).1.
Proof.
  intros Hg. destruct o as [c|cfgs| | | | | | |];
    try (by eapply exec_grows).
  - by apply Initialize_coherent.
  - apply coherent_of_good, LoadConfigs_good.
Qed.

Lemma run_snoc ops o w : run (ops ++ [o]) w = exec o (run ops w).
Proof. unfold run. by rewrite foldl_app. Qed.

Lemma run_good ops w : good (run ops w).
Proof.
  induction ops as [|o ops IH] using rev_ind.
  - apply good_empty_cache.
  - rewrite run_snoc. by apply exec_good.
Qed.

(** *** Reconfiguration *)

(** The enabled set after loading: under each id, the last enabled element
    of the slice that carries it. *)
Lemma load_enabled_lookup (cfgs : list models.MCPServerConfig) id :
  load_enabled cfgs !! id =
    last (filter (λ c, models.Enabled c = true ∧ models.ID c = id) cfgs).
Proof.
  unfold load_enabled.
  enough (Hgen : ∀ acc : gmap string models.MCPServerConfig,
    foldl (λ acc cfg, if models.Enabled cfg then <[models.ID cfg := cfg]> acc else acc)
          acc cfgs !! id =
    match last (filter (λ c, models.Enabled c = true ∧ models.ID c = id) cfgs) with
    | Some c => Some c
    | None => acc !! id
    end).
  { rewrite Hgen, lookup_empty. by destruct (last _). }
  induction cfgs as [|c cfgs IH]; intros acc; [done|].
  simpl. rewrite IH, filter_cons.
  destruct (decide (models.Enabled c = true ∧ models.ID c = id)) as [[He Hid]|Hn].
  - rewrite last_cons. destruct (last (filter _ cfgs)); [done|].
    by rewrite He, <- Hid, lookup_insert_eq.
  - destruct (last (filter _ cfgs)); [done|].
    destruct (models.Enabled c) eqn:He; [|done].
    rewrite lookup_insert_ne; [done|]. intros Hid. by apply Hn.
Qed.

Lemma load_enabled_dom (cfgs : list models.MCPServerConfig) :
  dom (load_enabled cfgs) =
    list_to_set (models.ID <$> filter (λ c, models.Enabled c = true) cfgs).
Proof.
  apply set_eq. intros id.
  rewrite elem_of_dom, load_enabled_lookup, last_is_Some, elem_of_list_to_set,
    list_elem_of_fmap.
  split.
  - intros Hne. destruct (filter _ cfgs) as [|c l] eqn:Hf; [done|].
    assert (Hc : c ∈ filter (λ c, models.Enabled c = true ∧ models.ID c = id) cfgs)
      by (rewrite Hf; left).
    apply list_elem_of_filter in Hc as [[He Hid] Hin].
    exists c. split; [done|]. by apply list_elem_of_filter.
  - intros (c & -> & [He Hin]%list_elem_of_filter) Hnil.
    assert (Hc : c ∈ filter (λ c', models.Enabled c' = true
                                   ∧ models.ID c' = models.ID c) cfgs)
      by by apply list_elem_of_filter.
    rewrite Hnil in Hc. by apply elem_of_nil in Hc.
Qed.

Lemma load_enabled_nil : load_enabled [] = ∅.
Proof. reflexivity. Qed.

(** Nothing is visited in an empty map. *)
Lemma range_configs_empty n : range_configs n ∅ = [].
Proof.
  apply Permutation_nil_r. by rewrite range_configs_perm, map_to_list_empty.
Qed.

(** A connection cached after [connection_for] was cached before, or its
    id was free and it has just been built from the config of that id. *)
Lemma connection_for_new id σ id' ts :
  toolsets (spec.connection_for id σ).2.1 !! id' = Some ts →
  toolsets σ.1 !! id' = Some ts
  ∨ (toolsets σ.1 !! id' = None
     ∧ length (trace σ.2) ≤ ts_ptr ts
     ∧ ∃ cfg, configs σ.1 !! id' = Some cfg ∧ ts_transport ts = createTransport cfg).
Proof.
  unfold spec.connection_for.
  destruct (toolsets σ.1 !! id) as [ts0|] eqn:Hts; [by left|].
  destruct (configs σ.1 !! id) as [cfg|] eqn:Hcfg; [|by left].
  rewrite createToolsetLocked_eq. unfold build_answer.
  destruct (mcptoolset_New_err _ _); simpl; [by left|].
  intros [[<- <-]|[Hne Hts']]%lookup_insert_Some; [right|by left].
  split_and!; [done..|]. by exists cfg.
Qed.

Lemma answers_new ids σ id ts :
  toolsets (spec.answers ids σ).2.1 !! id = Some ts →
  toolsets σ.1 !! id = Some ts
  ∨ (toolsets σ.1 !! id = None
     ∧ length (trace σ.2) ≤ ts_ptr ts
     ∧ ∃ cfg, configs σ.1 !! id = Some cfg ∧ ts_transport ts = createTransport cfg).
Proof.
  revert σ. induction ids as [|id0 ids IH]; intros σ; [by left|].
  simpl. munfold.
  pose proof (connection_for_new id0 σ id ts) as Hn.
  pose proof (connection_for_grows id0 σ) as (_ & Hk & Hp & Hkeep & _).
  destruct (spec.connection_for id0 σ) as [a σ1]. simpl in *.
  specialize (IH σ1). destruct (spec.answers ids σ1) as [l σ2]. simpl in *.
  intros Hts. apply prefix_length in Hp.
  destruct (IH Hts) as [Hold|(Hfree & Hptr & cfg & Hcfg & Htr)]; [by apply Hn|].
  right. split_and!.
  - destruct (toolsets σ.1 !! id) as [ts'|] eqn:E; [|done].
    apply Hkeep in E. congruence.
  - lia.
  - exists cfg. by rewrite <- Hk.
Qed.

(** An id that got no answer was not cached, and either has no config or
    its build failed. *)
Lemma connection_for_none id σ :
  (spec.connection_for id σ).1 = None →
  toolsets σ.1 !! id = None
  ∧ (configs σ.1 !! id = None
     ∨ ∃ cfg err, configs σ.1 !! id = Some cfg
         ∧ mcptoolset_New_err (trace σ.2) (createTransport cfg) = Some err).
Proof.
  unfold spec.connection_for.
  destruct (toolsets σ.1 !! id) as [ts0|] eqn:Hts; [done|].
  destruct (configs σ.1 !! id) as [cfg|] eqn:Hcfg; [|by intros; split; [|left]].
  rewrite createToolsetLocked_eq. unfold build_answer.
  destruct (mcptoolset_New_err _ _) as [err|] eqn:He; simpl; [|done].
  intros _. split; [done|]. right. by exists cfg, err.
Qed.

Lemma answers_none ids σ id :
  (id, None) ∈ (spec.answers ids σ).1 →
  toolsets σ.1 !! id = None
  ∧ (configs σ.1 !! id = None
     ∨ ∃ cfg h err, configs σ.1 !! id = Some cfg
         ∧ trace σ.2 `prefix_of` h
         ∧ mcptoolset_New_err h (createTransport cfg) = Some err).
Proof.
  revert σ. induction ids as [|id0 ids IH]; intros σ; simpl.
  { by intros ?%elem_of_nil. }
  munfold.
  pose proof (connection_for_none id0 σ) as Hn.
  pose proof (connection_for_grows id0 σ) as (_ & Hk & Hp & Hkeep & _).
  destruct (spec.connection_for id0 σ) as [a σ1]. simpl in *.
  specialize (IH σ1). destruct (spec.answers ids σ1) as [l σ2]. simpl in *.
  intros [Heq|Hin]%elem_of_cons.
  - injection Heq as -> <-. destruct (Hn eq_refl) as [Hfree Hwhy].
    split; [done|]. destruct Hwhy as [?|(cfg & err & ? & ?)]; [by left|].
    right. by exists cfg, (trace σ.2), err.
  - destruct (IH Hin) as [Hfree Hwhy]. split.
    + destruct (toolsets σ.1 !! id) as [ts'|] eqn:E; [|done].
      apply Hkeep in E. congruence.
    + rewrite <- Hk.
      destruct Hwhy as [?|(cfg & h & err & ? & ? & ?)]; [by left|].
      right. exists cfg, h, err. split_and!; [done| |done]. by etrans.
Qed.

(** *** Answers and what is kept of them *)

Lemma kept_ids_sublist (l : list (string * option Toolset)) :
  spec.kept_ids l `sublist_of` l.*1.
Proof.
  induction l as [|[id [ts|]] l IH]; simpl.
  - constructor.
  - by apply sublist_skip.
  - by apply sublist_cons.
Qed.

Lemma kept_ids_connections (l : list (string * option Toolset)) :
  Forall2 (λ id ts, (id, Some ts) ∈ l) (spec.kept_ids l) (spec.kept_connections l).
Proof.
  induction l as [|[id [ts|]] l IH]; simpl.
  - constructor.
  - constructor; [left|].
    eapply Forall2_impl; [exact IH|]. intros id' ts' Hin. by right.
  - eapply Forall2_impl; [exact IH|]. intros id' ts' Hin. by right.
Qed.

Lemma kept_ids_elem (l : list (string * option Toolset)) id :
  id ∈ spec.kept_ids l ↔ ∃ ts, (id, Some ts) ∈ l.
Proof.
  unfold spec.kept_ids. rewrite list_elem_of_omap. split.
  - intros ([id' [ts|]] & Hin & Heq); simplify_eq. by exists ts.
  - intros [ts Hin]. by exists (id, Some ts).
Qed.

Lemma kept_connections_length (l : list (string * option Toolset)) :
  length (spec.kept_connections l) ≤ length l.
Proof.
  induction l as [|[id [ts|]] l IH]; simpl in *; lia.
Qed.

Lemma coherent_uncached m id :
  cache_coherent m → configs m !! id = None → toolsets m !! id = None.
Proof.
  intros Hsub Hcfg. apply not_elem_of_dom. intros Hin.
  apply Hsub in Hin. by apply not_elem_of_dom in Hcfg.
Qed.

(** Where a kept connection comes from. *)
Lemma answers_origin ids σ id ts :
  (id, Some ts) ∈ (spec.answers ids σ).1 →
  toolsets (spec.answers ids σ).2.1 !! id = Some ts
  ∧ (toolsets σ.1 !! id = Some ts
     ∨ (toolsets σ.1 !! id = None
        ∧ length (trace σ.2) ≤ ts_ptr ts
        ∧ ∃ cfg, configs σ.1 !! id = Some cfg
                 ∧ ts_transport ts = createTransport cfg)).
Proof.
  intros Hin. apply answers_cached in Hin. split; [done|].
  by apply (answers_new ids).
Qed.

(** C3. [GetToolsetsByIDs] does what the specification says id by id (the
    cached connection, else one newly built from the id's config and cached,
    else nothing) and returns the connections in input order: the ids that
    were answered form a sublist of the input, the result is no longer than
    the input, each returned connection is the one cached under its id on
    return and either was cached before the call or was built during it from
    the id's enabled config; an id that is left out was not cached and has no
    enabled config or a failed build; in a coherent state an id without an
    enabled config is always left out.  The call is total (nothing is
    raised), keeps the enabled set and the scope, and on an unknown id alone
    returns the empty list and changes nothing. *)
Theorem GetToolsetsByIDs_follows_input_order (ids : list string) σ :
  let r := GetToolsetsByIDs ids σ in
  let a := (spec.answers ids σ).1 in
  r = (spec.kept_connections a, (spec.answers ids σ).2)
  ∧ a.*1 = ids
  ∧ length r.1 ≤ length ids
  ∧ spec.kept_ids a `sublist_of` ids
  ∧ Forall2 (λ id ts,
       toolsets r.2.1 !! id = Some ts
       ∧ (toolsets σ.1 !! id = Some ts
          ∨ (toolsets σ.1 !! id = None
             ∧ length (trace σ.2) ≤ ts_ptr ts
             ∧ ∃ cfg, configs σ.1 !! id = Some cfg
                      ∧ ts_transport ts = createTransport cfg)))
       (spec.kept_ids a) r.1
  ∧ (∀ id, id ∈ ids → id ∉ spec.kept_ids a →
       toolsets σ.1 !! id = None
       ∧ (configs σ.1 !! id = None
          ∨ ∃ cfg h err, configs σ.1 !! id = Some cfg
              ∧ trace σ.2 `prefix_of` h
              ∧ mcptoolset_New_err h (createTransport cfg) = Some err))
  ∧ (cache_coherent σ.1 →
     ∀ id, configs σ.1 !! id = None → id ∉ spec.kept_ids a)
  ∧ (∀ id ts, toolsets σ.1 !! id = Some ts → toolsets r.2.1 !! id = Some ts)
  ∧ configs r.2.1 = configs σ.1
  ∧ ctx r.2.1 = ctx σ.1
  ∧ (cache_coherent σ.1 →
     ∀ id, configs σ.1 !! id = None → GetToolsetsByIDs [id] σ = ([], σ))
  ∧ (∀ id ts, toolsets σ.1 !! id = Some ts → GetToolsetsByIDs [id] σ = ([ts], σ))
  ∧ (∀ id cfg, toolsets σ.1 !! id = None → configs σ.1 !! id = Some cfg →
       let w' := {| trace := trace σ.2 ++ [EvToolsetNew (createTransport cfg)];
                    ranges := ranges σ.2 |} in
       GetToolsetsByIDs [id] σ =
         match mcptoolset_New_err (trace σ.2) (createTransport cfg) with
         | Some _ => ([], (σ.1, w'))
         | None =>
             let ts := {| ts_ptr := length (trace σ.2);
                          ts_transport := createTransport cfg |} in
             ([ts], ({| ctx := ctx σ.1; configs := configs σ.1;
                        toolsets := <[id := ts]> (toolsets σ.1) |}, w'))
         end).
Proof.
  intros r a. subst r a. rewrite GetToolsetsByIDs_eq. simpl.
  pose proof (answers_grows ids σ) as (Hctx & Hk & _ & Hkeep & _).
  pose proof (answers_ids ids σ) as Hids.
  split_and!; try done.
  - rewrite <- Hids at 2. rewrite length_fmap. apply kept_connections_length.
  - rewrite <- Hids at 2. apply kept_ids_sublist.
  - eapply Forall2_impl; [apply kept_ids_connections|].
    intros id ts Hin. by apply answers_origin.
  - intros id Hin Hout. apply (answers_none ids).
    rewrite <- Hids in Hin. apply list_elem_of_fmap in Hin as ([id' [ts|]] & -> & Hin).
    + exfalso. apply Hout, kept_ids_elem. by exists ts.
    + done.
  - intros Hcoh id Hcfg [ts Hin]%kept_ids_elem.
    apply answers_origin in Hin as [_ [Hold|(_ & _ & cfg & Hcfg' & _)]].
    + by rewrite (coherent_uncached _ _ Hcoh Hcfg) in Hold.
    + congruence.
  - intros Hcoh id Hcfg. rewrite GetToolsetsByIDs_eq. simpl. munfold.
    rewrite connection_for_unknown; [done| |done].
    by apply coherent_uncached.
  - intros id ts Hts. rewrite GetToolsetsByIDs_eq. simpl. munfold.
    by rewrite (connection_for_hit _ _ ts).
  - intros id cfg Hts Hcfg. rewrite GetToolsetsByIDs_eq. simpl. munfold.
    rewrite (connection_for_build _ _ cfg) by done. unfold build_answer.
    by destruct (mcptoolset_New_err _ _).
Qed.

Lemma LoadConfigs_eq cfgs σ :
  LoadConfigs cfgs σ =
    (None,
     let loaded := {| ctx := ctx σ.1; configs := load_enabled cfgs; toolsets := ∅ |} in
     match ctx σ.1 with
     | None => (loaded, σ.2)
     | Some _ =>
         (spec.answers (range_configs (ranges σ.2) (load_enabled cfgs)).*1
            (loaded, {| trace := trace σ.2; ranges := S (ranges σ.2) |})).2
     end).
Proof.
  destruct (ctx σ.1) as [c|] eqn:Hc.
  - by rewrite (LoadConfigs_bound _ _ c).
  - by rewrite LoadConfigs_unbound.
Qed.

Lemma LoadConfigs_configs cfgs σ :
  configs (LoadConfigs cfgs σ).2.1 = load_enabled cfgs
  ∧ ctx (LoadConfigs cfgs σ).2.1 = ctx σ.1.
Proof.
  rewrite LoadConfigs_eq. simpl. destruct (ctx σ.1) as [c|] eqn:Hc; [|done].
  match goal with |- context [spec.answers ?ids ?s] =>
    pose proof (answers_grows ids s) as (Hctx & Hk & _) end.
  by rewrite Hctx, Hk.
Qed.

Lemma LoadConfigs_trace cfgs σ :
  trace σ.2 `prefix_of` trace (LoadConfigs cfgs σ).2.2.
Proof.
  rewrite LoadConfigs_eq. simpl. destruct (ctx σ.1) as [c|] eqn:Hc; [|done].
  match goal with |- context [spec.answers ?ids ?s] =>
    pose proof (answers_grows ids s) as (_ & _ & Hp & _) end.
  done.
Qed.

(** Every connection cached when [LoadConfigs] returns was allocated during
    the call. *)
Lemma LoadConfigs_all_new cfgs σ id ts :
  toolsets (LoadConfigs cfgs σ).2.1 !! id = Some ts →
  length (trace σ.2) ≤ ts_ptr ts.
Proof.
  rewrite LoadConfigs_eq. simpl. destruct (ctx σ.1) as [c|] eqn:Hc; [|done].
  intros [Hold|(_ & Hnew & _)]%answers_new; [|done].
  simpl in Hold. by rewrite lookup_empty in Hold.
Qed.

(** C2. [LoadConfigs] returns no error and keeps the scope; the new enabled
    set is made of the enabled elements of the input and of nothing else:
    under every id it holds the last enabled element carrying that id (the
    set is a map keyed by id), its keys are the ids of the enabled elements,
    every value is an enabled element filed under its id, and every enabled
    element has its id in the set; the outcome does not depend on the configs and the cache held
    before; every connection cached afterwards was allocated during the call
    from the new config of its id, so no connection cached before survives;
    without a bound scope the cache is left empty; after loading the empty
    list both maps are empty and [GetAllToolsets] returns the empty list. *)
Theorem LoadConfigs_replaces_everything (cfgs : list models.MCPServerConfig) σ :
  let r := LoadConfigs cfgs σ in
  r.1 = None
  ∧ ctx r.2.1 = ctx σ.1
  ∧ (∀ id, configs r.2.1 !! id =
           last (filter (λ c, models.Enabled c = true ∧ models.ID c = id) cfgs))
  ∧ dom (configs r.2.1) =
      list_to_set (models.ID <$> filter (λ c, models.Enabled c = true) cfgs)
  ∧ (∀ id c, configs r.2.1 !! id = Some c →
       c ∈ cfgs ∧ models.Enabled c = true ∧ models.ID c = id)
  ∧ (∀ c, c ∈ cfgs → models.Enabled c = true →
       is_Some (configs r.2.1 !! models.ID c))
  ∧ r = LoadConfigs cfgs ({| ctx := ctx σ.1; configs := ∅; toolsets := ∅ |}, σ.2)
  ∧ (∀ id ts, toolsets r.2.1 !! id = Some ts →
       length (trace σ.2) ≤ ts_ptr ts < length (trace r.2.2)
       ∧ ∃ cfg, configs r.2.1 !! id = Some cfg
                ∧ ts_transport ts = createTransport cfg)
  ∧ (heap_fresh σ →
     ∀ id ts id', toolsets σ.1 !! id = Some ts → toolsets r.2.1 !! id' ≠ Some ts)
  ∧ (ctx σ.1 = None → toolsets r.2.1 = ∅)
  ∧ (cfgs = [] →
     configs r.2.1 = ∅ ∧ toolsets r.2.1 = ∅ ∧ (GetAllToolsets r.2).1 = []).
Proof.
  intros r. subst r.
  destruct (LoadConfigs_configs cfgs σ) as [Hk Hc].
  pose proof (LoadConfigs_good cfgs σ) as [Hbuilt Hfresh].
  split_and!.
  - by rewrite LoadConfigs_eq.
  - done.
  - intros id. rewrite Hk. apply load_enabled_lookup.
  - rewrite Hk. apply load_enabled_dom.
  - intros id c. rewrite Hk, load_enabled_lookup.
    intros Hin%last_Some_elem_of. by apply list_elem_of_filter in Hin as [[? ?] ?].
  - intros c Hin He. apply elem_of_dom. rewrite Hk, load_enabled_dom.
    apply elem_of_list_to_set, list_elem_of_fmap. exists c. split; [done|].
    by apply list_elem_of_filter.
  - by rewrite !LoadConfigs_eq.
  - intros id ts Hts. split; [split|].
    + by eapply LoadConfigs_all_new.
    + by eapply Hfresh.
    + by apply Hbuilt.
  - intros Hold id ts id' Hts Hts'.
    apply LoadConfigs_all_new in Hts'. apply Hold in Hts. lia.
  - intros Hnone. rewrite LoadConfigs_eq. simpl. by rewrite Hnone.
  - intros ->.
    assert (Hempty : (LoadConfigs [] σ).2.1 =
                     {| ctx := ctx σ.1; configs := ∅; toolsets := ∅ |}).
    { rewrite LoadConfigs_eq. simpl. rewrite load_enabled_nil.
      destruct (ctx σ.1); [|done]. by rewrite range_configs_empty. }
    rewrite GetAllToolsets_eq, Hempty. simpl.
    by rewrite range_configs_empty.
Qed.

(** *** Status *)

Lemma GetAllStatus_ids σ :
  ID <$> (GetAllStatus σ).1 = (range_configs (ranges σ.2) (configs σ.1)).*1.
Proof.
  rewrite GetAllStatus_eq. simpl. rewrite <- list_fmap_compose.
  by apply list_fmap_ext.
Qed.

(** C4. [GetAllStatus] returns one record per enabled config: the ids of the
    records are, without repetition, the keys of the enabled set, which after
    [LoadConfigs] are the ids of the enabled elements of the input (an element
    that is not enabled contributes nothing).  Every record carries the id
    alone, with [Connected] false and an empty [Error]; the records do not
    depend on the cache or on the history of calls, and the call makes no
    call to the outside and leaves the manager as it was. *)
Theorem GetAllStatus_reports_enabled_ids σ :
  let r := GetAllStatus σ in
  ID <$> r.1 ≡ₚ (map_to_list (configs σ.1)).*1
  ∧ NoDup (ID <$> r.1)
  ∧ list_to_set (ID <$> r.1) = dom (configs σ.1)
  ∧ length r.1 = size (configs σ.1)
  ∧ Forall (λ st, st = {| ID := ID st; Connected := false; Error := "" |}) r.1
  ∧ (∀ cache history,
       (GetAllStatus ({| ctx := ctx σ.1; configs := configs σ.1; toolsets := cache |},
                      {| trace := history; ranges := ranges σ.2 |})).1 = r.1)
  ∧ r.2.1 = σ.1
  ∧ trace r.2.2 = trace σ.2
  ∧ (∀ cfgs : list models.MCPServerConfig,
       list_to_set (ID <$> (GetAllStatus (LoadConfigs cfgs σ).2).1) =@{gset string}
       list_to_set (models.ID <$> filter (λ c, models.Enabled c = true) cfgs)).
Proof.
  intros r. subst r.
  assert (Hperm : ID <$> (GetAllStatus σ).1 ≡ₚ (map_to_list (configs σ.1)).*1).
  { rewrite GetAllStatus_ids. by rewrite range_configs_perm. }
  assert (Hdom : ∀ σ', list_to_set (ID <$> (GetAllStatus σ').1) = dom (configs σ'.1)).
  { intros σ'. rewrite GetAllStatus_ids.
    apply set_eq. intros id. rewrite elem_of_list_to_set, elem_of_dom.
    rewrite list_elem_of_fmap. split.
    - intros ([id' cfg] & -> & Hin). apply range_configs_lookup in Hin. by exists cfg.
    - intros [cfg Hcfg]. exists (id, cfg). split; [done|].
      by apply range_configs_lookup. }
  split_and!.
  - done.
  - rewrite Hperm. apply NoDup_fst_map_to_list.
  - apply Hdom.
  - rewrite <- length_map_to_list, <- (length_fmap fst (map_to_list _)).
    rewrite <- Hperm. by rewrite length_fmap.
  - rewrite GetAllStatus_eq. simpl. apply Forall_fmap, Forall_forall.
    by intros [id cfg] _.
  - intros cache history. by rewrite !GetAllStatus_eq.
  - by rewrite GetAllStatus_eq.
  - by rewrite GetAllStatus_eq.
  - intros cfgs. rewrite Hdom.
    destruct (LoadConfigs_configs cfgs σ) as [-> _]. apply load_enabled_dom.
Qed.

(** *** The scope *)

Lemma connection_for_rebind id c σ :
  spec.connection_for id (rebind c σ) =
    ((spec.connection_for id σ).1, rebind c (spec.connection_for id σ).2).
Proof.
  unfold spec.connection_for, rebind. simpl.
  destruct (toolsets σ.1 !! id) as [ts|]; [done|].
  destruct (configs σ.1 !! id) as [cfg|]; [|done].
  rewrite !createToolsetLocked_eq. simpl.
  by destruct (build_answer _ _).
Qed.

Lemma answers_rebind ids c σ :
  spec.answers ids (rebind c σ) =
    ((spec.answers ids σ).1, rebind c (spec.answers ids σ).2).
Proof.
  revert σ. induction ids as [|id ids IH]; intros σ; [done|].
  simpl. munfold. rewrite connection_for_rebind.
  destruct (spec.connection_for id σ) as [a σ1]. simpl. rewrite IH.
  by destruct (spec.answers ids σ1).
Qed.

Lemma GetServerTools_rebind serverID c σ :
  GetServerTools serverID (rebind c σ) =
    ((GetServerTools serverID σ).1, rebind c (GetServerTools serverID σ).2).
Proof.
  unfold GetServerTools, Connect, rebind. munfold. simpl.
  destruct (configs σ.1 !! serverID) as [cfg|]; [|done].
  simpl. destruct (client_Connect _ _ _ _) as [session|err]; simpl; [|done].
  by destruct (session_ListTools _ _ _).
Qed.

Lemma GetToolInfosByServerIDs_rebind serverIDs c σ :
  GetToolInfosByServerIDs serverIDs (rebind c σ) =
    ((GetToolInfosByServerIDs serverIDs σ).1,
     rebind c (GetToolInfosByServerIDs serverIDs σ).2).
Proof.
  unfold GetToolInfosByServerIDs. generalize (@nil ToolInfo) as acc.
  revert σ. induction serverIDs as [|id ids IH]; intros σ acc; [done|].
  rewrite !for_range_cons. munfold. rewrite GetServerTools_rebind.
  destruct (GetServerTools id σ) as [[tools|err] σ1]; simpl; apply IH.
Qed.

Lemma Initialize_rebind c c' σ :
  (Initialize c' σ).2 = rebind c' (Initialize c σ).2.
Proof.
  rewrite !Initialize_eq. simpl.
  match goal with |- context [spec.answers ?ids (?m, ?w)] =>
    change (m, w) with
      (rebind c' ({| ctx := c; configs := configs σ.1; toolsets := toolsets σ.1 |}, w))
  end.
  by rewrite answers_rebind.
Qed.

Lemma LoadConfigs_rebind cfgs c c' σ :
  (LoadConfigs cfgs (rebind (Some c') σ)).2 =
    rebind (Some c') (LoadConfigs cfgs (rebind (Some c) σ)).2.
Proof.
  rewrite !LoadConfigs_eq. simpl.
  match goal with |- context [spec.answers ?ids (?m, ?w)] =>
    change (m, w) with
      (rebind (Some c') ({| ctx := Some c; configs := load_enabled cfgs;
                            toolsets := ∅ |}, w))
  end.
  by rewrite answers_rebind.
Qed.

Lemma exec_rebind o c σ :
  (∀ c0, o ≠ OpInitialize c0) → (∀ cfgs, o ≠ OpLoadConfigs cfgs) →
  exec o (rebind c σ) = rebind c (exec o σ).
Proof.
  intros Hi Hl.
  destruct o as [c0|cfgs| | | | | | |]; unfold exec;
    [by destruct (Hi c0)|by destruct (Hl cfgs)|..].
  - unfold CreateToolset. by rewrite !createToolsetLocked_eq.
  - by rewrite !GetToolsetsByIDs_eq, answers_rebind.
  - rewrite !GetAllToolsets_eq. simpl.
    change ({| ctx := c; configs := configs σ.1; toolsets := toolsets σ.1 |},
            {| trace := trace σ.2; ranges := S (ranges σ.2) |})
      with (rebind c (σ.1, {| trace := trace σ.2; ranges := S (ranges σ.2) |})).
    by rewrite answers_rebind.
  - by rewrite !GetAllStatus_eq.
  - unfold TestConnection, Connect, rebind. munfold. simpl.
    destruct (configs σ.1 !! serverID) as [cfg|]; [|done].
    simpl. by destruct (client_Connect _ _ _ _).
  - by rewrite GetServerTools_rebind.
  - by rewrite GetToolInfosByServerIDs_rebind.
Qed.

(** C5, as the code has it.  For an id that is not in the enabled set,
    [TestConnection] returns the record with that id, [Connected] false and
    the fixed message of the code, and changes neither the manager nor the
    world: no call to the outside is made. *)
Theorem TestConnection_unknown_id serverID σ :
  configs σ.1 !! serverID = None →
  TestConnection serverID σ =
    ({| ID := serverID; Connected := false; Error := "服务器未配置" |}, σ).
Proof.
  intros Hcfg. unfold TestConnection. munfold. simpl.
  rewrite Hcfg. reflexivity.
Qed.

(** C6, as the code has it.  [Initialize] binds the scope it is given on
    every call, so the last call wins; every other method leaves the bound
    scope as it is; and no method looks at which scope is bound: run from two
    states that differ in the bound scope alone, a method ends in states that
    differ in the bound scope alone, with the same connections built. *)
Theorem scope_is_set_by_Initialize_only :
  (∀ c σ, ctx (Initialize c σ).2.1 = c)
  ∧ (∀ o σ, (∀ c, o ≠ OpInitialize c) → ctx (exec o σ).1 = ctx σ.1)
  ∧ (∀ c c' σ, (Initialize c' σ).2 = rebind c' (Initialize c σ).2)
  ∧ (∀ o c c' σ, (∀ c0, o ≠ OpInitialize c0) →
       exec o (rebind (Some c') σ) = rebind (Some c') (exec o (rebind (Some c) σ))).
Proof.
  split_and!.
  - intros c σ. rewrite Initialize_eq. simpl.
    match goal with |- context [spec.answers ?ids ?s] =>
      pose proof (answers_grows ids s) as (Hctx & _) end.
    by rewrite Hctx.
  - intros o σ Hi.
    destruct o as [c|cfgs| | | | | | |];
      [by destruct (Hi c)|apply LoadConfigs_configs|by eapply exec_grows..].
  - apply Initialize_rebind.
  - intros o c c' σ Hi.
    destruct o as [c0|cfgs| | | | | | |];
      [by destruct (Hi c0)|apply LoadConfigs_rebind|
       rewrite !exec_rebind by done; reflexivity..].
Qed.

(** C10. A config whose transport kind is neither the event-stream kind nor
    the command kind (an unknown or an empty kind included) gets the
    streamable-HTTP transport for its endpoint with at most three retries;
    [createTransport] has no error result. *)
Theorem createTransport_falls_through_to_streamable cfg :
  models.TransportType cfg ≠ models.MCPTransportSSE →
  models.TransportType cfg ≠ models.MCPTransportCommand →
  createTransport cfg = StreamableClientTransport (models.Endpoint cfg) 3.
Proof.
  intros Hsse Hcmd. unfold createTransport.
  destruct (decide (models.TransportType cfg = models.MCPTransportSSE)); [done|].
  by destruct (decide (models.TransportType cfg = models.MCPTransportCommand)).
Qed.

(** C1. The keys of the connection cache are always keys of the enabled
    config set: this holds of a new manager, every method ([Initialize],
    [LoadConfigs], [GetToolsetsByIDs], [GetAllToolsets] and the others) keeps
    it, and so it holds of every state a sequence of calls can reach. *)
Theorem cache_keys_within_config_keys :
  dom (toolsets NewManager) ⊆ dom (configs NewManager)
  ∧ (∀ o σ, dom (toolsets σ.1) ⊆ dom (configs σ.1) →
            dom (toolsets (exec o σ).1) ⊆ dom (configs (exec o σ).1))
  ∧ (∀ ops w, dom (toolsets (run ops w).1) ⊆ dom (configs (run ops w).1)).
Proof.
  split_and!.
  - done.
  - intros o σ. apply exec_coherent.
  - intros ops w. apply coherent_of_good, run_good.
Qed.

End manager_facts.

(** ** What a message contains *)

Section contains_facts.

Lemma prefix_append (s t : string) : String.prefix s (s +:+ t) = true.
Proof.
  induction s as [|c s IH]; [by destruct t|].
  rewrite append_cons. simpl. by destruct (ascii_dec c c).
Qed.

Lemma Contains_prefix (s sub : string) :
  String.prefix sub s = true → GoStrings.Contains s sub = true.
Proof.
  intros Hp. destruct s; cbn [GoStrings.Contains]; by rewrite Hp.
Qed.

Lemma Contains_append_l (p s sub : string) :
  GoStrings.Contains s sub = true → GoStrings.Contains (p +:+ s) sub = true.
Proof.
  intros Hs. induction p as [|c p IH]; [done|].
  rewrite append_cons. cbn [GoStrings.Contains].
  by destruct (String.prefix sub _).
Qed.

(** A string contains each of the pieces it is put together from. *)
Lemma Contains_middle (p s t : string) :
  GoStrings.Contains (p +:+ s +:+ t) s = true.
Proof. apply Contains_append_l, Contains_prefix, prefix_append. Qed.

Lemma Contains_end (p s : string) : GoStrings.Contains (p +:+ s) s = true.
Proof.
  rewrite <- (append_nil_r s) at 1. apply Contains_middle.
Qed.

Lemma substring_is_prefix (s : string) (n : nat) :
  ∃ rest, s = substring 0 n s +:+ rest.
Proof.
  revert n. induction s as [|c s IH]; intros [|n]; simpl.
  - by exists "".
  - by exists "".
  - by exists (String c s).
  - destruct (IH n) as [rest Hrest]. exists rest.
    rewrite append_cons. by f_equal.
Qed.

End contains_facts.

(** ** The factory *)

Section factory_facts.

Import go ext adk.

Context {consts : models.Constants} {rt : Runtime}.

Implicit Types (c : Context) (config : models.AIConfig) (w : World).

Lemma testOpenAIConnection_response c config w jsonBody resp :
  json_Marshal (probe_body (models.ModelName config)) = inl jsonBody →
  http_NewRequest_err "POST" (probe_url config) = None →
  client_Do (trace w) c GetTransport (probe_request config jsonBody) = inl resp →
  testOpenAIConnection c config w =
    (if (StatusCode resp =? 200)%Z then None
     else Some (errorString ("HTTP " +:+ fmt.itoa (StatusCode resp) +:+ ": "
                             +:+ substring 0 512 (Body resp))),
     {| trace := trace w ++ [EvHTTPDo c GetTransport (probe_request config jsonBody)];
        ranges := ranges w |}).
Proof.
  intros Hj Hr Hd. unfold testOpenAIConnection. rewrite Hj, Hr.
  munfold. simpl. rewrite Hd. by destruct (StatusCode resp =? 200)%Z.
Qed.

Lemma testOpenAIConnection_nil c config w :
  (testOpenAIConnection c config w).1 = None →
  ∃ jsonBody resp,
    json_Marshal (probe_body (models.ModelName config)) = inl jsonBody
    ∧ http_NewRequest_err "POST" (probe_url config) = None
    ∧ client_Do (trace w) c GetTransport (probe_request config jsonBody) = inl resp
    ∧ StatusCode resp = 200%Z.
Proof.
  unfold testOpenAIConnection.
  destruct (json_Marshal _) as [jsonBody|err] eqn:Hj; [|done].
  destruct (http_NewRequest_err _ _) as [err|] eqn:Hr; [done|].
  munfold. simpl.
  destruct (client_Do _ _ _ _) as [resp|err] eqn:Hd; [|done].
  destruct (StatusCode resp =? 200)%Z eqn:Hs; [|done].
  intros _. exists jsonBody, resp. split_and!; try done. by apply Z.eqb_eq.
Qed.

(** The decimal numeral [%d] prints reads back as the number printed. *)
Lemma itoa_reads_back (n : Z) :
  Z.of_int <$> NilZero.int_of_string (fmt.itoa n) = Some n.
Proof.
  unfold fmt.itoa. rewrite NilZero.isi.
  - simpl. by rewrite DecimalZ.of_to.
  - destruct n as [|p|p]; simpl; [discriminate| |discriminate].
    intros [= Hp]. by apply Unsigned.to_uint_nonnil in Hp.
  - destruct n as [|p|p]; simpl; [discriminate|discriminate|].
    intros [= Hp]. by apply Unsigned.to_uint_nonnil in Hp.
Qed.

(** C8. The probe of an OpenAI-style endpoint returns no error exactly when
    the request could be made and was answered with status 200.  When it is
    answered with another status, the error message is [HTTP], the status in
    decimal, a colon and the first 512 bytes of the body at most: it contains
    the status code and that beginning of the body.  The status is printed
    as the decimal numeral that reads back as the status (200 as [200], 404
    as [404], 500 as [500]); an answer of status 500 with the body
    [server error] gives the message [HTTP 500: server error], which contains
    both [500] and [server error]. *)
Theorem testOpenAIConnection_succeeds_iff_200 c config w :
  ((testOpenAIConnection c config w).1 = None ↔
   ∃ jsonBody resp,
     json_Marshal (probe_body (models.ModelName config)) = inl jsonBody
     ∧ http_NewRequest_err "POST" (probe_url config) = None
     ∧ client_Do (trace w) c GetTransport (probe_request config jsonBody) = inl resp
     ∧ StatusCode resp = 200%Z)
  ∧ (∀ jsonBody resp,
       json_Marshal (probe_body (models.ModelName config)) = inl jsonBody →
       http_NewRequest_err "POST" (probe_url config) = None →
       client_Do (trace w) c GetTransport (probe_request config jsonBody) = inl resp →
       ((testOpenAIConnection c config w).1 = None ↔ StatusCode resp = 200%Z)
       ∧ (StatusCode resp ≠ 200%Z →
          ∃ msg body,
            (testOpenAIConnection c config w).1 = Some (errorString msg)
            ∧ msg = "HTTP " +:+ fmt.itoa (StatusCode resp) +:+ ": " +:+ body
            ∧ body = substring 0 512 (Body resp)
            ∧ String.length body = 512 `min` String.length (Body resp)
            ∧ (∃ rest, Body resp = body +:+ rest)
            ∧ GoStrings.Contains msg (fmt.itoa (StatusCode resp)) = true
            ∧ GoStrings.Contains msg body = true)
       ∧ (StatusCode resp = 500%Z → Body resp = "server error" →
          (testOpenAIConnection c config w).1
            = Some (errorString "HTTP 500: server error")
          ∧ GoStrings.Contains "HTTP 500: server error" "500" = true
          ∧ GoStrings.Contains "HTTP 500: server error" "server error" = true))
  ∧ (∀ n, Z.of_int <$> NilZero.int_of_string (fmt.itoa n) = Some n)
  ∧ fmt.itoa 200 = "200" ∧ fmt.itoa 404 = "404" ∧ fmt.itoa 500 = "500"
  ∧ fmt.itoa 0 = "0" ∧ fmt.itoa (-1) = "-1".
Proof.
  split; [|split; [|split; [apply itoa_reads_back|by vm_compute]]].
  - split; [apply testOpenAIConnection_nil|].
    intros (jsonBody & resp & Hj & Hr & Hd & Hs).
    rewrite (testOpenAIConnection_response _ _ _ _ _ Hj Hr Hd). simpl.
    by rewrite Hs.
  - intros jsonBody resp Hj Hr Hd.
    rewrite (testOpenAIConnection_response _ _ _ _ _ Hj Hr Hd). simpl.
    split_and!.
    + destruct (Z.eqb_spec (StatusCode resp) 200) as [Hs|Hs]; by split.
    + intros Hs. destruct (Z.eqb_spec (StatusCode resp) 200) as [|_]; [done|].
      eexists _, _. split_and!; try reflexivity.
      * apply substring_prefix_length.
      * apply substring_is_prefix.
      * apply Contains_middle.
      * rewrite <- !append_assoc. apply Contains_end.
    + intros Hs Hb. rewrite Hs, Hb. by vm_compute.
Qed.

(** *** Dispatch on the provider kind *)

Lemma unsupported_cases config :
  ¬ supported (models.Provider config) →
  models.Provider config ≠ models.AIProviderGemini
  ∧ models.Provider config ≠ models.AIProviderVertexAI
  ∧ models.Provider config ≠ models.AIProviderOpenAI.
Proof. unfold supported. intros Hn. split_and!; intros Heq; apply Hn; auto. Qed.

Lemma gemini_NewModel_result c name cfg w :
  (gemini_NewModel c name cfg w).1 =
    match gemini_NewModel_err (trace w) c name cfg with
    | Some err => inr err
    | None => inl (GeminiModel name cfg)
    end.
Proof. reflexivity. Qed.

Lemma createGeminiModel_error c config w e :
  (createGeminiModel c config w).1 = inr e → collaborator_error e.
Proof.
  unfold createGeminiModel. rewrite gemini_NewModel_result.
  destruct (gemini_NewModel_err _ _ _ _) as [err|] eqn:He; [|done].
  intros [= <-]. right. right. by eexists _, _, _, _.
Qed.

Lemma createVertexAIModel_error c config w e :
  (createVertexAIModel c config w).1 = inr e →
  ∃ err, collaborator_error err ∧ (e = err ∨ ∃ prefix, e = Errorf_w prefix err).
Proof.
  unfold createVertexAIModel. munfold. simpl.
  destruct (negb _); simpl;
    (destruct (credentials_DetectDefault _ _) as [creds|err] eqn:Hd; simpl;
     [|intros [= <-]; exists err; split;
         [left; by eexists _, _|right; by eexists]]);
    (destruct (httptransport_NewClient_err _ _ _) as [err|] eqn:Hn; simpl;
     [intros [= <-]; exists err; split;
        [right; left; by eexists _, _, _|right; by eexists]|]);
    (destruct (gemini_NewModel_err _ _ _ _) as [err|] eqn:Hg; simpl; [|done];
     intros [= <-]; exists err; split;
       [right; right; by eexists _, _, _, _|by left]).
Qed.

Lemma CreateModel_error c config w e :
  supported (models.Provider config) →
  (CreateModel c config w).1 = inr e →
  ∃ err, collaborator_error err ∧ (e = err ∨ ∃ prefix, e = Errorf_w prefix err).
Proof.
  intros Hsup. unfold CreateModel.
  destruct (decide (models.Provider config = models.AIProviderGemini)).
  { intros He%createGeminiModel_error. exists e. by split; [|left]. }
  destruct (decide (models.Provider config = models.AIProviderVertexAI)).
  { apply createVertexAIModel_error. }
  destruct (decide (models.Provider config = models.AIProviderOpenAI)).
  { by destruct (models.UseResponses config). }
  unfold supported in Hsup. tauto.
Qed.

Lemma testViaGenerate_ok c llm w :
  collaborators_succeed → (testViaGenerate c llm w).1 = None.
Proof.
  intros (_ & _ & _ & _ & _ & _ & Hgen).
  unfold testViaGenerate. munfold. simpl.
  specialize (Hgen (trace w) c llm
                {| ReqRole := "user"; ReqText := "hi"; MaxOutputTokens := 1 |}).
  destruct (llm_GenerateContent _ _ _ _) as [|[resp [err|]] items]; try done.
  by specialize (Hgen _ eq_refl).
Qed.

Lemma createVertexAIModel_ok c config w :
  collaborators_succeed → ∃ llm, (createVertexAIModel c config w).1 = inl llm.
Proof.
  intros (Hd & Hn & Hg & _).
  unfold createVertexAIModel. munfold. simpl.
  destruct (negb _); simpl;
    match goal with |- context [credentials_DetectDefault ?h ?o] =>
      destruct (Hd h o) as [creds ->] end; simpl;
    rewrite Hn; simpl; rewrite Hg; by eexists.
Qed.

Lemma CreateModel_ok c config w :
  supported (models.Provider config) → collaborators_succeed →
  ∃ llm, (CreateModel c config w).1 = inl llm.
Proof.
  intros Hsup Hok. unfold CreateModel.
  destruct (decide (models.Provider config = models.AIProviderGemini)).
  { destruct Hok as (_ & _ & Hg & _). unfold createGeminiModel.
    rewrite gemini_NewModel_result, Hg. by eexists. }
  destruct (decide (models.Provider config = models.AIProviderVertexAI)).
  { by apply createVertexAIModel_ok. }
  destruct (decide (models.Provider config = models.AIProviderOpenAI)).
  { destruct (models.UseResponses config); by eexists. }
  unfold supported in Hsup. tauto.
Qed.

Lemma TestConnection_ok c config w :
  supported (models.Provider config) → collaborators_succeed →
  (TestConnection c config w).1 = None.
Proof.
  intros Hsup Hok. unfold TestConnection.
  destruct (decide (models.Provider config = models.AIProviderOpenAI)).
  { destruct Hok as (_ & _ & _ & Hj & Hr & Hd & _).
    destruct (Hj (probe_body (models.ModelName config))) as [jsonBody Hj'].
    destruct (Hd (trace w) (WithTimeout c 15) GetTransport
                 (probe_request config jsonBody)) as (resp & Hd' & Hs).
    rewrite (testOpenAIConnection_response _ _ _ _ _ Hj' (Hr _ _) Hd'). simpl.
    by rewrite Hs. }
  destruct (decide (models.Provider config = models.AIProviderGemini)).
  { unfold testGeminiConnection, createGeminiModel. munfold.
    pose proof (gemini_NewModel_result (WithTimeout c 15) (models.ModelName config)) as Hres.
    match goal with |- context [gemini_NewModel ?a ?b ?cfg w] =>
      specialize (Hres cfg w); destruct (gemini_NewModel a b cfg w) as [r w'] end.
    simpl in Hres. pose proof Hok as (_ & _ & Hg & _).
    rewrite Hg in Hres. subst r. by apply testViaGenerate_ok. }
  destruct (decide (models.Provider config = models.AIProviderVertexAI)).
  { unfold testVertexAIConnection. munfold.
    destruct (createVertexAIModel_ok (WithTimeout c 15) config w Hok) as [llm Hllm].
    destruct (createVertexAIModel _ _ w) as [r w']. simpl in Hllm. subst r.
    by apply testViaGenerate_ok. }
  unfold supported in Hsup. tauto.
Qed.

(** C9. For a provider kind other than the three the factory knows (the
    OpenAI kind covers both the chat and the responses style), [CreateModel]
    and [TestConnection] return their unsupported-provider error at once and
    leave the world as it is: nothing is constructed and nothing is sent.  It
    is the only error of the factory's own: for a supported kind every error
    of [CreateModel] is, or wraps, an error a library answered with, and when
    the libraries and the endpoint all answer well neither function returns
    an error. *)
Theorem unsupported_provider_fails_fast c config w :
  (¬ supported (models.Provider config) →
   CreateModel c config w =
     (inr (Errorf_s "unsupported provider: " (models.Provider config)), w)
   ∧ TestConnection c config w =
       (Some (Errorf_s "不支持的 provider: " (models.Provider config)), w))
  ∧ (supported (models.Provider config) →
     ∀ e, (CreateModel c config w).1 = inr e →
          ∃ err, collaborator_error err
                 ∧ (e = err ∨ ∃ prefix, e = Errorf_w prefix err))
  ∧ (supported (models.Provider config) → collaborators_succeed →
     (∃ llm, (CreateModel c config w).1 = inl llm)
     ∧ (TestConnection c config w).1 = None).
Proof.
  split_and!.
  - intros (Hg & Hv & Ho)%unsupported_cases.
    unfold CreateModel, TestConnection.
    destruct (decide (models.Provider config = models.AIProviderGemini)); [done|].
    destruct (decide (models.Provider config = models.AIProviderVertexAI)); [done|].
    by destruct (decide (models.Provider config = models.AIProviderOpenAI)).
  - intros Hsup e. by apply CreateModel_error.
  - intros Hsup Hok. split; [by apply CreateModel_ok|by apply TestConnection_ok].
Qed.

End factory_facts.

(** ** More on the manager: what the methods keep *)

Section manager_more.

Import go ext mcp obs.

Context {consts : models.Constants} {rt : Runtime}.

Implicit Types (σ : State) (m : Manager) (w : World) (cfg : models.MCPServerConfig).

Lemma TestConnection_mgr serverID σ : (TestConnection serverID σ).2.1 = σ.1.
Proof.
  unfold TestConnection, Connect. munfold. simpl.
  destruct (configs σ.1 !! serverID) as [cfg|]; [|done].
  simpl. by destruct (client_Connect _ _ _ _).
Qed.

Lemma GetServerTools_mgr serverID σ : (GetServerTools serverID σ).2.1 = σ.1.
Proof.
  unfold GetServerTools, Connect. munfold. simpl.
  destruct (configs σ.1 !! serverID) as [cfg|]; [|done].
  simpl. destruct (client_Connect _ _ _ _) as [session|err]; simpl; [|done].
  by destruct (session_ListTools _ _ _).
Qed.

Lemma GetToolInfosByServerIDs_mgr serverIDs σ :
  (GetToolInfosByServerIDs serverIDs σ).2.1 = σ.1.
Proof.
  unfold GetToolInfosByServerIDs.
  apply (for_range_inv (λ s, s.1 = σ.1)); [|done].
  intros acc id s _ Hs. munfold.
  pose proof (GetServerTools_mgr id s) as Hm.
  destruct (GetServerTools id s) as [[tools|err] s']; simpl in *; congruence.
Qed.

Lemma read_only_mgr o σ : read_only o = true → (exec o σ).1 = σ.1.
Proof.
  destruct o; try discriminate; intros _; unfold exec.
  - unfold CreateToolset. by rewrite createToolsetLocked_eq.
  - by rewrite GetAllStatus_eq.
  - apply TestConnection_mgr.
  - apply GetServerTools_mgr.
  - apply GetToolInfosByServerIDs_mgr.
Qed.

(** X1. [CreateToolset], [GetAllStatus], [TestConnection], [GetServerTools]
    and [GetToolInfosByServerIDs] leave the manager exactly as it was: scope,
    enabled set and cache; in particular a connection made by [CreateToolset]
    or by a probe is never put into the cache. *)
Theorem read_only_methods_keep_the_manager o σ :
  read_only o = true →
  (exec o σ).1 = σ.1
  ∧ trace σ.2 `prefix_of` trace (exec o σ).2.
Proof.
  intros Hro. split; [by apply read_only_mgr|].
  destruct o; try discriminate; by eapply exec_grows.
Qed.

Lemma Initialize_keeps c σ :
  configs (Initialize c σ).2.1 = configs σ.1
  ∧ trace σ.2 `prefix_of` trace (Initialize c σ).2.2
  ∧ (∀ id ts, toolsets σ.1 !! id = Some ts →
              toolsets (Initialize c σ).2.1 !! id = Some ts).
Proof.
  rewrite Initialize_eq. simpl.
  match goal with |- context [spec.answers ?ids ?s] =>
    pose proof (answers_grows ids s) as (_ & Hk & Hp & Hkeep & _) end.
  split_and!; [by rewrite Hk|done|].
  intros id ts Hts. by apply Hkeep.
Qed.

Lemma exec_keeps o σ :
  (∀ cfgs, o ≠ OpLoadConfigs cfgs) →
  configs (exec o σ).1 = configs σ.1
  ∧ (∀ id ts, toolsets σ.1 !! id = Some ts →
              toolsets (exec o σ).1 !! id = Some ts).
Proof.
  intros Hl. destruct o as [c|cfgs| | | | | | |].
  - destruct (Initialize_keeps c σ) as (Hk & _ & Hkeep). by split.
  - by destruct (Hl cfgs).
  - by split; eapply exec_grows.
  - by split; eapply exec_grows.
  - by split; eapply exec_grows.
  - by split; eapply exec_grows.
  - by split; eapply exec_grows.
  - by split; eapply exec_grows.
  - by split; eapply exec_grows.
Qed.

Lemma execs_keep ops σ :
  Forall (λ o, ∀ cfgs, o ≠ OpLoadConfigs cfgs) ops →
  configs (foldl (λ s o, exec o s) σ ops).1 = configs σ.1
  ∧ (∀ id ts, toolsets σ.1 !! id = Some ts →
              toolsets (foldl (λ s o, exec o s) σ ops).1 !! id = Some ts).
Proof.
  revert σ. induction ops as [|o ops IH]; intros σ Hops; [done|].
  apply Forall_cons in Hops as [Ho Hops]. simpl.
  destruct (exec_keeps o σ Ho) as [Hk Hkeep].
  destruct (IH (exec o σ) Hops) as [Hk' Hkeep'].
  split; [congruence|]. intros id ts Hts. by apply Hkeep', Hkeep.
Qed.

(** X2. Only [LoadConfigs] reconfigures and only [LoadConfigs] evicts: every
    other method, and so every sequence of other methods, leaves the enabled
    set as it is and keeps every cached connection cached under its id, the
    very same object. *)
Theorem only_LoadConfigs_evicts ops σ :
  Forall (λ o, ∀ cfgs, o ≠ OpLoadConfigs cfgs) ops →
  let σ' := foldl (λ s o, exec o s) σ ops in
  configs σ'.1 = configs σ.1
  ∧ (∀ id ts, toolsets σ.1 !! id = Some ts → toolsets σ'.1 !! id = Some ts).
Proof. intros Hops σ'. by apply execs_keep. Qed.

(** *** Cached connections are distinct, recorded objects *)

Lemma recorded_fresh σ : recorded σ → heap_fresh σ.
Proof. intros Hr id ts Hts. by eapply lookup_lt_Some, Hr. Qed.

Lemma recorded_world m w w' :
  trace w `prefix_of` trace w' → recorded (m, w) → recorded (m, w').
Proof.
  intros Hp Hr id ts Hts. simpl in *.
  eapply prefix_lookup_Some; [|done]. by apply (Hr id).
Qed.

Lemma connection_for_objects id σ :
  distinct_objects σ.1 ∧ recorded σ →
  distinct_objects (spec.connection_for id σ).2.1
  ∧ recorded (spec.connection_for id σ).2.
Proof.
  intros [Hd Hr].
  destruct (toolsets σ.1 !! id) as [ts|] eqn:Hts.
  { by rewrite (connection_for_hit _ _ ts). }
  destruct (configs σ.1 !! id) as [cfg|] eqn:Hcfg.
  2: { by rewrite connection_for_unknown. }
  rewrite (connection_for_build _ _ cfg) by done. unfold build_answer.
  destruct (mcptoolset_New_err _ _) as [err|]; simpl.
  { split; [done|]. destruct σ as [m w].
    eapply recorded_world; [|done]. by apply prefix_app_r. }
  pose proof (recorded_fresh _ Hr) as Hf.
  split.
  - intros id1 id2 ts1 ts2 H1 H2 Hptr. simpl in *.
    apply lookup_insert_Some in H1 as [[<- <-]|[Hne1 H1]];
      apply lookup_insert_Some in H2 as [[<- <-]|[Hne2 H2]]; simpl in *.
    + done.
    + apply Hf in H2. simpl in H2. lia.
    + apply Hf in H1. simpl in H1. lia.
    + by eapply Hd.
  - intros id' ts' Hts'. simpl in *.
    apply lookup_insert_Some in Hts' as [[<- <-]|[Hne Hts']]; simpl.
    + by rewrite lookup_app_r, Nat.sub_diag.
    + apply lookup_app_l_Some. by apply (Hr id').
Qed.

Lemma answers_objects ids σ :
  distinct_objects σ.1 ∧ recorded σ →
  distinct_objects (spec.answers ids σ).2.1 ∧ recorded (spec.answers ids σ).2.
Proof.
  revert σ. induction ids as [|id ids IH]; intros σ Hinv; [done|].
  simpl. munfold.
  pose proof (connection_for_objects id σ Hinv) as Hinv1.
  destruct (spec.connection_for id σ) as [a σ1]. simpl in *.
  specialize (IH σ1 Hinv1). by destruct (spec.answers ids σ1).
Qed.

Lemma objects_empty_cache c cs w :
  distinct_objects {| ctx := c; configs := cs; toolsets := ∅ |}
  ∧ recorded ({| ctx := c; configs := cs; toolsets := ∅ |}, w).
Proof.
  split.
  - intros id1 id2 ts1 ts2 H1. simpl in H1. by rewrite lookup_empty in H1.
  - intros id ts Hts. simpl in Hts. by rewrite lookup_empty in Hts.
Qed.

Lemma exec_objects o σ :
  distinct_objects σ.1 ∧ recorded σ →
  distinct_objects (exec o σ).1 ∧ recorded (exec o σ).
Proof.
  intros Hinv.
  destruct (read_only o) eqn:Hro.
  { pose proof (read_only_mgr o σ Hro) as Hm.
    assert (Hp : trace σ.2 `prefix_of` trace (exec o σ).2)
      by (destruct o; try discriminate; by eapply exec_grows).
    destruct Hinv as [Hd Hr]. destruct (exec o σ) as [m' w'], σ as [m w].
    simpl in *. subst m'. split; [done|]. by eapply recorded_world. }
  destruct o as [c|cfgs| | | | | | |]; try discriminate; unfold exec.
  - rewrite Initialize_eq. simpl. apply answers_objects.
    destruct Hinv as [Hd Hr]. by split.
  - rewrite LoadConfigs_eq. simpl.
    destruct (ctx σ.1); [|apply objects_empty_cache].
    apply answers_objects, objects_empty_cache.
  - rewrite GetToolsetsByIDs_eq. by apply answers_objects.
  - rewrite GetAllToolsets_eq. simpl. apply answers_objects.
    destruct Hinv as [Hd Hr]. by split.
Qed.

Lemma run_objects ops w :
  distinct_objects (run ops w).1 ∧ recorded (run ops w).
Proof.
  induction ops as [|o ops IH] using rev_ind.
  - apply objects_empty_cache.
  - rewrite run_snoc. by apply exec_objects.
Qed.

(** X3. In every state a sequence of calls can reach, each cached
    connection was built for the config that is now loaded under its id (its
    transport is the one [createTransport] gives for that config), it is the
    product of the [mcptoolset.New] call recorded at its address, and
    connections cached under two different ids are two different objects. *)
Theorem reachable_cache_is_current ops w id ts :
  toolsets (run ops w).1 !! id = Some ts →
  (∃ cfg, configs (run ops w).1 !! id = Some cfg
          ∧ ts_transport ts = createTransport cfg
          ∧ trace (run ops w).2 !! ts_ptr ts = Some (build_event cfg))
  ∧ (∀ id' ts', toolsets (run ops w).1 !! id' = Some ts' →
                ts_ptr ts' = ts_ptr ts → id' = id).
Proof.
  intros Hts.
  destruct (run_good ops w) as [Hb _].
  destruct (run_objects ops w) as [Hd Hr].
  split.
  - destruct (Hb id ts Hts) as (cfg & Hcfg & Htr). exists cfg.
    split_and!; [done..|]. unfold build_event. rewrite <- Htr. by apply (Hr id).
  - intros id' ts' Hts' Hptr. by eapply Hd.
Qed.

(** *** A pass over the enabled configs *)

Lemma omap_ext_in {A B} (f g : A → option B) (l : list A) :
  (∀ x, x ∈ l → f x = g x) → omap f l = omap g l.
Proof.
  induction l as [|x l IH]; intros Hfg; [done|].
  assert (IH' : omap f l = omap g l).
  { apply IH. intros y Hy. apply Hfg. by right. }
  simpl. rewrite (Hfg x) by left.
  destruct (g x); [f_equal|]; exact IH'.
Qed.

Lemma omap_none {A B} (l : list A) : omap (λ _ : A, @None B) l = [].
Proof. induction l as [|x l IH]; [done|exact IH]. Qed.

Lemma pending_other id id' σ :
  id' ≠ id →
  pending (spec.connection_for id σ).2.1 id' = pending σ.1 id'.
Proof.
  intros Hne. unfold pending.
  rewrite connection_for_other by done.
  by destruct (connection_for_grows id σ) as (_ & -> & _).
Qed.

Lemma connection_for_world id σ :
  (spec.connection_for id σ).2.2 =
    {| trace := trace σ.2 ++ option_list (pending σ.1 id); ranges := ranges σ.2 |}.
Proof.
  unfold pending, build_event.
  destruct (toolsets σ.1 !! id) as [ts|] eqn:Hts.
  { rewrite (connection_for_hit _ _ ts) by done. simpl. rewrite app_nil_r.
    by destruct σ.2. }
  destruct (configs σ.1 !! id) as [cfg|] eqn:Hcfg.
  2: { rewrite connection_for_unknown by done. simpl. rewrite app_nil_r.
       by destruct σ.2. }
  rewrite (connection_for_build _ _ cfg) by done.
  by destruct (build_answer _ _).
Qed.

(** Over ids without repetition, what is built is what was pending at the
    start, in the order of the ids. *)
Lemma answers_world ids σ :
  NoDup ids →
  (spec.answers ids σ).2.2 =
    {| trace := trace σ.2 ++ omap (pending σ.1) ids; ranges := ranges σ.2 |}.
Proof.
  revert σ. induction ids as [|id ids IH]; intros σ Hnd.
  { simpl. rewrite app_nil_r. by destruct σ.2. }
  apply NoDup_cons in Hnd as [Hid Hnd].
  simpl. munfold.
  pose proof (connection_for_world id σ) as Hw.
  pose proof (λ id', pending_other id id' σ) as Ho.
  destruct (spec.connection_for id σ) as [a σ1]. simpl in *.
  specialize (IH σ1 Hnd). destruct (spec.answers ids σ1) as [l σ2]. simpl in *.
  rewrite IH, Hw. simpl.
  rewrite (omap_ext_in (pending σ1.1) (pending σ.1)).
  - destruct (pending σ.1 id); simpl; by rewrite <- ?app_assoc, ?app_nil_r.
  - intros id' Hin. apply Ho. by intros ->.
Qed.

(** When nothing is pending the ids are answered from the cache alone. *)
Lemma answers_warm ids σ :
  (∀ id, id ∈ ids → pending σ.1 id = None) →
  spec.answers ids σ = ((λ id, (id, toolsets σ.1 !! id)) <$> ids, σ).
Proof.
  induction ids as [|id ids IH]; intros Hp; [done|].
  simpl. munfold.
  assert (Hc : spec.connection_for id σ = (toolsets σ.1 !! id, σ)).
  { specialize (Hp id (list_elem_of_here _ _)). unfold pending in Hp.
    destruct (toolsets σ.1 !! id) as [ts|] eqn:Hts.
    - by rewrite (connection_for_hit _ _ ts).
    - destruct (configs σ.1 !! id) eqn:Hcfg; [done|].
      by rewrite connection_for_unknown. }
  rewrite Hc, IH; [done|]. intros id' Hin. apply Hp. by right.
Qed.

Lemma kept_connections_cached (lookup : string → option Toolset) ids :
  spec.kept_connections ((λ id, (id, lookup id)) <$> ids) = omap lookup ids.
Proof.
  unfold spec.kept_connections. induction ids as [|id ids IH]; [done|].
  simpl. destruct (lookup id); [f_equal|]; exact IH.
Qed.

(** After the ids were answered, each of them with a config is cached, or a
    build for it failed on the way. *)
Lemma answers_cached_or_failed ids σ id cfg :
  id ∈ ids → configs σ.1 !! id = Some cfg →
  is_Some (toolsets (spec.answers ids σ).2.1 !! id)
  ∨ ∃ h err, trace σ.2 `prefix_of` h
             ∧ mcptoolset_New_err h (createTransport cfg) = Some err.
Proof.
  intros Hin Hcfg.
  rewrite <- (answers_ids ids σ) in Hin.
  apply list_elem_of_fmap in Hin as ([id' [ts|]] & -> & Hin).
  - left. exists ts. by apply answers_cached.
  - right. apply answers_none in Hin as [_ [Hnone|(cfg' & h & err & Hcfg' & Hp & He)]].
    + simpl in *. congruence.
    + simpl in *. exists h, err. split; [done|]. congruence.
Qed.

Lemma pending_enabled σ id e :
  pending σ.1 id = Some e →
  toolsets σ.1 !! id = None
  ∧ ∃ cfg, configs σ.1 !! id = Some cfg ∧ e = build_event cfg.
Proof.
  unfold pending. destruct (toolsets σ.1 !! id); [done|].
  destruct (configs σ.1 !! id) as [cfg|]; [|done].
  intros [= <-]. split; [done|]. by exists cfg.
Qed.

Lemma length_omap_le {A B} (f : A → option B) (l : list A) :
  length (omap f l) ≤ length l.
Proof.
  induction l as [|x l IH]; simpl; [done|].
  destruct (f x); simpl; [apply le_n_S|apply Nat.le_le_succ_r]; exact IH.
Qed.

Lemma range_ids_NoDup σ : NoDup (range_configs (ranges σ.2) (configs σ.1)).*1.
Proof. apply range_configs_NoDup. Qed.

Lemma range_ids_elem σ id :
  id ∈ (range_configs (ranges σ.2) (configs σ.1)).*1 ↔ is_Some (configs σ.1 !! id).
Proof.
  rewrite list_elem_of_fmap. split.
  - intros ([id' cfg] & -> & Hin). apply range_configs_lookup in Hin. by exists cfg.
  - intros [cfg Hcfg]. exists (id, cfg). split; [done|].
    by apply range_configs_lookup.
Qed.

Lemma length_range_configs n (cs : gmap string models.MCPServerConfig) :
  length (range_configs n cs) = size cs.
Proof. by rewrite range_configs_perm, length_map_to_list. Qed.

(** X4. [Initialize] and [GetAllToolsets] make one pass over the enabled
    configs: for each enabled config without a cached connection, in the
    order of the visit, one call to [mcptoolset.New] for its transport, and
    no other call to the outside, so at most as many calls as there are
    enabled configs and none when every enabled id is cached.  [Initialize]
    never returns an error.  After the pass each enabled id is cached unless
    a build for it failed during the pass. *)
Theorem pass_builds_what_is_pending c σ :
  let ids := (range_configs (ranges σ.2) (configs σ.1)).*1 in
  (Initialize c σ).1 = None
  ∧ trace (Initialize c σ).2.2 = trace σ.2 ++ omap (pending σ.1) ids
  ∧ trace (GetAllToolsets σ).2.2 = trace σ.2 ++ omap (pending σ.1) ids
  ∧ toolsets (Initialize c σ).2.1 = toolsets (GetAllToolsets σ).2.1
  ∧ length (omap (pending σ.1) ids) ≤ size (configs σ.1)
  ∧ (∀ e, e ∈ omap (pending σ.1) ids →
       ∃ id cfg, configs σ.1 !! id = Some cfg ∧ toolsets σ.1 !! id = None
                 ∧ e = build_event cfg)
  ∧ (dom (configs σ.1) ⊆ dom (toolsets σ.1) → omap (pending σ.1) ids = [])
  ∧ (∀ id cfg, configs σ.1 !! id = Some cfg →
       is_Some (toolsets (GetAllToolsets σ).2.1 !! id)
       ∨ ∃ h err, trace σ.2 `prefix_of` h
                  ∧ mcptoolset_New_err h (createTransport cfg) = Some err).
Proof.
  intros ids. subst ids.
  rewrite Initialize_eq, GetAllToolsets_eq. simpl.
  pose proof (range_ids_NoDup σ) as Hnd.
  split_and!.
  - done.
  - by rewrite answers_world.
  - by rewrite answers_world.
  - match goal with |- context [spec.answers ?ids (?m, ?w)] =>
      change (m, w) with (rebind c (σ.1, w)) end.
    by rewrite answers_rebind.
  - etrans; [apply length_omap_le|].
    by rewrite length_fmap, length_range_configs.
  - intros e (id & Hin & Hp)%list_elem_of_omap.
    apply pending_enabled in Hp as (Hts & cfg & Hcfg & ->). by exists id, cfg.
  - intros Hsub. rewrite (omap_ext_in _ (λ _, None)).
    + apply omap_none.
    + intros id [cfg Hcfg]%range_ids_elem. unfold pending.
      assert (Hin : id ∈ dom (toolsets σ.1)) by by apply Hsub, elem_of_dom.
      apply elem_of_dom in Hin as [ts ->]. done.
  - intros id cfg Hcfg.
    match goal with |- context [spec.answers ?ids ?s] =>
      pose proof (answers_cached_or_failed ids s id cfg) as Hc end.
    simpl in Hc. apply Hc; [|done]. apply range_ids_elem. by exists cfg.
Qed.

(** *** Reconfiguration with and without a bound scope *)

Lemma pending_cold (entries : list (string * models.MCPServerConfig)) m :
  toolsets m = ∅ →
  (∀ id cfg, (id, cfg) ∈ entries → configs m !! id = Some cfg) →
  omap (pending m) entries.*1 = (λ e, build_event e.2) <$> entries.
Proof.
  intros Hempty. induction entries as [|[id cfg] entries IH]; intros Hin; [done|].
  assert (IH' : omap (pending m) entries.*1 = (λ e, build_event e.2) <$> entries).
  { apply IH. intros id' cfg' Hin'. apply Hin. by right. }
  rewrite !fmap_cons. simpl. unfold pending at 1.
  rewrite Hempty, lookup_empty, (Hin id cfg) by left. simpl.
  f_equal. exact IH'.
Qed.

(** X5. [LoadConfigs] warms the cache exactly when a scope is bound.  With
    no scope bound it makes no call to the outside and the world is left as
    it was.  With a scope bound it calls [mcptoolset.New] once for every
    enabled config of the new set, in the order of the visit, and makes no
    other call; afterwards every enabled id is cached unless its build
    failed, and all of them are cached when no build fails. *)
Theorem LoadConfigs_warms_up_iff_bound (cfgs : list models.MCPServerConfig) σ :
  let r := LoadConfigs cfgs σ in
  (ctx σ.1 = None → r.2.2 = σ.2)
  ∧ (is_Some (ctx σ.1) →
     trace r.2.2 =
       trace σ.2 ++ ((λ e, build_event e.2)
                       <$> range_configs (ranges σ.2) (configs r.2.1))
     ∧ length (trace r.2.2) = length (trace σ.2) + size (configs r.2.1)
     ∧ (∀ id cfg, configs r.2.1 !! id = Some cfg →
          is_Some (toolsets r.2.1 !! id)
          ∨ ∃ h err, trace σ.2 `prefix_of` h
                     ∧ mcptoolset_New_err h (createTransport cfg) = Some err)
     ∧ ((∀ h t, mcptoolset_New_err h t = None) →
        dom (toolsets r.2.1) = dom (configs r.2.1))).
Proof.
  intros r. subst r.
  destruct (LoadConfigs_configs cfgs σ) as [Hk _].
  split.
  { intros Hnone. rewrite LoadConfigs_eq. simpl. by rewrite Hnone. }
  intros [c Hc].
  assert (Htrace : trace (LoadConfigs cfgs σ).2.2 =
            trace σ.2 ++ ((λ e, build_event e.2)
              <$> range_configs (ranges σ.2) (load_enabled cfgs))).
  { rewrite LoadConfigs_eq. simpl. rewrite Hc.
    rewrite answers_world by apply range_configs_NoDup. simpl.
    f_equal. apply pending_cold; [done|].
    intros id cfg Hin. by apply range_configs_lookup in Hin. }
  assert (Hall : ∀ id cfg, configs (LoadConfigs cfgs σ).2.1 !! id = Some cfg →
            is_Some (toolsets (LoadConfigs cfgs σ).2.1 !! id)
            ∨ ∃ h err, trace σ.2 `prefix_of` h
                       ∧ mcptoolset_New_err h (createTransport cfg) = Some err).
  { intros id cfg. rewrite Hk. rewrite LoadConfigs_eq. simpl. rewrite Hc.
    intros Hcfg.
    match goal with |- context [spec.answers ?ids ?s] =>
      pose proof (answers_cached_or_failed ids s id cfg) as Ha end.
    simpl in Ha. apply Ha; [|done].
    apply list_elem_of_fmap. exists (id, cfg). split; [done|].
    by apply range_configs_lookup. }
  rewrite Hk in *. split_and!.
  - done.
  - rewrite Htrace, length_app, length_fmap. by rewrite length_range_configs.
  - done.
  - intros Hok. apply (anti_symm (⊆)).
    + rewrite <- Hk. apply coherent_of_good, LoadConfigs_good.
    + intros id [cfg Hcfg]%elem_of_dom. apply elem_of_dom.
      destruct (Hall id cfg Hcfg) as [?|(h & err & _ & He)]; [done|].
      by rewrite Hok in He.
Qed.

(** *** Reading the cache *)

Lemma answers_hit ids σ id ts :
  toolsets σ.1 !! id = Some ts → id ∈ ids →
  (id, Some ts) ∈ (spec.answers ids σ).1.
Proof.
  revert σ. induction ids as [|id0 ids IH]; intros σ Hts Hin.
  { by apply elem_of_nil in Hin. }
  simpl. munfold.
  pose proof (connection_for_grows id0 σ) as (_ & _ & _ & Hkeep & _).
  destruct (decide (id0 = id)) as [->|Hne].
  - rewrite (connection_for_hit _ _ ts) by done.
    destruct (spec.answers ids σ). simpl. left.
  - apply elem_of_cons in Hin as [->|Hin]; [done|].
    destruct (spec.connection_for id0 σ) as [a σ1]. simpl in *.
    specialize (IH σ1 (Hkeep _ _ Hts) Hin).
    destruct (spec.answers ids σ1). simpl in *. by right.
Qed.

Lemma answers_again (l : list (string * option Toolset)) σ :
  (∀ id ts, (id, Some ts) ∈ l → toolsets σ.1 !! id = Some ts) →
  spec.kept_connections l `sublist_of` spec.kept_connections (spec.answers l.*1 σ).1.
Proof.
  revert σ. induction l as [|[id [ts|]] l IH]; intros σ Hl.
  - apply sublist_nil_l.
  - rewrite fmap_cons. simpl. munfold.
    rewrite (connection_for_hit _ _ ts) by (apply Hl; left).
    assert (IH' := IH σ (λ id' ts' Hin, Hl id' ts' (list_elem_of_further _ _ _ Hin))).
    destruct (spec.answers l.*1 σ) as [l' σ']. simpl in *.
    by apply sublist_skip.
  - rewrite fmap_cons. simpl. munfold.
    pose proof (connection_for_grows id σ) as (_ & _ & _ & Hkeep & _).
    destruct (spec.connection_for id σ) as [a σ1]. simpl in *.
    assert (IH' := IH σ1 (λ id' ts' Hin,
                   Hkeep _ _ (Hl id' ts' (list_elem_of_further _ _ _ Hin)))).
    destruct (spec.answers l.*1 σ1) as [l' σ']. simpl in *.
    destruct a; [by apply sublist_cons|done].
Qed.

Lemma kept_connections_elem (l : list (string * option Toolset)) ts :
  ts ∈ spec.kept_connections l ↔ ∃ id, (id, Some ts) ∈ l.
Proof.
  unfold spec.kept_connections. rewrite list_elem_of_omap. split.
  - intros ([id a] & Hin & Heq). simpl in Heq. subst a. by exists id.
  - intros [id Hin]. by exists (id, Some ts).
Qed.

(** X6. When nothing is pending for the ids asked for (each is cached, or
    has no enabled config), [GetToolsetsByIDs] is a read of the cache: it
    returns the cached connections of the ids in input order, makes no call
    to the outside and changes nothing.  When every enabled id is cached,
    [GetAllToolsets] likewise returns one cached connection per enabled
    config, builds nothing and leaves manager and trace as they were. *)
Theorem cache_read_when_nothing_pending (ids : list string) σ :
  ((∀ id, id ∈ ids → pending σ.1 id = None) →
   GetToolsetsByIDs ids σ = (omap (λ id, toolsets σ.1 !! id) ids, σ))
  ∧ (dom (configs σ.1) ⊆ dom (toolsets σ.1) →
     let r := GetAllToolsets σ in
     r.1 = omap (λ id, toolsets σ.1 !! id)
             (range_configs (ranges σ.2) (configs σ.1)).*1
     ∧ length r.1 = size (configs σ.1)
     ∧ r.2.1 = σ.1
     ∧ trace r.2.2 = trace σ.2).
Proof.
  split.
  - intros Hp. rewrite GetToolsetsByIDs_eq, answers_warm by done. simpl.
    by rewrite kept_connections_cached.
  - intros Hsub r. subst r. rewrite GetAllToolsets_eq. simpl.
    assert (Hcached : ∀ id, id ∈ (range_configs (ranges σ.2) (configs σ.1)).*1 →
                            is_Some (toolsets σ.1 !! id)).
    { intros id [cfg Hcfg]%range_ids_elem. apply elem_of_dom, Hsub.
      by apply elem_of_dom. }
    rewrite answers_warm.
    2: { intros id Hin. simpl. unfold pending.
         by destruct (Hcached id Hin) as [ts ->]. }
    simpl. rewrite kept_connections_cached. split_and!; try done.
    rewrite <- length_range_configs with (n := ranges σ.2).
    rewrite <- (length_fmap fst (range_configs _ _)).
    induction (range_configs _ _).*1 as [|id l IH]; [done|].
    simpl. destruct (Hcached id) as [ts ->]; [left|]. simpl. f_equal.
    apply IH. intros id' Hin. apply Hcached. by right.
Qed.

(** X7. A connection that was returned is returned again.  Asked for the
    same ids once more, after any sequence of calls without [LoadConfigs],
    [GetToolsetsByIDs] returns a list of which the earlier result is a
    sublist: the same objects in the same order, with at most the ids added
    whose build failed before.  Every connection [GetAllToolsets] returned is
    among those it returns the next time. *)
Theorem returned_connections_are_returned_again (ids : list string) ops σ :
  Forall (λ o, ∀ cfgs, o ≠ OpLoadConfigs cfgs) ops →
  let r1 := GetToolsetsByIDs ids σ in
  let a1 := GetAllToolsets σ in
  r1.1 `sublist_of` (GetToolsetsByIDs ids (foldl (λ s o, exec o s) r1.2 ops)).1
  ∧ (∀ ts, ts ∈ a1.1 →
           ts ∈ (GetAllToolsets (foldl (λ s o, exec o s) a1.2 ops)).1).
Proof.
  intros Hops r1 a1. subst r1 a1. split.
  - rewrite !GetToolsetsByIDs_eq. simpl.
    destruct (execs_keep ops (spec.answers ids σ).2 Hops) as [_ Hkeep].
    pose proof (answers_again (spec.answers ids σ).1
                  (foldl (λ s o, exec o s) (spec.answers ids σ).2 ops)) as Hagain.
    rewrite answers_ids in Hagain. apply Hagain.
    intros id ts Hin. by apply Hkeep, answers_cached.
  - intros ts. rewrite GetAllToolsets_eq. simpl.
    intros [id Hin]%kept_connections_elem.
    match type of Hin with context [spec.answers ?ids0 ?s0] =>
      set (ids1 := ids0) in *; set (σ1 := s0) in * end.
    destruct (execs_keep ops (spec.answers ids1 σ1).2 Hops) as [Hk Hkeep].
    pose proof (answers_grows ids1 σ1) as (_ & Hk1 & _).
    assert (Hid : is_Some (configs σ.1 !! id)).
    { apply range_ids_elem. fold ids1. rewrite <- (answers_ids ids1 σ1).
      apply list_elem_of_fmap. by exists (id, Some ts). }
    apply answers_cached, Hkeep in Hin.
    rewrite GetAllToolsets_eq. simpl. apply kept_connections_elem. exists id.
    apply answers_hit; [done|].
    apply range_ids_elem. simpl. rewrite Hk, Hk1. done.
Qed.

(** *** The probes *)

(** X8. For an enabled id, [TestConnection] makes exactly one call to the
    outside: one connection attempt with that config's transport, under a
    deadline of 5 derived from the background context and not from the
    manager's scope.  It reports connected exactly when the attempt
    succeeded, and the attempt's error message otherwise; the cache is
    neither consulted nor changed, and the report is the same whatever is
    cached and whichever scope is bound. *)
Theorem TestConnection_probes_once serverID cfg σ :
  configs σ.1 !! serverID = Some cfg →
  let c := WithTimeout Background 5 in
  let impl := {| ImplName := models.Name cfg; ImplVersion := "1.0.0" |} in
  let answer := client_Connect (trace σ.2) c impl (createTransport cfg) in
  let r := TestConnection serverID σ in
  r.2 = (σ.1, {| trace := trace σ.2 ++ [EvConnect c impl (createTransport cfg)];
                 ranges := ranges σ.2 |})
  ∧ r.1 = match answer with
          | inl _ => {| ID := serverID; Connected := true; Error := "" |}
          | inr err => {| ID := serverID; Connected := false; Error := go.Error err |}
          end
  ∧ (Connected r.1 = true ↔ ∃ session, answer = inl session)
  ∧ (∀ cache scope,
       (TestConnection serverID
          ({| ctx := scope; configs := configs σ.1; toolsets := cache |}, σ.2)).1
       = r.1).
Proof.
  intros Hcfg c impl answer r. subst c impl answer r.
  split; [by apply TestConnection_known|].
  unfold TestConnection, Connect. munfold. simpl. rewrite Hcfg. simpl.
  destruct (client_Connect _ _ _ _) as [session|err] eqn:Hc; simpl.
  - split_and!; [done| |done]. split; [by eexists|done].
  - split_and!; [done| |done]. split; [done|]. by intros [? ?].
Qed.

Lemma count_app p (l1 l2 : list Event) :
  count p (l1 ++ l2) = count p l1 + count p l2.
Proof. induction l1 as [|e l1 IH]; simpl; [done|]. rewrite IH. lia. Qed.

(** What one catalog request does. *)
Lemma GetServerTools_run serverID σ :
  ∃ evs,
    (GetServerTools serverID σ).2 =
      (σ.1, {| trace := trace σ.2 ++ evs; ranges := ranges σ.2 |})
    ∧ count is_close evs = count is_list evs
    ∧ count is_list evs ≤ count is_connect evs
    ∧ count is_connect evs =
        match configs σ.1 !! serverID with Some _ => 1 | None => 0 end
    ∧ Forall (λ e, ∀ c, event_ctx e = Some c → c = WithTimeout Background 10) evs
    ∧ (∀ tools, (GetServerTools serverID σ).1 = inl tools →
         ∀ info, info ∈ tools →
           ServerID info = serverID
           ∧ ∃ cfg, configs σ.1 !! serverID = Some cfg
                    ∧ ServerName info = models.Name cfg).
Proof.
  unfold GetServerTools, Connect. munfold. simpl.
  destruct (configs σ.1 !! serverID) as [cfg|] eqn:Hcfg.
  2: { exists []. rewrite app_nil_r. destruct σ as [m [h n]]. simpl.
       split_and!; try done. intros tools [= <-] info Hin.
       by apply elem_of_nil in Hin. }
  simpl. destruct (client_Connect _ _ _ _) as [session|err] eqn:Hc; simpl.
  - exists [EvConnect (WithTimeout Background 10)
              {| ImplName := models.Name cfg; ImplVersion := "1.0.0" |}
              (createTransport cfg);
            EvListTools (WithTimeout Background 10) session;
            EvSessionClose session].
    split_and!.
    + destruct (session_ListTools _ _ _); simpl; by rewrite <- !app_assoc.
    + done.
    + simpl. lia.
    + done.
    + repeat constructor; simpl; by intros ? [= <-].
    + destruct (session_ListTools _ _ _) as [tools|err]; simpl; [|done].
      intros ? [= <-] info (t & -> & _)%list_elem_of_fmap. simpl.
      split; [done|]. by exists cfg.
  - exists [EvConnect (WithTimeout Background 10)
              {| ImplName := models.Name cfg; ImplVersion := "1.0.0" |}
              (createTransport cfg)].
    split_and!.
    + done.
    + done.
    + simpl. lia.
    + done.
    + repeat constructor; simpl; by intros ? [= <-].
    + done.
Qed.

Lemma GetServerTools_unknown serverID σ :
  configs σ.1 !! serverID = None → GetServerTools serverID σ = (inl [], σ).
Proof. intros Hcfg. unfold GetServerTools. munfold. simpl. by rewrite Hcfg. Qed.

(** X9. [GetServerTools] returns the empty result and calls nothing for an
    id that is not enabled; for an enabled id it makes one connection
    attempt under the deadline of 10 and, when that fails, returns the
    failure and calls nothing else; when it succeeds the tools are listed
    once and the session is closed once, after the listing, whether the
    listing failed or not, and the tools come back in the server's order,
    each with the id asked for and the configured name of the server. *)
Theorem GetServerTools_closes_its_session serverID σ :
  (configs σ.1 !! serverID = None → GetServerTools serverID σ = (inl [], σ))
  ∧ (∀ cfg, configs σ.1 !! serverID = Some cfg →
       let c := WithTimeout Background 10 in
       let connect := EvConnect c {| ImplName := models.Name cfg; ImplVersion := "1.0.0" |}
                        (createTransport cfg) in
       let h := trace σ.2 ++ [connect] in
       match client_Connect (trace σ.2) c
               {| ImplName := models.Name cfg; ImplVersion := "1.0.0" |}
               (createTransport cfg) with
       | inr err =>
           GetServerTools serverID σ =
             (inr err, (σ.1, {| trace := h; ranges := ranges σ.2 |}))
       | inl session =>
           GetServerTools serverID σ =
             (match session_ListTools h c session with
              | inr err => inr err
              | inl tools => inl (stamp serverID cfg <$> tools)
              end,
              (σ.1, {| trace := h ++ [EvListTools c session; EvSessionClose session];
                       ranges := ranges σ.2 |}))
       end).
Proof.
  split; [apply GetServerTools_unknown|].
  - intros cfg Hcfg. simpl.
    unfold GetServerTools, Connect. munfold. simpl. rewrite Hcfg. simpl.
    destruct (client_Connect _ _ _ _) as [session|err]; simpl; [|done].
    destruct (session_ListTools _ _ _); simpl; by rewrite <- !app_assoc.
Qed.

Lemma GetToolInfosByServerIDs_run serverIDs acc σ :
  ∃ evs,
    (for_range serverIDs acc
       (λ allTools id,
          r ← GetServerTools id;
          match r with
          | inr _ => mret allTools
          | inl tools => mret (allTools ++ tools)
          end) σ).2 =
      (σ.1, {| trace := trace σ.2 ++ evs; ranges := ranges σ.2 |})
    ∧ count is_close evs = count is_list evs
    ∧ count is_list evs ≤ count is_connect evs
    ∧ count is_connect evs =
        length (filter (λ id, is_Some (configs σ.1 !! id)) serverIDs)
    ∧ Forall (λ e, ∀ c, event_ctx e = Some c → c = WithTimeout Background 10) evs
    ∧ (∀ info,
         info ∈ (for_range serverIDs acc
                   (λ allTools id,
                      r ← GetServerTools id;
                      match r with
                      | inr _ => mret allTools
                      | inl tools => mret (allTools ++ tools)
                      end) σ).1 →
         info ∈ acc
         ∨ (ServerID info ∈ serverIDs
            ∧ ∃ cfg, configs σ.1 !! ServerID info = Some cfg
                     ∧ ServerName info = models.Name cfg)).
Proof.
  revert acc σ. induction serverIDs as [|id ids IH]; intros acc σ.
  { exists []. simpl. rewrite app_nil_r. destruct σ as [m [h n]].
    split_and!; try done. intros info Hin. by left. }
  rewrite for_range_cons. munfold.
  destruct (GetServerTools_run id σ) as (evs1 & Hs1 & Hb1 & Hl1 & Hc1 & Hx1 & Ht1).
  destruct (GetServerTools id σ) as [res σ1]. simpl in Hs1, Ht1. subst σ1.
  assert (Hrest : ∀ acc1,
    (∀ info, info ∈ acc1 →
       info ∈ acc ∨ (ServerID info = id
                     ∧ ∃ cfg, configs σ.1 !! id = Some cfg
                              ∧ ServerName info = models.Name cfg)) →
    ∃ evs,
      (for_range ids acc1
         (λ allTools id,
            r ← GetServerTools id;
            match r with
            | inr _ => mret allTools
            | inl tools => mret (allTools ++ tools)
            end)
         (σ.1, {| trace := trace σ.2 ++ evs1; ranges := ranges σ.2 |})).2 =
        (σ.1, {| trace := trace σ.2 ++ evs; ranges := ranges σ.2 |})
      ∧ count is_close evs = count is_list evs
      ∧ count is_list evs ≤ count is_connect evs
      ∧ count is_connect evs =
          length (filter (λ id, is_Some (configs σ.1 !! id)) (id :: ids))
      ∧ Forall (λ e, ∀ c, event_ctx e = Some c → c = WithTimeout Background 10) evs
      ∧ (∀ info,
           info ∈ (for_range ids acc1
                     (λ allTools id,
                        r ← GetServerTools id;
                        match r with
                        | inr _ => mret allTools
                        | inl tools => mret (allTools ++ tools)
                        end)
                     (σ.1, {| trace := trace σ.2 ++ evs1; ranges := ranges σ.2 |})).1 →
           info ∈ acc
           ∨ (ServerID info ∈ id :: ids
              ∧ ∃ cfg, configs σ.1 !! ServerID info = Some cfg
                       ∧ ServerName info = models.Name cfg))).
  { intros acc1 Hacc1. munfold.
    destruct (IH acc1 (σ.1, {| trace := trace σ.2 ++ evs1; ranges := ranges σ.2 |}))
      as (evs2 & Hs2 & Hb2 & Hl2 & Hc2 & Hx2 & Ht2).
    simpl in Hs2, Hc2, Ht2.
    exists (evs1 ++ evs2). split_and!.
    - rewrite Hs2. by rewrite <- app_assoc.
    - rewrite !count_app. lia.
    - rewrite !count_app. lia.
    - rewrite count_app, Hc1, Hc2, filter_cons.
      destruct (configs σ.1 !! id) as [cfg|] eqn:Hcfg.
      + by rewrite decide_True by by eexists.
      + by rewrite decide_False by by intros [? ?].
    - by apply Forall_app.
    - intros info Hin.
      destruct (Ht2 info Hin) as [Hacc|(Hsrv & cfg & Hcfg & Hname)].
      + destruct (Hacc1 info Hacc) as [?|(-> & cfg & Hcfg & Hname)]; [by left|].
        right. split; [left|]. by exists cfg.
      + right. split; [by right|]. by exists cfg. }
  destruct res as [tools|err]; simpl; apply Hrest.
  - intros info [Hacc|Hnew]%elem_of_app; [by left|].
    right. destruct (Ht1 tools eq_refl info Hnew) as (-> & cfg & Hcfg & Hname).
    split; [done|]. by exists cfg.
  - intros info Hacc. by left.
Qed.

Lemma GetToolInfosByServerIDs_unknown serverIDs σ :
  (∀ id, id ∈ serverIDs → configs σ.1 !! id = None) →
  GetToolInfosByServerIDs serverIDs σ = ([], σ).
Proof.
  unfold GetToolInfosByServerIDs. generalize (@nil ToolInfo) as acc.
  induction serverIDs as [|id ids IH]; intros acc Hnone; [done|].
  rewrite for_range_cons. munfold.
  rewrite GetServerTools_unknown by (apply Hnone; left). simpl.
  rewrite app_nil_r. apply IH. intros id' Hin. apply Hnone. by right.
Qed.

(** X10. [GetToolInfosByServerIDs] never fails and never touches the
    manager.  Every tool it reports carries the id of one of the servers
    asked for, which is an enabled one, and that server's configured name.
    It makes one connection attempt for each id asked for that is enabled
    (none for the others), each under the deadline of 10; every session it
    lists tools on it also closes; and for the empty list, or when none of
    the ids is enabled, it returns the empty list and calls nothing. *)
Theorem GetToolInfosByServerIDs_attributes_tools serverIDs σ :
  let r := GetToolInfosByServerIDs serverIDs σ in
  r.2.1 = σ.1
  ∧ (∀ info, info ∈ r.1 →
       ServerID info ∈ serverIDs
       ∧ ∃ cfg, configs σ.1 !! ServerID info = Some cfg
                ∧ ServerName info = models.Name cfg)
  ∧ (∃ evs,
       trace r.2.2 = trace σ.2 ++ evs
       ∧ count is_connect evs =
           length (filter (λ id, is_Some (configs σ.1 !! id)) serverIDs)
       ∧ count is_close evs = count is_list evs
       ∧ count is_list evs ≤ count is_connect evs
       ∧ Forall (λ e, ∀ c, event_ctx e = Some c → c = WithTimeout Background 10) evs)
  ∧ ((∀ id, id ∈ serverIDs → configs σ.1 !! id = None) → r = ([], σ)).
Proof.
  intros r. subst r.
  destruct (GetToolInfosByServerIDs_run serverIDs [] σ)
    as (evs & Hs & Hb & Hl & Hc & Hx & Ht).
  fold (GetToolInfosByServerIDs serverIDs) in Hs, Ht. simpl in Hs, Ht.
  split_and!.
  - by rewrite Hs.
  - intros info Hin. destruct (Ht info Hin) as [Hnil|?]; [|done].
    by apply elem_of_nil in Hnil.
  - exists evs. rewrite Hs. by split_and!.
  - apply GetToolInfosByServerIDs_unknown.
Qed.

(** X11. [CreateToolset] builds a connection for whatever config it is
    given, enabled or not, cached or not, with one call to [mcptoolset.New];
    in a state reached by calls the connection it returns is a new object,
    different from every cached connection, made for that config's
    transport. *)
Theorem CreateToolset_bypasses_the_cache ops w cfg :
  let σ := run ops w in
  let r := CreateToolset cfg σ in
  r.2 = (σ.1, {| trace := trace σ.2 ++ [build_event cfg]; ranges := ranges σ.2 |})
  ∧ (r.1 = match mcptoolset_New_err (trace σ.2) (createTransport cfg) with
           | Some err => inr err
           | None => inl {| ts_ptr := length (trace σ.2);
                            ts_transport := createTransport cfg |}
           end)
  ∧ (∀ ts, r.1 = inl ts →
       ts_transport ts = createTransport cfg
       ∧ ∀ id ts', toolsets σ.1 !! id = Some ts' → ts_ptr ts' ≠ ts_ptr ts).
Proof.
  intros σ r. subst σ r. unfold CreateToolset.
  rewrite createToolsetLocked_eq. simpl. unfold build_answer.
  split_and!; [done..|].
  destruct (mcptoolset_New_err _ _); [done|].
  intros ts [= <-]. simpl. split; [done|].
  intros id ts' Hts'. destruct (run_good ops w) as [_ Hf].
  specialize (Hf id ts' Hts'). lia.
Qed.

End manager_more.

(** ** More on the factory *)

Section factory_more.

Import go ext adk obs.

Context {consts : models.Constants} {rt : Runtime}.

Implicit Types (c : Context) (config : models.AIConfig) (w : World).

(** *** Computations that only append to the trace *)

Lemma adds_ret {A} (P : Event → Prop) (a : A) : adds P (mret a : M World A).
Proof. intros [h n]. exists []. simpl. by rewrite app_nil_r. Qed.

Lemma adds_bind {A B} (P : Event → Prop) (m : M World A) (k : A → M World B) :
  adds P m → (∀ a, adds P (k a)) → adds P (m ≫= k).
Proof.
  intros Hm Hk w. unfold mbind, M_bind.
  destruct (Hm w) as (evs1 & Hw1 & HP1). destruct (m w) as [a w1].
  simpl in Hw1. subst w1.
  destruct (Hk a {| trace := trace w ++ evs1; ranges := ranges w |})
    as (evs2 & Hw2 & HP2).
  exists (evs1 ++ evs2). simpl in Hw2. rewrite Hw2, <- app_assoc.
  split; [done|]. by apply Forall_app.
Qed.

Lemma adds_call {A} (P : Event → Prop) (e : Event) (answer : list Event → A) :
  P e → adds P (call e answer).
Proof. intros He w. exists [e]. split; [done|]. by repeat constructor. Qed.

Lemma adds_gemini_NewModel (P : Event → Prop) c name cfg :
  P (EvGeminiNewModel c name cfg) → adds P (gemini_NewModel c name cfg).
Proof. apply adds_call. Qed.

Lemma adds_createVertexAIModel (P : Event → Prop) c config :
  (∀ e, event_ctx e = None → P e) →
  (∀ name cfg, P (EvGeminiNewModel c name cfg)) →
  adds P (createVertexAIModel c config).
Proof.
  intros Hnone Hnew. unfold createVertexAIModel.
  apply adds_bind.
  - destruct (negb _); (apply adds_bind; [by apply adds_call, Hnone|]);
      intros [creds|err]; apply adds_ret.
  - intros [creds|err]; [|apply adds_ret].
    apply adds_bind; [by apply adds_call, Hnone|].
    intros [err|]; [apply adds_ret|]. apply adds_gemini_NewModel, Hnew.
Qed.

Lemma adds_testViaGenerate (P : Event → Prop) c llm :
  (∀ req, P (EvGenerateContent c llm req)) → adds P (testViaGenerate c llm).
Proof.
  intros Hgen. unfold testViaGenerate.
  apply adds_bind; [apply adds_call, Hgen|].
  intros [|[resp [err|]] items]; apply adds_ret.
Qed.

Lemma adds_testOpenAIConnection (P : Event → Prop) c config :
  (∀ t req, P (EvHTTPDo c t req)) → adds P (testOpenAIConnection c config).
Proof.
  intros Hdo. unfold testOpenAIConnection.
  destruct (json_Marshal _) as [jsonBody|err]; [|apply adds_ret].
  destruct (http_NewRequest_err _ _); [apply adds_ret|].
  apply adds_bind; [apply adds_call, Hdo|].
  intros [resp|err]; [|apply adds_ret].
  destruct (StatusCode resp =? 200)%Z; apply adds_ret.
Qed.

(** X12. Whatever the provider kind and whatever the libraries answer,
    [TestConnection] and [CreateModel] only append calls to the trace; every
    call [TestConnection] makes that takes a context is made under the
    deadline of 15 derived from the caller's context, and every such call of
    [CreateModel] under the caller's context itself. *)
Theorem factory_calls_are_under_the_deadline c config :
  adds (λ e, ∀ c', event_ctx e = Some c' → c' = WithTimeout c 15)
       (TestConnection c config)
  ∧ adds (λ e, ∀ c', event_ctx e = Some c' → c' = c) (CreateModel c config).
Proof.
  split.
  - unfold TestConnection.
    destruct (decide (models.Provider config = models.AIProviderOpenAI)).
    { apply adds_testOpenAIConnection. by intros t req c' [= <-]. }
    destruct (decide (models.Provider config = models.AIProviderGemini)).
    { unfold testGeminiConnection, createGeminiModel. apply adds_bind.
      - apply adds_gemini_NewModel. by intros c' [= <-].
      - intros [llm|err]; [|apply adds_ret].
        apply adds_testViaGenerate. by intros req c' [= <-]. }
    destruct (decide (models.Provider config = models.AIProviderVertexAI));
      [|apply adds_ret].
    unfold testVertexAIConnection. apply adds_bind.
    + apply adds_createVertexAIModel.
      * intros ev He c'. by rewrite He.
      * by intros name cfg c' [= <-].
    + intros [llm|err]; [|apply adds_ret].
      apply adds_testViaGenerate. by intros req c' [= <-].
  - unfold CreateModel.
    destruct (decide (models.Provider config = models.AIProviderGemini)).
    { unfold createGeminiModel. apply adds_gemini_NewModel. by intros c' [= <-]. }
    destruct (decide (models.Provider config = models.AIProviderVertexAI)).
    { apply adds_createVertexAIModel.
      - intros ev He c'. by rewrite He.
      - by intros name cfg c' [= <-]. }
    destruct (decide (models.Provider config = models.AIProviderOpenAI));
      [|apply adds_ret].
    destruct (models.UseResponses config); apply adds_ret.
Qed.

(** *** The OpenAI kind *)

Lemma append_snoc_last (p q : string) (a b : ascii) :
  p +:+ String a "" = q +:+ String b "" → a = b.
Proof.
  revert q. induction p as [|x p IH]; intros [|y q] Heq.
  - by injection Heq.
  - rewrite append_nil_l, append_cons in Heq. injection Heq as _ Heq.
    symmetry in Heq. by apply append_snoc_nonempty in Heq.
  - rewrite append_nil_l, append_cons in Heq. injection Heq as _ Heq.
    by apply append_snoc_nonempty in Heq.
  - rewrite !append_cons in Heq. injection Heq as _ Heq. by eapply IH.
Qed.

Lemma versioned_no_trailing_slash (p : string) :
  GoStrings.HasSuffix (p +:+ "/v1") "/" = false.
Proof.
  destruct (GoStrings.HasSuffix (p +:+ "/v1") "/") eqn:Hs; [|done].
  apply HasSuffix_inv in Hs as [q Hq].
  change "/v1" with ("/v" +:+ "1") in Hq. rewrite <- append_assoc in Hq.
  by apply append_snoc_last in Hq.
Qed.

Lemma probe_url_eq config :
  probe_url config =
    normalizeOpenAIBaseURL (models.BaseURL config) +:+ "/chat/completions".
Proof.
  unfold probe_url. simpl.
  destruct (normalize_is_versioned (models.BaseURL config)) as [p ->].
  unfold GoStrings.TrimSuffix. by rewrite versioned_no_trailing_slash.
Qed.

(** X13. For the OpenAI kind [CreateModel] cannot fail and makes no call to
    the outside; the client it returns is of the responses style exactly when
    the config asks for it, carries the config's model name and key and the
    proxy transport, and has the normalised base URL, which ends with the
    version suffix.  The URL the connectivity probe posts to is that same
    base URL followed by [/chat/completions], for every config. *)
Theorem CreateModel_openai_is_pure c config w :
  models.Provider config ≠ models.AIProviderGemini →
  models.Provider config ≠ models.AIProviderVertexAI →
  models.Provider config = models.AIProviderOpenAI →
  let url := normalizeOpenAIBaseURL (models.BaseURL config) in
  CreateModel c config w =
    (inl (if models.UseResponses config
          then ResponsesModel (models.ModelName config) (models.APIKey config)
                 url GetTransport
          else OpenAIModel (models.ModelName config)
                 {| authToken := models.APIKey config;
                    OpenAIBaseURL := url;
                    OpenAIHTTPClient := Some GetTransport |}), w)
  ∧ GoStrings.HasSuffix url "/v1" = true
  ∧ normalizeOpenAIBaseURL url = url
  ∧ probe_url config = url +:+ "/chat/completions".
Proof.
  intros Hg Hv Ho url. subst url. split_and!.
  - unfold CreateModel.
    destruct (decide (models.Provider config = models.AIProviderGemini)); [done|].
    destruct (decide (models.Provider config = models.AIProviderVertexAI)); [done|].
    destruct (decide (models.Provider config = models.AIProviderOpenAI)); [|done].
    by destruct (models.UseResponses config).
  - destruct (normalize_is_versioned (models.BaseURL config)) as [p ->].
    apply HasSuffix_append.
  - destruct (normalize_is_versioned (models.BaseURL config)) as [p ->].
    apply normalize_versioned.
  - apply probe_url_eq.
Qed.

(** X14. The OpenAI probe calls [http.Client.Do] at most once; what the
    client does inside that one call, following redirects included, is the
    library's and is not counted here.  The call goes through the proxy
    transport under the caller's context, with a POST request to the
    normalised base URL followed by [/chat/completions], the headers
    [Content-Type: application/json] and [Authorization: Bearer] with the
    config's key, and as body the marshalled object of the config's model
    name, [max_tokens] 1 and the single user message [hi].  [Do] is not called
    when the body cannot be marshalled or the request cannot be created; in
    those cases and when [Do] fails the probe returns an error that wraps the
    library's error behind the message of the step that failed. *)
Theorem testOpenAIConnection_calls_Do_at_most_once c config w :
  let url := normalizeOpenAIBaseURL (models.BaseURL config) +:+ "/chat/completions" in
  let body :=
    JObject [("max_tokens", JInt 1);
             ("messages", JArray [JObject [("content", JString "hi");
                                           ("role", JString "user")]]);
             ("model", JString (models.ModelName config))] in
  let request jsonBody :=
    {| Method := "POST"; URL := url; ReqBody := jsonBody;
       Header := [("Content-Type", "application/json");
                  ("Authorization", "Bearer " +:+ models.APIKey config)] |} in
  (∀ err, json_Marshal body = inr err →
     testOpenAIConnection c config w =
       (Some (wrapError ("请求构造失败: " +:+ Error err) err), w))
  ∧ (∀ jsonBody err,
       json_Marshal body = inl jsonBody →
       http_NewRequest_err "POST" url = Some err →
       testOpenAIConnection c config w =
         (Some (wrapError ("请求创建失败: " +:+ Error err) err), w))
  ∧ (∀ jsonBody err,
       json_Marshal body = inl jsonBody →
       http_NewRequest_err "POST" url = None →
       client_Do (trace w) c ProxyTransport (request jsonBody) = inr err →
       testOpenAIConnection c config w =
         (Some (wrapError ("连接失败: " +:+ Error err) err),
          {| trace := trace w ++ [EvHTTPDo c ProxyTransport (request jsonBody)];
             ranges := ranges w |}))
  ∧ (∀ jsonBody resp,
       json_Marshal body = inl jsonBody →
       http_NewRequest_err "POST" url = None →
       client_Do (trace w) c ProxyTransport (request jsonBody) = inl resp →
       (testOpenAIConnection c config w).2 =
         {| trace := trace w ++ [EvHTTPDo c ProxyTransport (request jsonBody)];
            ranges := ranges w |})
  ∧ (∃ evs,
       (testOpenAIConnection c config w).2 =
         {| trace := trace w ++ evs; ranges := ranges w |}
       ∧ length evs ≤ 1
       ∧ Forall (λ e, ∃ jsonBody,
                   json_Marshal body = inl jsonBody
                   ∧ http_NewRequest_err "POST" url = None
                   ∧ e = EvHTTPDo c ProxyTransport (request jsonBody)) evs).
Proof.
  intros url body request. subst url body request.
  rewrite <- (probe_url_eq config).
  change (JObject _) with (probe_body (models.ModelName config)).
  split_and!.
  - intros err Hj. unfold testOpenAIConnection. by rewrite Hj.
  - intros jsonBody err Hj Hr. unfold testOpenAIConnection. by rewrite Hj, Hr.
  - intros jsonBody err Hj Hr Hd. unfold testOpenAIConnection. rewrite Hj, Hr.
    munfold. simpl.
    change (client_Do (trace w) c GetTransport (probe_request config jsonBody)
            = inr err) in Hd.
    by rewrite Hd.
  - intros jsonBody resp Hj Hr Hd. unfold testOpenAIConnection. rewrite Hj, Hr.
    munfold. simpl.
    change (client_Do (trace w) c GetTransport (probe_request config jsonBody)
            = inl resp) in Hd.
    rewrite Hd. by destruct (StatusCode resp =? 200)%Z.
  - unfold testOpenAIConnection.
    destruct (json_Marshal _) as [jsonBody|err] eqn:Hj.
    2: { exists []. destruct w. simpl. rewrite app_nil_r.
         split_and!; [done|lia|constructor]. }
    destruct (http_NewRequest_err _ _) as [err|] eqn:Hr.
    { exists []. destruct w. simpl. rewrite app_nil_r.
      split_and!; [done|lia|constructor]. }
    exists [EvHTTPDo c GetTransport (probe_request config jsonBody)].
    munfold. simpl. split_and!.
    + destruct (client_Do _ _ _ _) as [resp|err]; [|done].
      by destruct (StatusCode resp =? 200)%Z.
    + simpl. lia.
    + repeat constructor. by exists jsonBody.
Qed.

(** *** The probes that generate *)

Lemma testViaGenerate_eq c llm w :
  testViaGenerate c llm w =
    (match head (llm_GenerateContent (trace w) c llm
                   {| ReqRole := "user"; ReqText := "hi"; MaxOutputTokens := 1 |}) with
     | Some (_, Some err) => Some (Errorf_w "调用失败: " err)
     | _ => None
     end,
     {| trace := trace w ++ [EvGenerateContent c llm
                               {| ReqRole := "user"; ReqText := "hi";
                                  MaxOutputTokens := 1 |}];
        ranges := ranges w |}).
Proof.
  unfold testViaGenerate. munfold. simpl.
  by destruct (llm_GenerateContent _ _ _ _) as [|[resp [err|]] rest].
Qed.

(** X15. For the Gemini kind the connectivity probe builds the model and,
    only if that succeeds, asks it once for at most one output token, both
    under the deadline of 15.  It passes exactly when the model could be
    built and the first item of the answer carries no error: an empty answer
    passes, and items after the first are not looked at.  A failure to build
    is returned wrapped, with no generation attempted; an error in the first
    item is returned wrapped. *)
Theorem TestConnection_gemini_looks_at_the_first_item c config w :
  models.Provider config ≠ models.AIProviderOpenAI →
  models.Provider config = models.AIProviderGemini →
  let c' := WithTimeout c 15 in
  let name := models.ModelName config in
  let cfg := {| CfgAPIKey := models.APIKey config; CfgBackend := BackendGeminiAPI;
                CfgProject := ""; CfgLocation := ""; CfgCredentials := None;
                CfgHTTPClient := GetTransport |} in
  let req := {| ReqRole := "user"; ReqText := "hi"; MaxOutputTokens := 1 |} in
  let h1 := trace w ++ [EvGeminiNewModel c' name cfg] in
  let items := llm_GenerateContent h1 c' (GeminiModel name cfg) req in
  (∀ err, gemini_NewModel_err (trace w) c' name cfg = Some err →
     TestConnection c config w =
       (Some (Errorf_w "客户端创建失败: " err), {| trace := h1; ranges := ranges w |}))
  ∧ (gemini_NewModel_err (trace w) c' name cfg = None →
     (TestConnection c config w).2 =
       {| trace := h1 ++ [EvGenerateContent c' (GeminiModel name cfg) req];
          ranges := ranges w |}
     ∧ (items = [] → (TestConnection c config w).1 = None)
     ∧ (∀ resp rest, items = (resp, None) :: rest →
          (TestConnection c config w).1 = None)
     ∧ (∀ resp err rest, items = (resp, Some err) :: rest →
          (TestConnection c config w).1 = Some (Errorf_w "调用失败: " err)))
  ∧ ((TestConnection c config w).1 = None ↔
     gemini_NewModel_err (trace w) c' name cfg = None
     ∧ ∀ resp err, head items ≠ Some (resp, Some err)).
Proof.
  intros Ho Hg c' name cfg req h1 items. subst c' name cfg req h1 items.
  unfold TestConnection.
  destruct (decide (models.Provider config = models.AIProviderOpenAI)); [done|].
  destruct (decide (models.Provider config = models.AIProviderGemini)); [|done].
  unfold testGeminiConnection, createGeminiModel, gemini_NewModel. munfold. simpl.
  destruct (gemini_NewModel_err _ _ _ _) as [err0|] eqn:Hnew; simpl.
  { split_and!; [by intros ? [= <-]|done|]. split; [done|by intros [? _]]. }
  rewrite testViaGenerate_eq. simpl.
  destruct (llm_GenerateContent _ _ _ _) as [|[resp [err|]] rest]; simpl.
  all: split_and!; try done.
  all: try (intros _; split_and!; try done).
  all: try (by intros ? ? ? [= <- <- <-]).
  all: try (split; [done|]; intros [_ Hno]; by destruct (Hno resp err)).
  all: try (split; [|done]; intros _; split; [done|]; by intros ? ?).
Qed.

(** *** The Vertex AI kind *)

(** X16. Building a Vertex AI model goes through three stages and stops at
    the first that fails: credentials are looked up once, from the
    credentials blob exactly when the config carries a non-empty one and from
    the ambient defaults otherwise; then the authenticating client is made
    over the proxy transport; then the model is made for the config's
    project and location.  A failed stage is the last call made, and the
    error returned wraps that stage's error (the model stage's error is
    returned as it is). *)
Theorem createVertexAIModel_stops_at_the_first_failure c config w :
  let json := models.CredentialsJSON config in
  let opts := {| Scopes := [cloud_platform_scope];
                 OptCredentialsJSON := if String.eqb json "" then None else Some json;
                 OptClient := GetTransport |} in
  let h1 := trace w ++ [EvDetectDefault opts] in
  match credentials_DetectDefault (trace w) opts with
  | inr err =>
      createVertexAIModel c config w =
        (inr (Errorf_w (if String.eqb json "" then "failed to detect default credentials: "
                        else "failed to create credentials: ") err),
         {| trace := h1; ranges := ranges w |})
  | inl creds =>
      let h2 := h1 ++ [EvAuthNewClient creds GetTransport] in
      match httptransport_NewClient_err h1 creds GetTransport with
      | Some err =>
          createVertexAIModel c config w =
            (inr (Errorf_w "failed to create authenticated HTTP client: " err),
             {| trace := h2; ranges := ranges w |})
      | None =>
          let cfg := {| CfgAPIKey := ""; CfgBackend := BackendVertexAI;
                        CfgProject := models.Project config;
                        CfgLocation := models.Location config;
                        CfgCredentials := Some creds;
                        CfgHTTPClient := AuthTransport creds GetTransport |} in
          createVertexAIModel c config w =
            (match gemini_NewModel_err h2 c (models.ModelName config) cfg with
             | Some err => inr err
             | None => inl (GeminiModel (models.ModelName config) cfg)
             end,
             {| trace := h2 ++ [EvGeminiNewModel c (models.ModelName config) cfg];
                ranges := ranges w |})
      end
  end.
Proof.
  simpl. unfold createVertexAIModel, gemini_NewModel. munfold. simpl.
  destruct (String.eqb (models.CredentialsJSON config) ""); simpl;
    (destruct (credentials_DetectDefault _ _) as [creds|err]; simpl; [|done]);
    (destruct (httptransport_NewClient_err _ _ _) as [err|]; simpl; [done|]);
    by destruct (gemini_NewModel_err _ _ _ _).
Qed.

End factory_more.

(** ** The theorems at the sample runtime *)

Section at_fixture.

Import go ext fixture.

#[local] Existing Instance fixture.constants.
#[local] Existing Instance fixture.runtime.

Lemma cache_keys_within_config_keys_witness :
  let σ := mcp.run [mcp.OpLoadConfigs [cfg_fs; cfg_web; cfg_off]] w0 in
  let σ' := mcp.exec (mcp.OpGetToolsetsByIDs ["fs"; "missing"]) σ in
  dom (mcp.toolsets σ.1) ⊆ dom (mcp.configs σ.1)
  ∧ dom (mcp.toolsets σ'.1) ⊆ dom (mcp.configs σ'.1).
Proof.
  intros σ σ'.
  assert (Hσ : dom (mcp.toolsets σ.1) ⊆ dom (mcp.configs σ.1)).
  { apply (bool_decide_unpack _). vm_compute. exact I. }
  split; [exact Hσ|].
  exact (proj1 (proj2 cache_keys_within_config_keys) _ σ Hσ).
Defined.

Lemma LoadConfigs_replaces_everything_witness :
  let σ := mcp.run [mcp.OpLoadConfigs [cfg_fs];
                    mcp.OpInitialize (Some (Scope 1))] w0 in
  let r := mcp.LoadConfigs [cfg_fs; cfg_off] σ in
  let σ0 := (mcp.NewManager, w0) in
  mcp.heap_fresh σ
  ∧ mcp.toolsets σ.1 !! "fs" = Some ts_fs
  ∧ mcp.toolsets r.2.1 !! "fs" ≠ Some ts_fs
  ∧ mcp.ctx σ0.1 = None
  ∧ mcp.toolsets (mcp.LoadConfigs [cfg_fs] σ0).2.1 = ∅
  ∧ (mcp.GetAllToolsets (mcp.LoadConfigs [] σ).2).1 = [].
Proof.
  intros σ r σ0.
  assert (Hfresh : mcp.heap_fresh σ) by apply run_good.
  assert (Hfs : mcp.toolsets σ.1 !! "fs" = Some ts_fs)
    by (vm_compute; reflexivity).
  assert (Hnone : mcp.ctx σ0.1 = None) by reflexivity.
  split; [exact Hfresh|]. split; [exact Hfs|].
  pose proof (LoadConfigs_replaces_everything [cfg_fs; cfg_off] σ)
    as (_ & _ & _ & _ & _ & _ & _ & _ & Hdrop & _).
  split; [exact (Hdrop Hfresh "fs" ts_fs "fs" Hfs)|].
  split; [exact Hnone|].
  pose proof (LoadConfigs_replaces_everything [cfg_fs] σ0)
    as (_ & _ & _ & _ & _ & _ & _ & _ & _ & Hunbound & _).
  split; [exact (Hunbound Hnone)|].
  pose proof (LoadConfigs_replaces_everything [] σ)
    as (_ & _ & _ & _ & _ & _ & _ & _ & _ & _ & Hnil).
  exact (proj2 (proj2 (Hnil eq_refl))).
Defined.

Lemma GetToolsetsByIDs_follows_input_order_witness :
  let σ := mcp.run [mcp.OpLoadConfigs [cfg_fs; cfg_web; cfg_off]] w0 in
  let ids := ["web"; "missing"; "fs"; "web"] in
  mcp.cache_coherent σ.1
  ∧ mcp.configs σ.1 !! "missing" = None
  ∧ ("missing" ∉ spec.kept_ids (spec.answers ids σ).1)
  ∧ mcp.GetToolsetsByIDs ["missing"] σ = ([], σ)
  ∧ "missing" ∈ ids
  ∧ mcp.toolsets σ.1 !! "missing" = None.
Proof.
  intros σ ids.
  assert (Hcoh : mcp.cache_coherent σ.1).
  { apply (bool_decide_unpack _). vm_compute. exact I. }
  assert (Hmiss : mcp.configs σ.1 !! "missing" = None)
    by (vm_compute; reflexivity).
  assert (Hin : "missing" ∈ ids) by (right; left).
  split; [exact Hcoh|]. split; [exact Hmiss|].
  pose proof (GetToolsetsByIDs_follows_input_order ids σ)
    as (_ & _ & _ & _ & _ & Hleft & Hskip & _ & _ & _ & Hone & _).
  split; [exact (Hskip Hcoh "missing" Hmiss)|].
  split; [exact (Hone Hcoh "missing" Hmiss)|].
  split; [exact Hin|].
  exact (proj1 (Hleft "missing" Hin (Hskip Hcoh "missing" Hmiss))).
Defined.

Lemma GetAllStatus_reports_enabled_ids_witness :
  let σ := mcp.run [mcp.OpLoadConfigs [cfg_fs; cfg_off]] w0 in
  list_to_set (mcp.ID <$> (mcp.GetAllStatus σ).1) = dom (mcp.configs σ.1).
Proof.
  intros σ.
  exact (proj1 (proj2 (proj2 (GetAllStatus_reports_enabled_ids σ)))).
Defined.

Lemma TestConnection_unknown_id_witness :
  mcp.configs mcp.NewManager !! "missing" = None
  ∧ mcp.TestConnection "missing" (mcp.NewManager, w0)
    = ({| mcp.ID := "missing"; mcp.Connected := false;
          mcp.Error := "服务器未配置" |},
       (mcp.NewManager, w0)).
Proof.
  assert (Hmiss : mcp.configs mcp.NewManager !! "missing" = None)
    by reflexivity.
  split; [exact Hmiss|].
  exact (TestConnection_unknown_id "missing" (mcp.NewManager, w0) Hmiss).
Defined.

(** C5, as the specification words it, fails: the message for an unknown id
    is not [configuration missing]. *)
Lemma TestConnection_message_counterexample :
  mcp.configs mcp.NewManager !! "missing" = None
  ∧ mcp.Error (mcp.TestConnection "missing" (mcp.NewManager, w0)).1
    ≠ "configuration missing".
Proof. split; [reflexivity|]. vm_compute. discriminate. Qed.

Lemma scope_is_set_by_Initialize_only_witness :
  let σ := (mcp.Initialize (Some (Scope 1)) (mcp.NewManager, w0)).2 in
  let o := mcp.OpLoadConfigs [cfg_fs] in
  (∀ c, o ≠ mcp.OpInitialize c)
  ∧ mcp.ctx (mcp.exec o σ).1 = mcp.ctx σ.1
  ∧ mcp.exec o (mcp.rebind (Some (Scope 2)) σ) =
      mcp.rebind (Some (Scope 2)) (mcp.exec o (mcp.rebind (Some (Scope 1)) σ)).
Proof.
  intros σ o.
  assert (Ho : ∀ c, o ≠ mcp.OpInitialize c) by (intros c; discriminate).
  split; [exact Ho|].
  split; [exact (proj1 (proj2 scope_is_set_by_Initialize_only) o σ Ho)|].
  exact (proj2 (proj2 (proj2 scope_is_set_by_Initialize_only))
           o (Scope 1) (Scope 2) σ Ho).
Defined.

(** C6, as the specification words it, fails: a second [Initialize] binds
    another scope. *)
Lemma Initialize_rebinds_counterexample :
  let σ1 := (mcp.Initialize (Some (Scope 1)) (mcp.NewManager, w0)).2 in
  let σ2 := (mcp.Initialize (Some (Scope 2)) σ1).2 in
  mcp.ctx σ1.1 = Some (Scope 1)
  ∧ mcp.ctx σ2.1 = Some (Scope 2)
  ∧ mcp.ctx σ2.1 ≠ mcp.ctx σ1.1.
Proof.
  intros σ1 σ2. split; [reflexivity|]. split; [reflexivity|].
  vm_compute. discriminate.
Qed.

Lemma normalizeOpenAIBaseURL_idempotent_witness :
  "http://host/v1/" ≠ ""
  ∧ adk.normalizeOpenAIBaseURL "http://host/v1/" =
      (if GoStrings.HasSuffix (GoStrings.TrimRight "http://host/v1/" "/") "/v1"
       then GoStrings.TrimRight "http://host/v1/" "/"
       else GoStrings.TrimRight "http://host/v1/" "/" +:+ "/v1").
Proof.
  assert (Hne : "http://host/v1/" ≠ "") by discriminate.
  split; [exact Hne|].
  pose proof normalizeOpenAIBaseURL_idempotent as (_ & _ & _ & Hs & _).
  exact (proj2 (proj2 (Hs "http://host/v1/" Hne))).
Defined.

Lemma testOpenAIConnection_succeeds_iff_200_witness :
  let resp := {| StatusCode := 500; Body := "server error" |} in
  json_Marshal (adk.probe_body (models.ModelName ai_openai)) = inl "{}"
  ∧ http_NewRequest_err "POST" (adk.probe_url ai_openai) = None
  ∧ client_Do (trace w0) Background adk.GetTransport
      (adk.probe_request ai_openai "{}") = inl resp
  ∧ StatusCode resp ≠ 200%Z
  ∧ StatusCode resp = 500%Z
  ∧ Body resp = "server error"
  ∧ (∃ msg body,
      (adk.testOpenAIConnection Background ai_openai w0).1 = Some (errorString msg)
      ∧ msg = "HTTP " +:+ fmt.itoa (StatusCode resp) +:+ ": " +:+ body
      ∧ body = substring 0 512 (Body resp)
      ∧ String.length body = 512 `min` String.length (Body resp)
      ∧ (∃ rest, Body resp = body +:+ rest)
      ∧ GoStrings.Contains msg (fmt.itoa (StatusCode resp)) = true
      ∧ GoStrings.Contains msg body = true)
  ∧ ((adk.testOpenAIConnection Background ai_openai w0).1
       = Some (errorString "HTTP 500: server error")
     ∧ GoStrings.Contains "HTTP 500: server error" "500" = true
     ∧ GoStrings.Contains "HTTP 500: server error" "server error" = true)
  ∧ Z.of_int <$> NilZero.int_of_string (fmt.itoa 500) = Some 500%Z
  ∧ fmt.itoa 500 = "500".
Proof.
  intros resp.
  assert (Hj : json_Marshal (adk.probe_body (models.ModelName ai_openai)) = inl "{}")
    by reflexivity.
  assert (Hr : http_NewRequest_err "POST" (adk.probe_url ai_openai) = None)
    by reflexivity.
  assert (Hd : client_Do (trace w0) Background adk.GetTransport
                 (adk.probe_request ai_openai "{}") = inl resp)
    by reflexivity.
  assert (Hs : StatusCode resp ≠ 200%Z) by discriminate.
  assert (Hs5 : StatusCode resp = 500%Z) by reflexivity.
  assert (Hb : Body resp = "server error") by reflexivity.
  pose proof (testOpenAIConnection_succeeds_iff_200 Background ai_openai w0)
    as (_ & Hresp & Hread & _ & _ & H500 & _).
  destruct (Hresp "{}" resp Hj Hr Hd) as (_ & Hmsg & Hlit).
  split; [exact Hj|]. split; [exact Hr|]. split; [exact Hd|]. split; [exact Hs|].
  split; [exact Hs5|]. split; [exact Hb|].
  split; [exact (Hmsg Hs)|]. split; [exact (Hlit Hs5 Hb)|].
  split; [exact (Hread 500%Z)|exact H500].
Defined.

(** The endpoint that answers [500 server error]: the message carries
    both. *)
Example testOpenAIConnection_server_error :
  (adk.TestConnection Background ai_openai w0).1
    = Some (errorString "HTTP 500: server error")
  ∧ GoStrings.Contains "HTTP 500: server error" "500" = true
  ∧ GoStrings.Contains "HTTP 500: server error" "server error" = true
  ∧ adk.probe_url ai_openai = "http://host/v1/chat/completions".
Proof. by vm_compute. Qed.

Lemma unsupported_provider_fails_fast_witness :
  (¬ adk.supported (models.Provider ai_other)
   ∧ adk.CreateModel Background ai_other w0 =
       (inr (errorString "unsupported provider: anthropic"), w0)
   ∧ adk.TestConnection Background ai_other w0 =
       (Some (errorString "不支持的 provider: anthropic"), w0))
  ∧ (adk.supported (models.Provider ai_gemini)
     ∧ (adk.CreateModel (rt := runtime_down) Background ai_gemini w0).1 =
         inr (errorString "no route to host")
     ∧ ∃ err, adk.collaborator_error (rt := runtime_down) err
              ∧ (errorString "no route to host" = err
                 ∨ ∃ prefix, errorString "no route to host" = Errorf_w prefix err))
  ∧ (adk.supported (models.Provider ai_openai)
     ∧ adk.collaborators_succeed (rt := runtime_ok)
     ∧ (∃ llm, (adk.CreateModel (rt := runtime_ok) Background ai_openai w0).1 = inl llm)
     ∧ (adk.TestConnection (rt := runtime_ok) Background ai_openai w0).1 = None).
Proof.
  assert (Hn : ¬ adk.supported (models.Provider ai_other)).
  { intros [Hp|[Hp|Hp]]; discriminate Hp. }
  assert (Hg : adk.supported (models.Provider ai_gemini)) by (left; reflexivity).
  assert (He : (adk.CreateModel (rt := runtime_down) Background ai_gemini w0).1 =
               inr (errorString "no route to host")) by reflexivity.
  assert (Ho : adk.supported (models.Provider ai_openai))
    by (right; right; reflexivity).
  assert (Hok : adk.collaborators_succeed (rt := runtime_ok)).
  { unfold adk.collaborators_succeed. simpl.
    split; [intros; eexists; reflexivity|].
    split; [reflexivity|]. split; [reflexivity|].
    split; [intros; eexists; reflexivity|]. split; [reflexivity|].
    split; [intros; eexists; split; reflexivity|].
    intros h c llm req item Hitem. injection Hitem as <-. reflexivity. }
  split.
  { split; [exact Hn|].
    exact (proj1 (unsupported_provider_fails_fast Background ai_other w0) Hn). }
  split.
  { split; [exact Hg|]. split; [exact He|].
    exact (proj1 (proj2 (unsupported_provider_fails_fast (rt := runtime_down)
                           Background ai_gemini w0)) Hg _ He). }
  split; [exact Ho|]. split; [exact Hok|].
  exact (proj2 (proj2 (unsupported_provider_fails_fast (rt := runtime_ok)
                         Background ai_openai w0)) Ho Hok).
Defined.

Lemma createTransport_falls_through_to_streamable_witness :
  models.TransportType cfg_web ≠ models.MCPTransportSSE
  ∧ models.TransportType cfg_web ≠ models.MCPTransportCommand
  ∧ mcp.createTransport cfg_web =
      StreamableClientTransport "http://localhost:9000/mcp" 3.
Proof.
  assert (Hsse : models.TransportType cfg_web ≠ models.MCPTransportSSE)
    by discriminate.
  assert (Hcmd : models.TransportType cfg_web ≠ models.MCPTransportCommand)
    by discriminate.
  split; [exact Hsse|]. split; [exact Hcmd|].
  exact (createTransport_falls_through_to_streamable cfg_web Hsse Hcmd).
Defined.

(** One enabled command config, then [Initialize]: [GetAllToolsets] returns
    the one connection, and returns it again on a second call. *)
Example GetAllToolsets_returns_cached :
  let σ := mcp.run [mcp.OpLoadConfigs [cfg_fs];
                    mcp.OpInitialize (Some (Scope 1))] w0 in
  (mcp.GetAllToolsets σ).1 = [ts_fs]
  ∧ (mcp.GetAllToolsets (mcp.GetAllToolsets σ).2).1 = [ts_fs].
Proof. by vm_compute. Qed.

(** An enabled and a disabled config: one status record, for the enabled
    one. *)
Example GetAllStatus_skips_disabled :
  (mcp.GetAllStatus (mcp.run [mcp.OpLoadConfigs [cfg_fs; cfg_off]] w0)).1
    = [{| mcp.ID := "fs"; mcp.Connected := false; mcp.Error := "" |}].
Proof. by vm_compute. Qed.

End at_fixture.

(** ** More theorems at the sample runtime *)

Section at_fixture_more.

Import go ext fixture.

#[local] Existing Instance fixture.constants.
#[local] Existing Instance fixture.runtime.

Lemma read_only_methods_keep_the_manager_witness :
  let σ := mcp.run [mcp.OpLoadConfigs [cfg_fs]] w0 in
  let o := mcp.OpTestConnection "fs" in
  obs.read_only o = true
  ∧ (mcp.exec o σ).1 = σ.1
  ∧ trace σ.2 `prefix_of` trace (mcp.exec o σ).2.
Proof.
  intros σ o.
  assert (Hro : obs.read_only o = true) by reflexivity.
  split; [exact Hro|].
  exact (read_only_methods_keep_the_manager o σ Hro).
Defined.

Lemma only_LoadConfigs_evicts_witness :
  let σ := mcp.run [mcp.OpLoadConfigs [cfg_fs]; mcp.OpInitialize (Some (Scope 1))] w0 in
  let ops := [mcp.OpInitialize (Some (Scope 2)); mcp.OpGetAllToolsets;
              mcp.OpTestConnection "fs"] in
  let σ' := foldl (λ s o, mcp.exec o s) σ ops in
  Forall (λ o, ∀ cfgs, o ≠ mcp.OpLoadConfigs cfgs) ops
  ∧ mcp.toolsets σ.1 !! "fs" = Some ts_fs
  ∧ mcp.configs σ'.1 = mcp.configs σ.1
  ∧ mcp.toolsets σ'.1 !! "fs" = Some ts_fs.
Proof.
  intros σ ops σ'.
  assert (Hops : Forall (λ o, ∀ cfgs, o ≠ mcp.OpLoadConfigs cfgs) ops)
    by (repeat constructor; intros cfgs; discriminate).
  assert (Hfs : mcp.toolsets σ.1 !! "fs" = Some ts_fs) by (vm_compute; reflexivity).
  split; [exact Hops|]. split; [exact Hfs|].
  pose proof (only_LoadConfigs_evicts ops σ Hops) as [Hk Hkeep].
  split; [exact Hk|exact (Hkeep "fs" ts_fs Hfs)].
Defined.

Lemma reachable_cache_is_current_witness :
  let ops := [mcp.OpLoadConfigs [cfg_fs; cfg_web];
              mcp.OpInitialize (Some (Scope 1))] in
  mcp.toolsets (mcp.run ops w0).1 !! "fs"
    = Some {| ts_ptr := 1; ts_transport := CommandTransport "fs-server" ["--stdio"] |}
  ∧ ∀ id' ts', mcp.toolsets (mcp.run ops w0).1 !! id' = Some ts' →
               ts_ptr ts' = 1 → id' = "fs".
Proof.
  intros ops.
  assert (Hfs : mcp.toolsets (mcp.run ops w0).1 !! "fs"
                = Some {| ts_ptr := 1;
                          ts_transport := CommandTransport "fs-server" ["--stdio"] |})
    by (vm_compute; reflexivity).
  split; [exact Hfs|].
  exact (proj2 (reachable_cache_is_current ops w0 "fs" _ Hfs)).
Defined.

Lemma pass_builds_what_is_pending_witness :
  let σ := mcp.run [mcp.OpLoadConfigs [cfg_fs; cfg_web];
                    mcp.OpInitialize (Some (Scope 1))] w0 in
  dom (mcp.configs σ.1) ⊆ dom (mcp.toolsets σ.1)
  ∧ omap (obs.pending σ.1) (range_configs (ranges σ.2) (mcp.configs σ.1)).*1 = []
  ∧ mcp.configs σ.1 !! "fs" = Some cfg_fs
  ∧ (is_Some (mcp.toolsets (mcp.GetAllToolsets σ).2.1 !! "fs")
     ∨ ∃ h err, trace σ.2 `prefix_of` h
                ∧ mcptoolset_New_err h (mcp.createTransport cfg_fs) = Some err).
Proof.
  intros σ.
  assert (Hsub : dom (mcp.configs σ.1) ⊆ dom (mcp.toolsets σ.1)).
  { apply (bool_decide_unpack _). vm_compute. exact I. }
  assert (Hfs : mcp.configs σ.1 !! "fs" = Some cfg_fs) by (vm_compute; reflexivity).
  pose proof (pass_builds_what_is_pending None σ)
    as (_ & _ & _ & _ & _ & _ & Hwarm & Hall).
  split; [exact Hsub|]. split; [exact (Hwarm Hsub)|]. split; [exact Hfs|].
  exact (Hall "fs" cfg_fs Hfs).
Defined.

Lemma LoadConfigs_warms_up_iff_bound_witness :
  let σ0 := (mcp.NewManager, w0) in
  let σ1 := mcp.run [mcp.OpInitialize (Some (Scope 1))] w0 in
  let r := mcp.LoadConfigs [cfg_fs; cfg_web; cfg_off] σ1 in
  mcp.ctx σ0.1 = None
  ∧ (mcp.LoadConfigs [cfg_fs] σ0).2.2 = σ0.2
  ∧ is_Some (mcp.ctx σ1.1)
  ∧ (∀ h t, mcptoolset_New_err h t = None)
  ∧ length (trace r.2.2) = length (trace σ1.2) + size (mcp.configs r.2.1)
  ∧ dom (mcp.toolsets r.2.1) = dom (mcp.configs r.2.1).
Proof.
  intros σ0 σ1 r.
  assert (Hnone : mcp.ctx σ0.1 = None) by reflexivity.
  assert (Hsome : is_Some (mcp.ctx σ1.1)) by (eexists; reflexivity).
  assert (Hok : ∀ h t, mcptoolset_New_err h t = None) by reflexivity.
  split; [exact Hnone|].
  split; [exact (proj1 (LoadConfigs_warms_up_iff_bound [cfg_fs] σ0) Hnone)|].
  split; [exact Hsome|]. split; [exact Hok|].
  pose proof (proj2 (LoadConfigs_warms_up_iff_bound [cfg_fs; cfg_web; cfg_off] σ1) Hsome)
    as (_ & Hlen & _ & Hdom).
  split; [exact Hlen|exact (Hdom Hok)].
Defined.

Lemma cache_read_when_nothing_pending_witness :
  let σ := mcp.run [mcp.OpLoadConfigs [cfg_fs; cfg_web];
                    mcp.OpInitialize (Some (Scope 1))] w0 in
  let ids := ["fs"; "missing"; "fs"] in
  (∀ id, id ∈ ids → obs.pending σ.1 id = None)
  ∧ mcp.GetToolsetsByIDs ids σ = (omap (λ id, mcp.toolsets σ.1 !! id) ids, σ)
  ∧ dom (mcp.configs σ.1) ⊆ dom (mcp.toolsets σ.1)
  ∧ trace (mcp.GetAllToolsets σ).2.2 = trace σ.2.
Proof.
  intros σ ids.
  assert (Hp : ∀ id, id ∈ ids → obs.pending σ.1 id = None).
  { intros id Hin. repeat (apply elem_of_cons in Hin as [->|Hin]);
      [vm_compute; reflexivity..|]. by apply elem_of_nil in Hin. }
  assert (Hsub : dom (mcp.configs σ.1) ⊆ dom (mcp.toolsets σ.1)).
  { apply (bool_decide_unpack _). vm_compute. exact I. }
  pose proof (cache_read_when_nothing_pending ids σ) as [Hread Hall].
  split; [exact Hp|]. split; [exact (Hread Hp)|]. split; [exact Hsub|].
  exact (proj2 (proj2 (proj2 (Hall Hsub)))).
Defined.

Lemma returned_connections_are_returned_again_witness :
  let σ := mcp.run [mcp.OpLoadConfigs [cfg_fs; cfg_web]] w0 in
  let ids := ["web"; "missing"; "fs"] in
  let ops := [mcp.OpGetAllStatus; mcp.OpInitialize (Some (Scope 1))] in
  let r1 := mcp.GetToolsetsByIDs ids σ in
  Forall (λ o, ∀ cfgs, o ≠ mcp.OpLoadConfigs cfgs) ops
  ∧ r1.1 `sublist_of`
      (mcp.GetToolsetsByIDs ids (foldl (λ s o, mcp.exec o s) r1.2 ops)).1.
Proof.
  intros σ ids ops r1.
  assert (Hops : Forall (λ o, ∀ cfgs, o ≠ mcp.OpLoadConfigs cfgs) ops)
    by (repeat constructor; intros cfgs; discriminate).
  split; [exact Hops|].
  exact (proj1 (returned_connections_are_returned_again ids ops σ Hops)).
Defined.

Lemma TestConnection_probes_once_witness :
  let σ := mcp.run [mcp.OpLoadConfigs [cfg_fs]] w0 in
  mcp.configs σ.1 !! "fs" = Some cfg_fs
  ∧ (mcp.TestConnection "fs" σ).1
    = {| mcp.ID := "fs"; mcp.Connected := true; mcp.Error := "" |}.
Proof.
  intros σ.
  assert (Hfs : mcp.configs σ.1 !! "fs" = Some cfg_fs) by (vm_compute; reflexivity).
  split; [exact Hfs|].
  exact (proj1 (proj2 (TestConnection_probes_once "fs" cfg_fs σ Hfs))).
Defined.

Lemma GetServerTools_closes_its_session_witness :
  let σ := mcp.run (rt := samples.runtime_one_tool) [mcp.OpLoadConfigs [cfg_fs]] w0 in
  mcp.configs σ.1 !! "missing" = None
  ∧ mcp.GetServerTools (rt := samples.runtime_one_tool) "missing" σ = (inl [], σ)
  ∧ mcp.configs σ.1 !! "fs" = Some cfg_fs
  ∧ (mcp.GetServerTools (rt := samples.runtime_one_tool) "fs" σ).1
    = inl [{| mcp.Name := "read_file"; mcp.Description := "reads a file";
              mcp.ServerID := "fs"; mcp.ServerName := "fs" |}].
Proof.
  intros σ.
  assert (Hmiss : mcp.configs σ.1 !! "missing" = None) by (vm_compute; reflexivity).
  assert (Hfs : mcp.configs σ.1 !! "fs" = Some cfg_fs) by (vm_compute; reflexivity).
  pose proof (GetServerTools_closes_its_session (rt := samples.runtime_one_tool) "missing" σ)
    as [Hunk _].
  pose proof (GetServerTools_closes_its_session (rt := samples.runtime_one_tool) "fs" σ)
    as [_ Hknown].
  split; [exact Hmiss|]. split; [exact (Hunk Hmiss)|]. split; [exact Hfs|].
  exact (f_equal fst (Hknown cfg_fs Hfs)).
Defined.

Lemma GetToolInfosByServerIDs_attributes_tools_witness :
  let σ := mcp.run (rt := samples.runtime_one_tool) [mcp.OpLoadConfigs [cfg_fs]] w0 in
  let info := {| mcp.Name := "read_file"; mcp.Description := "reads a file";
                 mcp.ServerID := "fs"; mcp.ServerName := "fs" |} in
  info ∈ (mcp.GetToolInfosByServerIDs (rt := samples.runtime_one_tool)
            ["missing"; "fs"] σ).1
  ∧ (∃ cfg, mcp.configs σ.1 !! mcp.ServerID info = Some cfg
            ∧ mcp.ServerName info = models.Name cfg)
  ∧ (∀ id, id ∈ ["missing"] → mcp.configs σ.1 !! id = None)
  ∧ mcp.GetToolInfosByServerIDs (rt := samples.runtime_one_tool) ["missing"] σ = ([], σ).
Proof.
  intros σ info.
  assert (Hin : info ∈ (mcp.GetToolInfosByServerIDs (rt := samples.runtime_one_tool)
                          ["missing"; "fs"] σ).1) by (vm_compute; left).
  assert (Hnone : ∀ id, id ∈ ["missing"] → mcp.configs σ.1 !! id = None).
  { intros id Hid. apply elem_of_cons in Hid as [->|Hid];
      [vm_compute; reflexivity|]. by apply elem_of_nil in Hid. }
  split; [exact Hin|].
  pose proof (GetToolInfosByServerIDs_attributes_tools
                (rt := samples.runtime_one_tool) ["missing"; "fs"] σ)
    as (_ & Hattr & _).
  split; [exact (proj2 (Hattr info Hin))|]. split; [exact Hnone|].
  exact (proj2 (proj2 (proj2 (GetToolInfosByServerIDs_attributes_tools
                                (rt := samples.runtime_one_tool) ["missing"] σ)))
           Hnone).
Defined.

Lemma CreateToolset_bypasses_the_cache_witness :
  let ops := [mcp.OpLoadConfigs [cfg_fs]; mcp.OpInitialize (Some (Scope 1))] in
  let ts := {| ts_ptr := 1; ts_transport := SSEClientTransport "http://localhost:9001/sse" |} in
  (mcp.CreateToolset cfg_off (mcp.run ops w0)).1 = inl ts
  ∧ ts_transport ts = mcp.createTransport cfg_off
  ∧ ∀ id ts', mcp.toolsets (mcp.run ops w0).1 !! id = Some ts' → ts_ptr ts' ≠ ts_ptr ts.
Proof.
  intros ops ts.
  assert (Hts : (mcp.CreateToolset cfg_off (mcp.run ops w0)).1 = inl ts)
    by (vm_compute; reflexivity).
  split; [exact Hts|].
  exact (proj2 (proj2 (CreateToolset_bypasses_the_cache ops w0 cfg_off)) ts Hts).
Defined.

Lemma factory_calls_are_under_the_deadline_witness :
  ∃ evs,
    (adk.TestConnection (Scope 3) ai_gemini w0).2 =
      {| trace := trace w0 ++ evs; ranges := ranges w0 |}
    ∧ Forall (λ e, ∀ c', obs.event_ctx e = Some c' → c' = WithTimeout (Scope 3) 15) evs.
Proof.
  exact (proj1 (factory_calls_are_under_the_deadline (Scope 3) ai_gemini) w0).
Defined.

Lemma CreateModel_openai_is_pure_witness :
  models.Provider ai_openai ≠ models.AIProviderGemini
  ∧ models.Provider ai_openai ≠ models.AIProviderVertexAI
  ∧ models.Provider ai_openai = models.AIProviderOpenAI
  ∧ adk.CreateModel Background ai_openai w0 =
      (inl (OpenAIModel "m" {| authToken := "k"; OpenAIBaseURL := "http://host/v1";
                               OpenAIHTTPClient := Some ProxyTransport |}), w0)
  ∧ adk.probe_url ai_openai = "http://host/v1/chat/completions".
Proof.
  assert (Hg : models.Provider ai_openai ≠ models.AIProviderGemini) by discriminate.
  assert (Hv : models.Provider ai_openai ≠ models.AIProviderVertexAI) by discriminate.
  assert (Ho : models.Provider ai_openai = models.AIProviderOpenAI) by reflexivity.
  split; [exact Hg|]. split; [exact Hv|]. split; [exact Ho|].
  pose proof (CreateModel_openai_is_pure Background ai_openai w0 Hg Hv Ho)
    as (Hc & _ & _ & Hu).
  split; [exact Hc|exact Hu].
Defined.

Lemma testOpenAIConnection_calls_Do_at_most_once_witness :
  let body :=
    JObject [("max_tokens", JInt 1);
             ("messages", JArray [JObject [("content", JString "hi");
                                           ("role", JString "user")]]);
             ("model", JString "m")] in
  let req :=
    {| Method := "POST"; URL := "http://host/v1/chat/completions"; ReqBody := "{}";
       Header := [("Content-Type", "application/json");
                  ("Authorization", "Bearer k")] |} in
  let err := errorString "dial tcp: connection refused" in
  json_Marshal (Runtime := samples.runtime_offline) body = inl "{}"
  ∧ http_NewRequest_err (Runtime := samples.runtime_offline)
      "POST" "http://host/v1/chat/completions" = None
  ∧ client_Do (Runtime := samples.runtime_offline)
      (trace w0) Background ProxyTransport req = inr err
  ∧ adk.testOpenAIConnection (rt := samples.runtime_offline) Background ai_openai w0 =
      (Some (wrapError "连接失败: dial tcp: connection refused" err),
       {| trace := trace w0 ++ [EvHTTPDo Background ProxyTransport req];
          ranges := ranges w0 |}).
Proof.
  intros body req err.
  assert (Hj : json_Marshal (Runtime := samples.runtime_offline) body = inl "{}")
    by reflexivity.
  assert (Hr : http_NewRequest_err (Runtime := samples.runtime_offline)
                 "POST" "http://host/v1/chat/completions" = None) by reflexivity.
  assert (Hd : client_Do (Runtime := samples.runtime_offline)
                 (trace w0) Background ProxyTransport req = inr err)
    by reflexivity.
  split; [exact Hj|]. split; [exact Hr|]. split; [exact Hd|].
  exact (proj1 (proj2 (proj2 (testOpenAIConnection_calls_Do_at_most_once
                                (rt := samples.runtime_offline)
                                Background ai_openai w0)))
           "{}" err Hj Hr Hd).
Defined.

Lemma TestConnection_gemini_looks_at_the_first_item_witness :
  models.Provider ai_gemini ≠ models.AIProviderOpenAI
  ∧ models.Provider ai_gemini = models.AIProviderGemini
  ∧ ((adk.TestConnection (rt := samples.runtime_offline) Background ai_gemini w0).1 = None
     ↔ gemini_NewModel_err (Runtime := samples.runtime_offline) (trace w0)
         (WithTimeout Background 15) "m"
         {| CfgAPIKey := "k"; CfgBackend := BackendGeminiAPI; CfgProject := "";
            CfgLocation := ""; CfgCredentials := None;
            CfgHTTPClient := adk.GetTransport |} = None
       ∧ ∀ resp err, head (@nil (string * option error)) ≠ Some (resp, Some err)).
Proof.
  assert (Ho : models.Provider ai_gemini ≠ models.AIProviderOpenAI) by discriminate.
  assert (Hg : models.Provider ai_gemini = models.AIProviderGemini) by reflexivity.
  split; [exact Ho|]. split; [exact Hg|].
  exact (proj2 (proj2 (TestConnection_gemini_looks_at_the_first_item
                         (rt := samples.runtime_offline)
                         Background ai_gemini w0 Ho Hg))).
Defined.

End at_fixture_more.
